(** * Exon: the content-strategy serverless handler (src/api/index.js)

    A shallow embedding of the two variants of the handler found in
    [src/api/index.js] (the OpenAI one, lines 1-176, and the Gemini one,
    lines 177-376) and of the JavaScript primitives they rely on, followed
    by the properties of the specification.

    Conventions of the embedding.
    - A JavaScript string is the list of its UTF-16 code units.
    - A JavaScript value is a [JVal]: the JSON values plus [undefined].
      Numbers are kept abstract ([JsNumbers]): only their truthiness, the
      test [=== 0] and their printing are used by the program.
    - [JSON.parse] and [JSON.stringify] are parameters ([JsonCodec]).
    - The upstream services are an oracle ([World]) that answers each HTTP
      request knowing everything that happened before; [Date.now()] is a
      second oracle, read once per call.
    - Asynchronous code is run to completion in program order: the three
      groups of [Promise.all] one after the other, each promise until it
      settles.  A promise that rejects does not stop its siblings, exactly as
      in JavaScript; [Promise.all] then rejects with the first rejection.
    - [console.log/warn/error] print nothing in the model, but the template
      literals passed to them are evaluated, because they can throw. *)

From Stdlib Require Import List String Ascii Bool NArith ZArith Lia DecimalString.
Import ListNotations.

Set Implicit Arguments.
Set Warnings "-register-all".


(* ------------------------------------------------------------------ *)
(** ** Strings as lists of UTF-16 code units *)

Definition jsstring := list N.

Definition lit (s : string) : jsstring :=
  map N_of_ascii (list_ascii_of_string s).

(** The double quote and the line feed, which the templates contain. *)
Definition dq : string := String (ascii_of_nat 34) EmptyString.
Definition nl : string := String (ascii_of_nat 10) EmptyString.

Fixpoint str_eqb (a b : jsstring) : bool :=
  match a, b with
  | [], [] => true
  | x :: a', y :: b' => N.eqb x y && str_eqb a' b'
  | _, _ => false
  end.

(** [s.startsWith(p)], returning what follows the prefix. *)
Fixpoint strip_prefix (p s : jsstring) : option jsstring :=
  match p, s with
  | [], _ => Some s
  | x :: p', y :: s' => if N.eqb x y then strip_prefix p' s' else None
  | _ :: _, [] => None
  end.

(** [s.replace(pat, rep)] with string arguments: the first occurrence of
    [pat] is replaced, and [rep] holds no [$] pattern here. *)
Fixpoint replace_first (pat rep s : jsstring) : jsstring :=
  match strip_prefix pat s with
  | Some rest => rep ++ rest
  | None =>
      match s with
      | [] => []
      | c :: s' => c :: replace_first pat rep s'
      end
  end.

(** [parts.join(sep)] on strings. *)
Fixpoint join (sep : jsstring) (parts : list jsstring) : jsstring :=
  match parts with
  | [] => []
  | [p] => p
  | p :: rest => p ++ sep ++ join sep rest
  end.

(** Decimal printing of a small natural number ([${maxResults}]). *)
Definition N_to_js (n : N) : jsstring :=
  lit (NilEmpty.string_of_uint (N.to_uint n)).

(* ------------------------------------------------------------------ *)
(** ** [encodeURIComponent] and [Buffer.from(s).toString('base64')] *)

Inductive JsError :=
| TypeError
| URIError
| SyntaxError
| FetchFailed
| Error (message : jsstring).

Inductive Result (A : Type) :=
| Ok (a : A)
| Throw (e : JsError).
Arguments Ok {A} a.
Arguments Throw {A} e.

Definition rbind {A B} (r : Result A) (k : A -> Result B) : Result B :=
  match r with
  | Ok a => k a
  | Throw e => Throw e
  end.

Fixpoint mapR {A B} (f : A -> Result B) (l : list A) : Result (list B) :=
  match l with
  | [] => Ok []
  | x :: t => rbind (f x) (fun y => rbind (mapR f t) (fun ys => Ok (y :: ys)))
  end.

Definition is_high_surrogate (u : N) : bool := (N.leb 55296 u && N.leb u 56319)%N.
Definition is_low_surrogate (u : N) : bool := (N.leb 56320 u && N.leb u 57343)%N.

Definition surrogate_pair (hi lo : N) : N :=
  (65536 + (hi - 55296) * 1024 + (lo - 56320))%N.

(** The code points of a string; [None] on a lone surrogate. *)
Fixpoint code_points (s : jsstring) : option (list N) :=
  match s with
  | [] => Some []
  | u :: t =>
      if is_low_surrogate u then None
      else if is_high_surrogate u then
        match t with
        | lo :: t' =>
            if is_low_surrogate lo
            then option_map (cons (surrogate_pair u lo)) (code_points t')
            else None
        | [] => None
        end
      else option_map (cons u) (code_points t)
  end.

(** The code points as [Buffer.from] sees them: a lone surrogate becomes
    U+FFFD. *)
Fixpoint code_points_lossy (s : jsstring) : list N :=
  match s with
  | [] => []
  | u :: t =>
      if is_low_surrogate u then 65533%N :: code_points_lossy t
      else if is_high_surrogate u then
        match t with
        | lo :: t' =>
            if is_low_surrogate lo
            then surrogate_pair u lo :: code_points_lossy t'
            else 65533%N :: code_points_lossy t
        | [] => [65533%N]
        end
      else u :: code_points_lossy t
  end.

Definition utf8 (cp : N) : list N :=
  (if cp <? 128 then [cp]
   else if cp <? 2048 then [192 + cp / 64; 128 + cp mod 64]
   else if cp <? 65536 then
     [224 + cp / 4096; 128 + (cp / 64) mod 64; 128 + cp mod 64]
   else
     [240 + cp / 262144; 128 + (cp / 4096) mod 64;
      128 + (cp / 64) mod 64; 128 + cp mod 64])%N.

Definition hex_digit (d : N) : N :=
  (if d <? 10 then 48 + d else 55 + d)%N.

Definition percent (byte : N) : jsstring :=
  [37%N; hex_digit (byte / 16); hex_digit (byte mod 16)].

(** A-Z a-z 0-9 - _ . ! ~ * ' ( ) *)
Definition uri_unreserved (c : N) : bool :=
  ((65 <=? c) && (c <=? 90) || (97 <=? c) && (c <=? 122)
   || (48 <=? c) && (c <=? 57)
   || existsb (N.eqb c) [45; 95; 46; 33; 126; 42; 39; 40; 41])%N.

Definition encode_code_point (cp : N) : jsstring :=
  if uri_unreserved cp then [cp] else flat_map percent (utf8 cp).

Definition encodeURIComponent (s : jsstring) : Result jsstring :=
  match code_points s with
  | Some cps => Ok (flat_map encode_code_point cps)
  | None => Throw URIError
  end.

Definition base64_char (i : N) : N :=
  (if i <? 26 then 65 + i
   else if i <? 52 then 71 + i
   else if i <? 62 then i - 4
   else if i =? 62 then 43 else 47)%N.

Fixpoint base64 (bytes : list N) : jsstring :=
  match bytes with
  | [] => []
  | [a] =>
      [base64_char (a / 4); base64_char ((a mod 4) * 16); 61; 61]%N
  | [a; b] =>
      [base64_char (a / 4); base64_char ((a mod 4) * 16 + b / 16);
       base64_char ((b mod 16) * 4); 61]%N
  | a :: b :: c :: rest =>
      ([base64_char (a / 4); base64_char ((a mod 4) * 16 + b / 16);
        base64_char ((b mod 16) * 4 + c / 64); base64_char (c mod 64)]
       ++ base64 rest)%N
  end.

(** [Buffer.from(s).toString('base64')] *)
Definition Buffer_base64 (s : jsstring) : jsstring :=
  base64 (flat_map utf8 (code_points_lossy s)).

(* ------------------------------------------------------------------ *)
(** ** JavaScript values *)

(** The part of IEEE numbers the program touches: ToBoolean, the test
    [x === 0] and ToString. *)
Class JsNumbers := {
  number : Type;
  number_truthy : number -> bool;
  number_is_zero : number -> bool;
  number_to_string : number -> jsstring
}.

Section Values.
Context {num : JsNumbers}.

Inductive JVal :=
| JUndefined
| JNull
| JBool (b : bool)
| JNum (n : number)
| JStr (s : jsstring)
| JArr (elems : list JVal)
| JObj (props : list (jsstring * JVal)).

(** ToBoolean *)
Definition truthy (v : JVal) : bool :=
  match v with
  | JUndefined | JNull => false
  | JBool b => b
  | JNum n => number_truthy n
  | JStr s => negb (str_eqb s [])
  | JArr _ | JObj _ => true
  end.

(** [a || b] *)
Definition js_or (a b : JVal) : JVal := if truthy a then a else b.

Definition nullish (v : JVal) : bool :=
  match v with
  | JUndefined | JNull => true
  | _ => false
  end.

Definition Array_isArray (v : JVal) : bool :=
  match v with
  | JArr _ => true
  | _ => false
  end.

(** The elements of a value that passed [Array.isArray]. *)
Definition elements (v : JVal) : list JVal :=
  match v with
  | JArr elems => elems
  | _ => []
  end.

(** The own property [k] of a parsed object (keys are unique after
    [JSON.parse]). *)
Fixpoint own_property (k : jsstring) (props : list (jsstring * JVal))
  : option JVal :=
  match props with
  | [] => None
  | (k', v) :: rest => if str_eqb k k' then Some v else own_property k rest
  end.

Definition has_own_property (k : jsstring) (props : list (jsstring * JVal))
  : bool :=
  match own_property k props with
  | Some _ => true
  | None => false
  end.

(** [v.k] for the property names the program reads ([items], [snippet],
    [title], [id], [channelId], [access_token], [data], [children],
    [choices], [message], [content], [candidates], [parts], [text] and the
    four request fields): none of them is an array index, [length], or a
    property of a built-in prototype, so only the own properties of an
    object matter.  Reading a property of [undefined] or [null] throws. *)
Definition get (v : JVal) (k : jsstring) : Result JVal :=
  match v with
  | JUndefined | JNull => Throw TypeError
  | JObj props =>
      match own_property k props with
      | Some x => Ok x
      | None => Ok JUndefined
      end
  | JArr _ | JStr _ | JBool _ | JNum _ => Ok JUndefined
  end.

(** [v.length === 0] for a [v] that is neither [undefined] nor [null]: the
    length of an array or of a string is its number of elements, an object
    has the [length] it was parsed with, a boolean or a number has none. *)
Definition length_is_zero (v : JVal) : bool :=
  match v with
  | JArr elems => Nat.eqb (List.length elems) 0
  | JStr s => Nat.eqb (List.length s) 0
  | JObj props =>
      match own_property (lit "length") props with
      | Some (JNum n) => number_is_zero n
      | _ => false
      end
  | _ => false
  end.

(** [v[0]] *)
Definition get_first (v : JVal) : Result JVal :=
  match v with
  | JUndefined | JNull => Throw TypeError
  | JArr elems =>
      match elems with
      | x :: _ => Ok x
      | [] => Ok JUndefined
      end
  | JStr s =>
      match s with
      | c :: _ => Ok (JStr [c])
      | [] => Ok JUndefined
      end
  | JObj props =>
      match own_property (lit "0") props with
      | Some x => Ok x
      | None => Ok JUndefined
      end
  | JBool _ | JNum _ => Ok JUndefined
  end.

(** [v.map(f)]: only an array has a callable [map]; a parsed object's own
    [map] is data, and calling it throws like calling [undefined]. *)
Definition call_map {A} (v : JVal) (f : JVal -> Result A) : Result (list A) :=
  match v with
  | JArr elems => mapR f elems
  | _ => Throw TypeError
  end.

(** [v?.map(f)]: [None] stands for the [undefined] of the short circuit. *)
Definition optional_map {A} (v : JVal) (f : JVal -> Result A)
  : Result (option (list A)) :=
  if nullish v then Ok None else rbind (call_map v f) (fun l => Ok (Some l)).

(** [x || []] where [x] is an array or [undefined]; an array is truthy. *)
Definition or_empty {A} (x : option (list A)) : list A :=
  match x with
  | Some l => l
  | None => []
  end.

(** [v.replace(pat, rep)]: a string method; anything else has no callable
    [replace]. *)
Definition call_replace (v : JVal) (pat rep : jsstring) : Result jsstring :=
  match v with
  | JStr s => Ok (replace_first pat rep s)
  | _ => Throw TypeError
  end.

(** ToString, as a template literal [`${v}`] applies it.  An array prints
    its elements joined by commas, [null] and [undefined] elements as the
    empty string.  An object prints as [[object Object]] through
    [Object.prototype.toString], unless an own property [toString] hides
    that method: a parsed value is never callable, and [valueOf] then
    returns the object itself, so ToPrimitive throws. *)
Fixpoint ToString (v : JVal) : Result jsstring :=
  match v with
  | JUndefined => Ok (lit "undefined")
  | JNull => Ok (lit "null")
  | JBool true => Ok (lit "true")
  | JBool false => Ok (lit "false")
  | JNum n => Ok (number_to_string n)
  | JStr s => Ok s
  | JArr elems =>
      rbind
        ((fix each (l : list JVal) : Result (list jsstring) :=
            match l with
            | [] => Ok []
            | x :: t =>
                rbind (if nullish x then Ok [] else ToString x) (fun s =>
                rbind (each t) (fun ss => Ok (s :: ss)))
            end) elems)
        (fun parts => Ok (join (lit ",") parts))
  | JObj props =>
      if has_own_property (lit "toString") props
      then Throw TypeError
      else Ok (lit "[object Object]")
  end.

(** [elems.join(sep)] *)
Definition Array_join (sep : jsstring) (elems : list JVal) : Result jsstring :=
  rbind (mapR (fun x => if nullish x then Ok [] else ToString x) elems)
        (fun parts => Ok (join sep parts)).

(** The records the fetchers build. *)
Record VideoResult := { title : JVal }.
Record ChannelVideos := { channel : JVal; videos : list VideoResult }.
Record SubredditPosts := { subreddit : JVal; posts : list VideoResult }.

End Values.

(** [JSON.parse] on a string ([None]: a SyntaxError) and [JSON.stringify]. *)
Class JsonCodec {num : JsNumbers} := {
  JSON_parse_text : jsstring -> option JVal;
  JSON_stringify : JVal -> jsstring
}.

(* ------------------------------------------------------------------ *)
(** ** The outside world and the monad of the program *)

Section Program.
Context {num : JsNumbers} {codec : JsonCodec}.

(** [JSON.parse(v)]: the argument is converted to a string first. *)
Definition JSON_parse (v : JVal) : Result JVal :=
  rbind (ToString v) (fun text =>
  match JSON_parse_text text with
  | Some x => Ok x
  | None => Throw SyntaxError
  end).

Inductive Routine :=
| SearchYouTubeVideos
| GetChannelVideos
| GetRedditAccessToken
| GetSubredditPosts
| CallLLM.

(** An outgoing [fetch(url, options)]. *)
Record Request := {
  req_url : jsstring;
  req_method : jsstring;
  req_headers : list (jsstring * jsstring);
  req_body : option jsstring
}.

(** What [fetch] resolves to: [json] is the parsed body, [None] when
    [res.json()] rejects. *)
Record Response := {
  ok : bool;
  statusText : jsstring;
  json : option JVal
}.

(** A fetch rejects (network error) or resolves, whatever the status. *)
Inductive Outcome :=
| NetworkError
| Responds (r : Response).

(** The log kept beside the program: a routine was entered, or a routine
    issued a request and got an outcome. *)
Inductive Event :=
| Invoke (r : Routine)
| Fetch (r : Routine) (q : Request) (o : Outcome).

(** The upstream services answer a request knowing the log so far;
    [clock n] is the value of the [n]-th [Date.now()]. *)
Record World := {
  respond : list Event -> Request -> Outcome;
  clock : nat -> Z
}.

(** [let redditToken = { value: null, expires: 0 }] (lines 36, 216).  Each
    file declares its own variable: a [State] is the state of one file, and
    a run stays within one [Variant]. *)
Record TokenCache := { value : JVal; expires : Z }.

Definition redditToken_initial : TokenCache :=
  {| value := JNull; expires := 0 |}.

Record State := {
  redditToken : TokenCache;
  trace : list Event;
  ticks : nat
}.

Definition initial_state : State :=
  {| redditToken := redditToken_initial; trace := []; ticks := 0 |}.

Definition M (A : Type) : Type := World -> State -> Result A * State.

Definition ret {A} (a : A) : M A := fun _ st => (Ok a, st).

Definition throw {A} (e : JsError) : M A := fun _ st => (Throw e, st).

Definition bind {A B} (m : M A) (k : A -> M B) : M B :=
  fun w st =>
    match m w st with
    | (Ok a, st') => k a w st'
    | (Throw e, st') => (Throw e, st')
    end.

Definition liftR {A} (r : Result A) : M A := fun _ st => (r, st).

(** [try { m } catch (error) { handler error }] *)
Definition try_catch {A} (m : M A) (handler : JsError -> M A) : M A :=
  fun w st =>
    match m w st with
    | (Ok a, st') => (Ok a, st')
    | (Throw e, st') => handler e w st'
    end.

(** A promise run until it settles: fulfilled or rejected, it has had its
    effects. *)
Definition settle {A} (m : M A) : M (Result A) :=
  fun w st => let (r, st') := m w st in (Ok r, st').

(** [Promise.all]: the first rejection, or all the values. *)
Definition Promise_all {A} (settled : list (Result A)) : Result (list A) :=
  mapR (fun r => r) settled.

(** [Promise.all([a, b, c])] on three settled promises. *)
Definition Promise_all3 {A B C} (a : Result A) (b : Result B) (c : Result C)
  : Result (A * B * C) :=
  rbind a (fun x => rbind b (fun y => rbind c (fun z => Ok (x, y, z)))).

Fixpoint mapM {A B} (f : A -> M B) (l : list A) : M (list B) :=
  match l with
  | [] => ret []
  | x :: t => bind (f x) (fun y => bind (mapM f t) (fun ys => ret (y :: ys)))
  end.

Definition log (e : Event) : M unit :=
  fun _ st =>
    (Ok tt, {| redditToken := redditToken st;
               trace := trace st ++ [e];
               ticks := ticks st |}).

Definition get_redditToken : M TokenCache :=
  fun _ st => (Ok (redditToken st), st).

Definition set_redditToken (t : TokenCache) : M unit :=
  fun _ st =>
    (Ok tt, {| redditToken := t; trace := trace st; ticks := ticks st |}).

(** [Date.now()] *)
Definition Date_now : M Z :=
  fun w st =>
    (Ok (clock w (ticks st)),
     {| redditToken := redditToken st;
        trace := trace st;
        ticks := S (ticks st) |}).

(** [await fetch(url, options)] issued by routine [r].  A [fetch] that
    rejects before anything is sent (a header value it refuses) is the
    outcome [NetworkError]. *)
Definition fetch (r : Routine) (q : Request) : M Response :=
  fun w st =>
    let o := respond w (trace st) q in
    let st' := {| redditToken := redditToken st;
                  trace := trace st ++ [Fetch r q o];
                  ticks := ticks st |} in
    match o with
    | NetworkError => (Throw FetchFailed, st')
    | Responds resp => (Ok resp, st')
    end.

(** [await response.json()] *)
Definition response_json (resp : Response) : M JVal :=
  match json resp with
  | Some v => ret v
  | None => throw SyntaxError
  end.

End Program.

Declare Scope js_scope.
Delimit Scope js_scope with js.
Notation "x <- m ;; k" := (bind m (fun x => k))
  (at level 61, m at next level, right associativity) : js_scope.
Notation "m ;;; k" := (bind m (fun _ => k))
  (at level 61, right associativity) : js_scope.
Notation "'let?' x := r 'in' k" := (rbind r (fun x => k))
  (at level 61, x name, r at next level, right associativity).

(* ------------------------------------------------------------------ *)
(** ** The API clients (lines 5-91 and 182-290) *)

Section Clients.
Context {num : JsNumbers} {codec : JsonCodec}.
Local Open Scope js_scope.

(** The two files of [src/api/index.js]: they share the clients up to the
    [User-Agent] header and differ in the synthesis call and the prompt. *)
Inductive Variant := OpenAI | Gemini.

Definition userAgent (v : Variant) : jsstring :=
  match v with
  | OpenAI => lit "ExonVercel/1.0"
  | Gemini => lit "VercelContentStrategyEngine/1.0"
  end.

(** [fetch(url)] *)
Definition http_get (u : jsstring) (hs : list (jsstring * jsstring)) : Request :=
  {| req_url := u; req_method := lit "GET"; req_headers := hs;
     req_body := None |}.

Definition http_post (u : jsstring) (hs : list (jsstring * jsstring))
  (b : jsstring) : Request :=
  {| req_url := u; req_method := lit "POST"; req_headers := hs;
     req_body := Some b |}.

(** [item => ({ title: item.snippet.title })] *)
Definition video_of_item (item : JVal) : Result VideoResult :=
  let? snippet := get item (lit "snippet") in
  let? t := get snippet (lit "title") in
  Ok {| title := t |}.

(** [data.items?.map(item => ({ title: item.snippet.title })) || []] *)
Definition items_videos (data : JVal) : Result (list VideoResult) :=
  let? items := get data (lit "items") in
  let? mapped := optional_map items video_of_item in
  Ok (or_empty mapped).

Definition youtube_search_url : jsstring :=
  lit "https://www.googleapis.com/youtube/v3/search?part=snippet".

(** Lines 5-16.  The URL is built before the [try]. *)
Definition searchYouTubeVideos (query apiKey : jsstring) (maxResults : N)
  : M (list VideoResult) :=
  log (Invoke SearchYouTubeVideos) ;;;
  q <- liftR (encodeURIComponent query) ;;
  let url :=
    youtube_search_url ++ lit "&q=" ++ q
    ++ lit "&type=video&order=relevance&maxResults=" ++ N_to_js maxResults
    ++ lit "&key=" ++ apiKey in
  try_catch
    (response <- fetch SearchYouTubeVideos (http_get url []) ;;
     if negb (ok response)
     then throw (Error (lit "YouTube API Error: " ++ statusText response))
     else
       data <- response_json response ;;
       liftR (items_videos data))
    (fun error => ret []).

(** [!channelResponse.items || channelResponse.items.length === 0] *)
Definition no_channel_match (items : JVal) : bool :=
  negb (truthy items) || length_is_zero items.

(** Lines 18-34.  The whole body is inside the [try]; the messages given to
    [console.warn] and [console.error] interpolate [channelName]. *)
Definition getChannelVideos (channelName : JVal) (apiKey : jsstring)
  (maxResults : N) : M (list VideoResult) :=
  log (Invoke GetChannelVideos) ;;;
  try_catch
    (name <- liftR (ToString channelName) ;;
     q <- liftR (encodeURIComponent name) ;;
     let channelSearchUrl :=
       youtube_search_url ++ lit "&q=" ++ q
       ++ lit "&type=channel&maxResults=1&key=" ++ apiKey in
     found <- fetch GetChannelVideos (http_get channelSearchUrl []) ;;
     channelResponse <- response_json found ;;
     items <- liftR (get channelResponse (lit "items")) ;;
     if no_channel_match items
     then
       liftR (ToString channelName) ;;;
       ret []
     else
       first <- liftR (get_first items) ;;
       id <- liftR (get first (lit "id")) ;;
       channelId <- liftR (get id (lit "channelId")) ;;
       cid <- liftR (ToString channelId) ;;
       let videosUrl :=
         youtube_search_url ++ lit "&channelId=" ++ cid
         ++ lit "&type=video&order=date&maxResults=" ++ N_to_js maxResults
         ++ lit "&key=" ++ apiKey in
       listed <- fetch GetChannelVideos (http_get videosUrl []) ;;
       videosResponse <- response_json listed ;;
       liftR (items_videos videosResponse))
    (fun error =>
       liftR (ToString channelName) ;;;
       ret []).

Definition reddit_token_url : jsstring :=
  lit "https://www.reddit.com/api/v1/access_token".

Definition token_request (v : Variant) (clientId clientSecret : jsstring)
  : Request :=
  http_post reddit_token_url
    [(lit "Authorization",
      lit "Basic " ++ Buffer_base64 (clientId ++ lit ":" ++ clientSecret));
     (lit "Content-Type", lit "application/x-www-form-urlencoded");
     (lit "User-Agent", userAgent v)]
    (lit "grant_type=client_credentials").

(** [50 * 60 * 1000] *)
Definition token_validity : Z := 50 * 60 * 1000.

(** [redditToken.value && redditToken.expires > Date.now()]: the clock is
    read only when a value is cached. *)
Definition cached_token_valid (cached : TokenCache) : M bool :=
  if truthy (value cached)
  then
    now <- Date_now ;;
    ret (Z.gtb (expires cached) now)
  else ret false.

(** Lines 38-56. *)
Definition getRedditAccessToken (v : Variant) (clientId clientSecret : jsstring)
  : M JVal :=
  log (Invoke GetRedditAccessToken) ;;;
  cached <- get_redditToken ;;
  valid <- cached_token_valid cached ;;
  if valid then ret (value cached)
  else
    try_catch
      (answer <- fetch GetRedditAccessToken
                   (token_request v clientId clientSecret) ;;
       response <- response_json answer ;;
       access_token <- liftR (get response (lit "access_token")) ;;
       if negb (truthy access_token)
       then throw (Error (lit "Reddit token not received."))
       else
         now <- Date_now ;;
         set_redditToken
           {| value := access_token; expires := now + token_validity |} ;;;
         stored <- get_redditToken ;;
         ret (value stored))
      (fun error => ret JNull).

(** [post => ({ title: post.data.title })] *)
Definition post_of_child (post : JVal) : Result VideoResult :=
  let? d := get post (lit "data") in
  let? t := get d (lit "title") in
  Ok {| title := t |}.

(** [response.data?.children?.map(post => ...) || []] *)
Definition children_posts (response : JVal) : Result (list VideoResult) :=
  let? data := get response (lit "data") in
  if nullish data then Ok []
  else
    let? children := get data (lit "children") in
    let? mapped := optional_map children post_of_child in
    Ok (or_empty mapped).

(** Lines 58-68.  The URL and the headers are built before the [try]. *)
Definition getSubredditPosts (v : Variant) (subreddit : jsstring)
  (accessToken : JVal) (limit : N) : M (list VideoResult) :=
  log (Invoke GetSubredditPosts) ;;;
  let url :=
    lit "https://oauth.reddit.com/r/" ++ subreddit ++ lit "/hot?limit="
    ++ N_to_js limit in
  bearer <- liftR (ToString accessToken) ;;
  let options :=
    [(lit "Authorization", lit "Bearer " ++ bearer);
     (lit "User-Agent", userAgent v)] in
  try_catch
    (answer <- fetch GetSubredditPosts (http_get url options) ;;
     response <- response_json answer ;;
     liftR (children_posts response))
    (fun error => ret []).

Definition openai_request (prompt apiKey : jsstring) : Request :=
  http_post (lit "https://api.openai.com/v1/chat/completions")
    [(lit "Content-Type", lit "application/json");
     (lit "Authorization", lit "Bearer " ++ apiKey)]
    (JSON_stringify
       (JObj
          [(lit "model", JStr (lit "gpt-3.5-turbo"));
           (lit "messages",
            JArr [JObj [(lit "role", JStr (lit "user"));
                        (lit "content", JStr prompt)]]);
           (lit "response_format",
            JObj [(lit "type", JStr (lit "json_object"))])])).

(** [data.choices[0].message.content] *)
Definition openai_content (data : JVal) : Result JVal :=
  let? choices := get data (lit "choices") in
  let? first := get_first choices in
  let? message := get first (lit "message") in
  get message (lit "content").

Definition openai_failure : jsstring :=
  lit "Failed to get a valid response from the OpenAI API.".

(** Lines 70-91. *)
Definition callOpenAI_API (prompt apiKey : jsstring) : M JVal :=
  log (Invoke CallLLM) ;;;
  try_catch
    (response <- fetch CallLLM (openai_request prompt apiKey) ;;
     if negb (ok response)
     then throw (Error (lit "OpenAI API Error: " ++ statusText response))
     else
       data <- response_json response ;;
       liftR (let? content := openai_content data in JSON_parse content))
    (fun error => throw (Error openai_failure)).

Definition gemini_request (prompt apiKey : jsstring) : Request :=
  http_post
    (lit "https://generativelanguage.googleapis.com/v1beta/models/gemini-pro:generateContent?key="
     ++ apiKey)
    [(lit "Content-Type", lit "application/json")]
    (JSON_stringify
       (JObj
          [(lit "contents",
            JArr [JObj [(lit "parts",
                         JArr [JObj [(lit "text", JStr prompt)]])]]);
           (lit "generationConfig",
            JObj [(lit "responseMimeType",
                   JStr (lit "application/json"))])])).

(** [data.candidates[0].content.parts[0].text] *)
Definition gemini_content (data : JVal) : Result JVal :=
  let? candidates := get data (lit "candidates") in
  let? first := get_first candidates in
  let? content := get first (lit "content") in
  let? parts := get content (lit "parts") in
  let? part := get_first parts in
  get part (lit "text").

Definition gemini_failure : jsstring :=
  lit "Failed to get a valid response from the Gemini API.".

(** Lines 268-290. *)
Definition callGeminiAPI (prompt apiKey : jsstring) : M JVal :=
  log (Invoke CallLLM) ;;;
  try_catch
    (response <- fetch CallLLM (gemini_request prompt apiKey) ;;
     if negb (ok response)
     then throw (Error (lit "Gemini API Error: " ++ statusText response))
     else
       data <- response_json response ;;
       liftR (let? content := gemini_content data in JSON_parse content))
    (fun error => throw (Error gemini_failure)).

(** The synthesis call of each file. *)
Definition synthesize (v : Variant) : jsstring -> jsstring -> M JVal :=
  match v with
  | OpenAI => callOpenAI_API
  | Gemini => callGeminiAPI
  end.

Definition synthesis_failure (v : Variant) : jsstring :=
  match v with
  | OpenAI => openai_failure
  | Gemini => gemini_failure
  end.

End Clients.

(* ------------------------------------------------------------------ *)
(** ** Prompt construction (lines 133-163 and 331-366) *)

Definition openai_prompt_head : jsstring :=
  lit (nl ++ "You are a world-class content strategist and data "
       ++ "analyst named Exon. Your task is to generate a complete "
       ++ "content strategy." ++ nl
       ++ "I have provided real-time data from YouTube and Reddit. "
       ++ "You must simulate the data for X (Twitter) and Google "
       ++ "Trends based on your expert knowledge." ++ nl ++ nl
       ++ "Client Details:" ++ nl ++ "- Target Audience: ")%string.

Definition openai_prompt_after_audience : jsstring :=
  lit (nl ++ "- Primary Goal: ")%string.

Definition openai_prompt_after_goal : jsstring :=
  lit (nl ++ nl ++ "Live Data Collected:" ++ nl ++ "- Top YouTube Videos: ")%string.

Definition openai_prompt_after_top_videos : jsstring :=
  lit (nl ++ "- Competitor YouTube Videos: ")%string.

Definition openai_prompt_after_competitors : jsstring :=
  lit (nl ++ "- Top Reddit Posts: ")%string.

Definition openai_prompt_tail : jsstring :=
  lit (nl ++ nl ++ "Based on all of this, provide a response in a single, "
       ++ "valid JSON object with the following four keys: " ++ dq
       ++ "trendDiscovery" ++ dq ++ ", " ++ dq ++ "contentAnalysis" ++ dq
       ++ ", " ++ dq ++ "competitorReport" ++ dq ++ ", " ++ dq
       ++ "strategyCalendar" ++ dq ++ "." ++ nl ++ nl ++ "1. " ++ dq
       ++ "trendDiscovery" ++ dq ++ ": An object for trend analysis." ++ nl
       ++ "   - " ++ dq ++ "youtubeTrends" ++ dq
       ++ ": Analyze the provided LIVE YouTube data to identify "
       ++ "3-5 key trends." ++ nl ++ "   - " ++ dq ++ "redditTrends" ++ dq
       ++ ": Analyze the provided LIVE Reddit data to identify 3-5 "
       ++ "key community topics." ++ nl ++ "   - " ++ dq ++ "simulatedXTrends"
       ++ dq ++ ": Act as an expert on X (Twitter). Simulate the top 3-5 "
       ++ "trending topics relevant to the target audience." ++ nl ++ "   - "
       ++ dq ++ "simulatedGoogleTrends" ++ dq
       ++ ": Act as a search analyst. Simulate the top 3-5 rising "
       ++ "search queries on Google Trends." ++ nl ++ nl ++ "2. " ++ dq
       ++ "contentAnalysis" ++ dq
       ++ ": An object that deconstructs successful content "
       ++ "(winningFormats, toneOfVoice, engagementTriggers, "
       ++ "optimalTiming)." ++ nl ++ nl ++ "3. " ++ dq ++ "competitorReport"
       ++ dq ++ ": An object analyzing the specified competitors "
       ++ "(youtubeCompetitorAnalysis, inferredXStrategy)." ++ nl ++ nl ++ "4. "
       ++ dq ++ "strategyCalendar" ++ dq
       ++ ": An array of 30 objects for a 30-day content plan. "
       ++ "Each object must have the following structure: { " ++ dq ++ "day"
       ++ dq ++ ": number, " ++ dq ++ "platform" ++ dq ++ ": " ++ dq
       ++ "YouTube/Instagram/Reddit" ++ dq ++ ", " ++ dq ++ "title" ++ dq
       ++ ": " ++ dq ++ "A catchy, fully-formed content title" ++ dq ++ ", "
       ++ dq ++ "format" ++ dq ++ ": " ++ dq ++ "e.g., YouTube Short, IG Reel"
       ++ dq ++ ", " ++ dq ++ "description" ++ dq ++ ": " ++ dq
       ++ "A 1-2 sentence description." ++ dq ++ " }" ++ nl)%string.

Definition gemini_prompt_head : jsstring :=
  lit (nl ++ "You are a world-class content strategist and data "
       ++ "analyst. I have gathered real-time data from YouTube "
       ++ "and Reddit for a client. Your task is to generate a "
       ++ "complete content strategy based on this data and your "
       ++ "own expert knowledge." ++ nl ++ nl ++ "Client Details:" ++ nl
       ++ "- Target Audience: ")%string.

Definition gemini_prompt_after_audience : jsstring :=
  lit (nl ++ "- Primary Goal: ")%string.

Definition gemini_prompt_after_goal : jsstring :=
  lit (nl ++ nl ++ "Live Data Collected:" ++ nl ++ "- Top YouTube Videos: ")%string.

Definition gemini_prompt_after_top_videos : jsstring :=
  lit (nl ++ "- Competitor YouTube Videos: ")%string.

Definition gemini_prompt_after_competitors : jsstring :=
  lit (nl ++ "- Top Reddit Posts: ")%string.

Definition gemini_prompt_tail : jsstring :=
  lit (nl ++ nl ++ "Based on all of this, provide a response in a single "
       ++ "JSON object with the following four keys: " ++ dq ++ "trendDiscovery"
       ++ dq ++ ", " ++ dq ++ "contentAnalysis" ++ dq ++ ", " ++ dq
       ++ "competitorReport" ++ dq ++ ", " ++ dq ++ "strategyCalendar" ++ dq
       ++ "." ++ nl ++ nl ++ "1. " ++ dq ++ "trendDiscovery" ++ dq
       ++ ": An object containing trend analysis from four key " ++ "platforms."
       ++ nl ++ "   - " ++ dq ++ "youtubeTrends" ++ dq
       ++ ": Analyze the provided YouTube data to identify 3-5 key "
       ++ "trends." ++ nl ++ "   - " ++ dq ++ "redditTrends" ++ dq
       ++ ": Analyze the provided Reddit data to identify 3-5 key "
       ++ "community topics and sentiments." ++ nl ++ "   - " ++ dq
       ++ "simulatedXTrends" ++ dq
       ++ ": Act as an expert on X (Twitter). Based on your "
       ++ "knowledge, simulate the top 3-5 trending topics and "
       ++ "content formats (e.g., threads, memes) relevant to the "
       ++ "target audience on X right now." ++ nl ++ "   - " ++ dq
       ++ "simulatedGoogleTrends" ++ dq
       ++ ": Act as an expert search analyst. Based on your "
       ++ "knowledge, simulate the top 3-5 rising search queries "
       ++ "on Google Trends relevant to the target audience." ++ nl ++ nl
       ++ "2. " ++ dq ++ "contentAnalysis" ++ dq
       ++ ": An object that deconstructs what makes "
       ++ "high-performing content successful." ++ nl ++ "   - " ++ dq
       ++ "winningFormats" ++ dq
       ++ ": Identify the most effective content formats." ++ nl ++ "   - "
       ++ dq ++ "toneOfVoice" ++ dq
       ++ ": Describe the most successful tone of voice." ++ nl ++ "   - " ++ dq
       ++ "engagementTriggers" ++ dq ++ ": List common engagement triggers."
       ++ nl ++ "   - " ++ dq ++ "optimalTiming" ++ dq
       ++ ": Suggest the best days and times to post." ++ nl ++ nl ++ "3. "
       ++ dq ++ "competitorReport" ++ dq
       ++ ": An object analyzing the specified competitors." ++ nl ++ "   - "
       ++ dq ++ "youtubeCompetitorAnalysis" ++ dq
       ++ ": Summarize their content strategy, topic focus, and "
       ++ "posting frequency." ++ nl ++ "   - " ++ dq ++ "inferredXStrategy"
       ++ dq ++ ": Infer what their strategy on X would likely be." ++ nl ++ nl
       ++ "4. " ++ dq ++ "strategyCalendar" ++ dq
       ++ ": An array of 30 objects, representing a full 30-day "
       ++ "content plan. Each object must have the following "
       ++ "structure: { " ++ dq ++ "day" ++ dq ++ ": number, " ++ dq
       ++ "platform" ++ dq ++ ": " ++ dq ++ "YouTube/Instagram/Reddit" ++ dq
       ++ ", " ++ dq ++ "title" ++ dq ++ ": " ++ dq
       ++ "A catchy, fully-formed content title" ++ dq ++ ", " ++ dq ++ "format"
       ++ dq ++ ": " ++ dq ++ "e.g., YouTube Short, IG Reel, Reddit Thread"
       ++ dq ++ ", " ++ dq ++ "description" ++ dq ++ ": " ++ dq
       ++ "A 1-2 sentence description." ++ dq ++ " }" ++ nl)%string.

Section Handler.
Context {num : JsNumbers} {codec : JsonCodec}.
Local Open Scope js_scope.

Definition prompt_head (v : Variant) : jsstring :=
  match v with OpenAI => openai_prompt_head | Gemini => gemini_prompt_head end.
Definition prompt_after_audience (v : Variant) : jsstring :=
  match v with
  | OpenAI => openai_prompt_after_audience
  | Gemini => gemini_prompt_after_audience
  end.
Definition prompt_after_goal (v : Variant) : jsstring :=
  match v with
  | OpenAI => openai_prompt_after_goal
  | Gemini => gemini_prompt_after_goal
  end.
Definition prompt_after_top_videos (v : Variant) : jsstring :=
  match v with
  | OpenAI => openai_prompt_after_top_videos
  | Gemini => gemini_prompt_after_top_videos
  end.
Definition prompt_after_competitors (v : Variant) : jsstring :=
  match v with
  | OpenAI => openai_prompt_after_competitors
  | Gemini => gemini_prompt_after_competitors
  end.
Definition prompt_tail (v : Variant) : jsstring :=
  match v with OpenAI => openai_prompt_tail | Gemini => gemini_prompt_tail end.

Definition placeholder (v : Variant) : jsstring :=
  match v with
  | OpenAI => lit "No data collected."
  | Gemini => lit "N/A"
  end.

(** [s || placeholder] on a string: the empty string is falsy. *)
Definition or_placeholder (v : Variant) (s : jsstring) : jsstring :=
  if truthy (JStr s) then s else placeholder v.

(** [videos.map(v => v.title).join(', ')] *)
Definition titles_joined (vs : list VideoResult) : Result jsstring :=
  Array_join (lit ", ") (map title vs).

(** [`${c.channel}: ${c.videos.map(v => v.title).join(', ')}`] *)
Definition competitor_line (c : ChannelVideos) : Result jsstring :=
  let? name := ToString (channel c) in
  let? titles := titles_joined (videos c) in
  Ok (name ++ lit ": " ++ titles).

(** [`${s.subreddit}: ${s.posts.map(p => p.title).join(', ')}`] *)
Definition subreddit_line (s : SubredditPosts) : Result jsstring :=
  let? name := ToString (subreddit s) in
  let? titles := titles_joined (posts s) in
  Ok (name ++ lit ": " ++ titles).

Definition topVideoTitles (topVideos : list VideoResult) : Result jsstring :=
  titles_joined topVideos.

Definition competitorVideoTitles (competitorVideosData : list ChannelVideos)
  : Result jsstring :=
  let? lines := mapR competitor_line competitorVideosData in
  Ok (join (lit " | ") lines).

Definition redditPostTitles (redditPostsData : list SubredditPosts)
  : Result jsstring :=
  let? lines := mapR subreddit_line redditPostsData in
  Ok (join (lit " | ") lines).

(** The template literal, given the three joined sections. *)
Definition fill_template (v : Variant) (audience goal top competitors reddit
  : jsstring) : jsstring :=
  prompt_head v ++ audience
  ++ prompt_after_audience v ++ goal
  ++ prompt_after_goal v ++ or_placeholder v top
  ++ prompt_after_top_videos v ++ or_placeholder v competitors
  ++ prompt_after_competitors v ++ or_placeholder v reddit
  ++ prompt_tail v.

Definition masterPrompt (v : Variant) (audience goal : JVal)
  (topVideos : list VideoResult) (competitorVideosData : list ChannelVideos)
  (redditPostsData : list SubredditPosts) : Result jsstring :=
  let? top := topVideoTitles topVideos in
  let? competitors := competitorVideoTitles competitorVideosData in
  let? reddit := redditPostTitles redditPostsData in
  let? a := ToString audience in
  let? g := ToString goal in
  Ok (fill_template v a g top competitors reddit).

(* ------------------------------------------------------------------ *)
(** ** The serverless handler (lines 94-176 and 293-377) *)

(** [req]: the method and the parsed body, [undefined] when there is none. *)
Record IncomingRequest := { method : jsstring; body : JVal }.

(** [process.env] *)
Record Env := {
  YOUTUBE_API_KEY : option jsstring;
  REDDIT_CLIENT_ID : option jsstring;
  REDDIT_CLIENT_SECRET : option jsstring;
  OPENAI_API_KEY : option jsstring;
  GEMINI_API_KEY : option jsstring
}.

Definition llm_api_key (v : Variant) (env : Env) : option jsstring :=
  match v with
  | OpenAI => OPENAI_API_KEY env
  | Gemini => GEMINI_API_KEY env
  end.

(** An environment variable that passes [!X]: set and not empty. *)
Definition configured (x : option jsstring) : option jsstring :=
  match x with
  | Some (c :: s) => Some (c :: s)
  | _ => None
  end.

(** What was sent with [res.json(...)] or [res.end()].  [details] is
    [error.message]; the text of an error raised by the engine is not fixed
    by the language, so the error itself is kept. *)
Inductive Payload :=
| NoBody
| JsonBody (v : JVal)
| ErrorBody (error : jsstring) (details : option JsError).

Record Reply := {
  status : N;
  headers : list (jsstring * jsstring);
  payload : Payload
}.

(** [res.setHeader(name, value)] *)
Definition setHeader (name val : jsstring) (hs : list (jsstring * jsstring))
  : list (jsstring * jsstring) :=
  filter (fun h => negb (str_eqb (fst h) name)) hs ++ [(name, val)].

Definition cors_headers : list (jsstring * jsstring) :=
  setHeader (lit "Access-Control-Allow-Headers") (lit "Content-Type")
    (setHeader (lit "Access-Control-Allow-Methods") (lit "POST, OPTIONS")
       (setHeader (lit "Access-Control-Allow-Origin") (lit "*") [])).

Definition bad_request : Reply :=
  {| status := 400; headers := cors_headers;
     payload :=
       ErrorBody
         (lit "Invalid request body. Ensure all required fields are present.")
         None |}.

Definition configuration_error : Reply :=
  {| status := 500; headers := cors_headers;
     payload := ErrorBody (lit "Server configuration error.") None |}.

Definition internal_error (e : JsError) : Reply :=
  {| status := 500; headers := cors_headers;
     payload := ErrorBody (lit "An internal server error occurred.") (Some e) |}.

Definition success (answer : JVal) : Reply :=
  {| status := 200;
     headers := setHeader (lit "Content-Type") (lit "application/json")
                  cors_headers;
     payload := JsonBody answer |}.

(** [Promise.all(competitorYouTubeChannels.map(channel =>
      getChannelVideos(channel, KEY, 3).then(videos => ({ channel, videos }))))]:
    every channel is started, whatever happens to the others. *)
Definition collect_channels (apiKey : jsstring) (channels : list JVal)
  : M (list ChannelVideos) :=
  settled <- mapM (fun c =>
                     settle (vs <- getChannelVideos c apiKey 3 ;;
                             ret {| channel := c; videos := vs |}))
                  channels ;;
  liftR (Promise_all settled).

(** [Promise.all(relevantSubreddits.map(sub =>
      getSubredditPosts(sub.replace('r/',''), token, 3)
        .then(posts => ({ subreddit: sub, posts }))))]:
    [sub.replace] is evaluated by the callback of [map] itself, so a throw
    there ends the [map]. *)
Definition collect_subreddits (v : Variant) (token : JVal)
  (subreddits : list JVal) : M (list SubredditPosts) :=
  settled <- mapM (fun sub =>
                     name <- liftR (call_replace sub (lit "r/") []) ;;
                     settle (ps <- getSubredditPosts v name token 3 ;;
                             ret {| subreddit := sub; posts := ps |}))
                  subreddits ;;
  liftR (Promise_all settled).

(** [getRedditAccessToken(ID, SECRET).then(token => token ? ... : [])] *)
Definition collect_reddit (v : Variant) (clientId clientSecret : jsstring)
  (subreddits : list JVal) : M (list SubredditPosts) :=
  token <- getRedditAccessToken v clientId clientSecret ;;
  if truthy token then collect_subreddits v token subreddits else ret [].

(** The outer [Promise.all([...])] of lines 124-130: the three groups are
    started in this order and all run; the first rejection wins. *)
Definition collect (v : Variant) (query youtubeKey clientId clientSecret
  : jsstring) (channels subreddits : list JVal)
  : M (list VideoResult * list ChannelVideos * list SubredditPosts) :=
  top <- settle (searchYouTubeVideos query youtubeKey 3) ;;
  competitors <- settle (collect_channels youtubeKey channels) ;;
  reddit <- settle (collect_reddit v clientId clientSecret subreddits) ;;
  liftR (Promise_all3 top competitors reddit).

(** The body of the handler's [try], once the request is validated and the
    configuration read. *)
Definition run_pipeline (v : Variant) (audience goal : JVal)
  (channels subreddits : list JVal) (youtubeKey clientId clientSecret llmKey
  : jsstring) : M Reply :=
  a <- liftR (ToString audience) ;;
  g <- liftR (ToString goal) ;;
  data <- collect v (a ++ lit " " ++ g) youtubeKey clientId clientSecret
            channels subreddits ;;
  let '(topVideos, competitorVideosData, redditPostsData) := data in
  prompt <- liftR (masterPrompt v audience goal topVideos competitorVideosData
                     redditPostsData) ;;
  answer <- synthesize v prompt llmKey ;;
  ret (success answer).

Definition handler (v : Variant) (env : Env) (req : IncomingRequest) : M Reply :=
  if str_eqb (method req) (lit "OPTIONS")
  then ret {| status := 204; headers := cors_headers; payload := NoBody |}
  else if negb (str_eqb (method req) (lit "POST"))
  then ret {| status := 405; headers := cors_headers;
              payload := ErrorBody (lit "Method Not Allowed") None |}
  else
    try_catch
      (let b := js_or (body req) (JObj []) in
       audience <- liftR (get b (lit "audience")) ;;
       goal <- liftR (get b (lit "goal")) ;;
       competitorYouTubeChannels <-
         liftR (get b (lit "competitorYouTubeChannels")) ;;
       relevantSubreddits <- liftR (get b (lit "relevantSubreddits")) ;;
       if negb (truthy audience) || negb (truthy goal)
          || negb (Array_isArray competitorYouTubeChannels)
          || negb (Array_isArray relevantSubreddits)
       then ret bad_request
       else
         match configured (YOUTUBE_API_KEY env),
               configured (REDDIT_CLIENT_ID env),
               configured (REDDIT_CLIENT_SECRET env),
               configured (llm_api_key v env) with
         | Some youtubeKey, Some clientId, Some clientSecret, Some llmKey =>
             run_pipeline v audience goal
               (elements competitorYouTubeChannels)
               (elements relevantSubreddits)
               youtubeKey clientId clientSecret llmKey
         | _, _, _, _ => ret configuration_error
         end)
      (fun error => ret (internal_error error)).

End Handler.

(* ------------------------------------------------------------------ *)
(** ** Vocabulary of the properties *)

Section Vocabulary.
Context {num : JsNumbers} {codec : JsonCodec}.

Definition Routine_eqb (a b : Routine) : bool :=
  match a, b with
  | SearchYouTubeVideos, SearchYouTubeVideos
  | GetChannelVideos, GetChannelVideos
  | GetRedditAccessToken, GetRedditAccessToken
  | GetSubredditPosts, GetSubredditPosts
  | CallLLM, CallLLM => true
  | _, _ => false
  end.

Definition routine_of (e : Event) : Routine :=
  match e with
  | Invoke r => r
  | Fetch r _ _ => r
  end.

Definition is_invoke (r : Routine) (e : Event) : bool :=
  match e with
  | Invoke r' => Routine_eqb r r'
  | Fetch _ _ _ => false
  end.

Definition is_fetch (r : Routine) (e : Event) : bool :=
  match e with
  | Invoke _ => false
  | Fetch r' _ _ => Routine_eqb r r'
  end.

(** How many times routine [r] was entered, and how many HTTP requests it
    issued, in a log. *)
Definition invocations (r : Routine) (log : list Event) : nat :=
  List.length (filter (is_invoke r) log).

Definition fetches (r : Routine) (log : list Event) : nat :=
  List.length (filter (is_fetch r) log).

(** The field [k] as the handler destructures it from [req.body || {}]. *)
Definition field (b : JVal) (k : jsstring) : JVal :=
  match get (js_or b (JObj [])) k with
  | Ok x => x
  | Throw _ => JUndefined
  end.

Definition post (b : JVal) : IncomingRequest :=
  {| method := lit "POST"; body := b |}.

Definition is_string (v : JVal) : bool :=
  match v with
  | JStr _ => true
  | _ => false
  end.

(** A string without lone surrogates. *)
Definition well_formed (s : jsstring) : bool :=
  match code_points s with
  | Some _ => true
  | None => false
  end.

(** The StrategyRequest of the specification: two non-empty strings and two
    lists of strings. *)
Record StrategyRequest := {
  sr_audience : jsstring;
  sr_goal : jsstring;
  sr_channels : list jsstring;
  sr_subreddits : list jsstring
}.

Definition request_body (r : StrategyRequest) : JVal :=
  JObj [(lit "audience", JStr (sr_audience r));
        (lit "goal", JStr (sr_goal r));
        (lit "competitorYouTubeChannels", JArr (map JStr (sr_channels r)));
        (lit "relevantSubreddits", JArr (map JStr (sr_subreddits r)))].

Definition valid_request (r : StrategyRequest) : bool :=
  negb (str_eqb (sr_audience r) []) && negb (str_eqb (sr_goal r) []).

(** The four secrets the variant reads are set and not empty. *)
Definition secrets_present (v : Variant) (env : Env) : bool :=
  match configured (YOUTUBE_API_KEY env), configured (REDDIT_CLIENT_ID env),
        configured (REDDIT_CLIENT_SECRET env), configured (llm_api_key v env)
  with
  | Some _, Some _, Some _, Some _ => true
  | _, _, _, _ => false
  end.

(** The cached token would be served at the next reading of the clock. *)
Definition cache_valid (w : World) (st : State) : bool :=
  truthy (value (redditToken st))
  && Z.gtb (expires (redditToken st)) (clock w (ticks st)).

(** The access token an outcome of the credential exchange carries, if it
    carries one: the exchange succeeded. *)
Definition granted_token (o : Outcome) : option JVal :=
  match o with
  | NetworkError => None
  | Responds resp =>
      match json resp with
      | None => None
      | Some answer =>
          match get answer (lit "access_token") with
          | Ok t => if truthy t then Some t else None
          | Throw _ => None
          end
      end
  end.

Definition llm_request (v : Variant) : jsstring -> jsstring -> Request :=
  match v with
  | OpenAI => openai_request
  | Gemini => gemini_request
  end.

Definition llm_content (v : Variant) : JVal -> Result JVal :=
  match v with
  | OpenAI => openai_content
  | Gemini => gemini_content
  end.

(** The ways a completion call fails. *)
Inductive completion_fails (v : Variant) : Outcome -> Prop :=
| fails_network : completion_fails v NetworkError
| fails_status : forall resp,
    ok resp = false -> completion_fails v (Responds resp)
| fails_body : forall resp,
    json resp = None -> completion_fails v (Responds resp)
| fails_shape : forall resp data e,
    json resp = Some data -> llm_content v data = Throw e ->
    completion_fails v (Responds resp)
| fails_parse : forall resp data content e,
    json resp = Some data -> llm_content v data = Ok content ->
    JSON_parse content = Throw e ->
    completion_fails v (Responds resp).

(** A completion call that succeeds with [answer]. *)
Definition completion_is (v : Variant) (o : Outcome) (answer : JVal) : Prop :=
  exists resp data content,
    o = Responds resp /\ ok resp = true /\ json resp = Some data
    /\ llm_content v data = Ok content /\ JSON_parse content = Ok answer.

(** No object anywhere in the value has an own property [toString]; such
    a value always prints. *)
Fixpoint plain (v : JVal) : bool :=
  match v with
  | JArr elems => forallb plain elems
  | JObj props =>
      negb (has_own_property (lit "toString") props)
      && (fix each (l : list (jsstring * JVal)) : bool :=
            match l with
            | [] => true
            | (_, x) :: t => plain x && each t
            end) props
  | _ => true
  end.

Definition plain_outcome (o : Outcome) : bool :=
  match o with
  | NetworkError => true
  | Responds resp =>
      match json resp with
      | Some answer => plain answer
      | None => true
      end
  end.

(** Every answer of the upstream services prints. *)
Definition plain_world (w : World) : Prop :=
  forall history q, plain_outcome (respond w history q) = true.

(** The schema the prompt asks for: exactly the four keys, and a calendar of
    30 entries with the five keys each. *)
Definition has_keys (ks : list jsstring) (v : JVal) : bool :=
  match v with
  | JObj props =>
      Nat.eqb (List.length props) (List.length ks)
      && forallb (fun k => has_own_property k props) ks
  | _ => false
  end.

Definition calendar_entry (v : JVal) : bool :=
  has_keys [lit "day"; lit "platform"; lit "title"; lit "format";
            lit "description"] v.

Definition strategy_schema (v : JVal) : bool :=
  has_keys [lit "trendDiscovery"; lit "contentAnalysis";
            lit "competitorReport"; lit "strategyCalendar"] v
  && match get v (lit "strategyCalendar") with
     | Ok (JArr days) => Nat.eqb (List.length days) 30 && forallb calendar_entry days
     | _ => false
     end.

(** The state after some more events, the cache and the clock untouched. *)
Definition extend (st : State) (evs : list Event) : State :=
  {| redditToken := redditToken st;
     trace := trace st ++ evs;
     ticks := ticks st |}.

(** How many readings of the clock the cache test makes. *)
Definition readings_of_cache_test (st : State) : nat :=
  if truthy (value (redditToken st)) then 1 else 0.

(** What a run of a client looks like: the routine is entered once, then
    only issues requests of its own; the cache and the clock are untouched. *)
Definition client_run {A} (r : Routine) (m : M A) (w : World) (st : State)
  (result : Result A) : Prop :=
  exists fs,
    m w st = (result, extend st (Invoke r :: fs))
    /\ Forall (fun e => is_fetch r e = true) fs.

(** Every event of the log comes from routine [r]. *)
Definition only (r : Routine) (evs : list Event) : Prop :=
  Forall (fun e => routine_of e = r) evs.

(** The log holds a credential exchange that was answered with a token. *)
Definition token_granted_in (evs : list Event) : bool :=
  existsb (fun e =>
             match e with
             | Fetch GetRedditAccessToken _ o =>
                 match granted_token o with
                 | Some _ => true
                 | None => false
                 end
             | _ => false
             end) evs.

(** What one settled channel promise is, given its channel. *)
Definition channel_promise (w : World) (c : JVal) (r : Result ChannelVideos) : Prop :=
  (forall name, ToString c = Ok name ->
   exists vs, r = Ok {| channel := c; videos := vs |})
  /\ (forall cv, r = Ok cv ->
      channel cv = c
      /\ (plain_world w -> Forall (fun y => plain (title y) = true) (videos cv))).

(** What one settled subreddit promise is, given the token and the entry of
    the request. *)
Definition subreddit_promise (w : World) (token sub : JVal)
  (r : Result SubredditPosts) : Prop :=
  (forall bearer, ToString token = Ok bearer ->
   exists ps, r = Ok {| subreddit := sub; posts := ps |})
  /\ (forall sp, r = Ok sp ->
      subreddit sp = sub
      /\ (plain_world w -> Forall (fun y => plain (title y) = true) (posts sp))).

(** ToString does not throw on the value. *)
Definition printable (v : JVal) : Prop := exists s, ToString v = Ok s.

(** The titles of a list of results all print. *)
Definition plain_titles (l : list VideoResult) : Prop :=
  Forall (fun y => plain (title y) = true) l.

(** What the data collection of one valid request did and returned: the
    events of the keyword search, of the channels, of the credential
    exchange and of the subreddits, in the order of the model, and the
    three settled groups. *)
Inductive Collected (v : Variant) (clientId clientSecret : jsstring)
  (w : World) (st : State) (query : jsstring)
  (channels subreddits : list jsstring)
  (top : Result (list VideoResult)) (competitors : Result (list ChannelVideos))
  (reddit : Result (list SubredditPosts)) (st' : State) : Prop :=
| collected (search_events channel_events exchange_events posts_events : list Event)
    (collected_trace :
       trace st' = trace st ++ search_events ++ channel_events
                   ++ Invoke GetRedditAccessToken :: exchange_events
                   ++ posts_events)
    (search_only : only SearchYouTubeVideos search_events)
    (search_once : invocations SearchYouTubeVideos search_events = 1)
    (search_settles : well_formed query = true -> exists l, top = Ok l)
    (search_plain : plain_world w -> forall l, top = Ok l -> plain_titles l)
    (channels_only : only GetChannelVideos channel_events)
    (channels_count :
       invocations GetChannelVideos channel_events = List.length channels)
    (channels_settle : exists data, competitors = Ok data)
    (channels_kept :
       forall data, competitors = Ok data ->
       map channel data = map JStr channels
       /\ (plain_world w -> Forall (fun cv => plain_titles (videos cv)) data))
    (exchange_shape :
       exchange_events = []
       \/ exists history,
            exchange_events
            = [Fetch GetRedditAccessToken (token_request v clientId clientSecret)
                 (respond w history (token_request v clientId clientSecret))])
    (exchange_skipped : cache_valid w st = true -> exchange_events = [])
    (exchange_made : cache_valid w st = false -> exchange_events <> [])
    (posts_only : only GetSubredditPosts posts_events)
    (posts_count :
       invocations GetSubredditPosts posts_events
       = (if cache_valid w st || token_granted_in exchange_events
          then List.length subreddits else 0))
    (reddit_unavailable :
       cache_valid w st = false -> token_granted_in exchange_events = false ->
       reddit = Ok [] /\ posts_events = [])
    (reddit_settles :
       plain_world w -> plain (value (redditToken st)) = true ->
       exists data, reddit = Ok data)
    (reddit_kept :
       forall data, reddit = Ok data ->
       Forall (fun sp => is_string (subreddit sp) = true) data
       /\ (plain_world w -> Forall (fun sp => plain_titles (posts sp)) data)).

(** An entry of the collected data whose name and titles print. *)
Definition printable_channel (cv : ChannelVideos) : Prop :=
  printable (channel cv) /\ plain_titles (videos cv).

Definition printable_subreddit (sp : SubredditPosts) : Prop :=
  printable (subreddit sp) /\ plain_titles (posts sp).

(** The counts of a log the specification speaks of, for a request with
    [channels] channels and [subreddits] subreddits handled from a state
    where the cached token is valid or not ([cached]). *)
Record fan_out (cached : bool) (channels subreddits : nat) (evs : list Event)
  : Prop := {
  one_keyword_search : invocations SearchYouTubeVideos evs = 1;
  one_fetch_per_channel : invocations GetChannelVideos evs = channels;
  one_token_lookup : invocations GetRedditAccessToken evs = 1;
  at_most_one_exchange : fetches GetRedditAccessToken evs <= 1;
  no_exchange_when_cached :
    cached = true -> fetches GetRedditAccessToken evs = 0;
  one_exchange_otherwise :
    cached = false -> fetches GetRedditAccessToken evs = 1;
  one_fetch_per_subreddit_with_a_token :
    invocations GetSubredditPosts evs
    = (if cached || token_granted_in evs then subreddits else 0)
}.

(** Whatever [m] does, the events it adds to the log all satisfy [P]. *)
Definition emits (P : Event -> Prop) {A} (m : M A) : Prop :=
  forall w st, exists evs,
    trace (snd (m w st)) = trace st ++ evs /\ Forall P evs.

(** An event of the data collection, not of the synthesis. *)
Definition before_synthesis (e : Event) : Prop := routine_of e <> CallLLM.

(** Every request of the log was answered, with a success status and a
    JSON body. *)
Definition all_calls_succeeded (evs : list Event) : bool :=
  forallb (fun e =>
             match e with
             | Invoke _ => true
             | Fetch _ _ NetworkError => false
             | Fetch _ _ (Responds resp) =>
                 ok resp && match json resp with
                            | Some _ => true
                            | None => false
                            end
             end) evs.

(** A character that delimits the parts of a URL: [&], [=], [?], [#], [/],
    the space and [+]. *)
Definition url_delimiter (c : N) : bool :=
  existsb (N.eqb c) [38; 61; 63; 35; 47; 32; 43]%N.

(** The HTTP requests of a log, whoever issued them. *)
Definition requests (evs : list Event) : nat :=
  List.length (filter (fun e => match e with
                                | Invoke _ => false
                                | Fetch _ _ _ => true
                                end) evs).

(** Whatever the world answers, [m] issues at most [n] requests. *)
Definition spends (n : nat) {A} (m : M A) : Prop :=
  forall w st, exists evs,
    trace (snd (m w st)) = trace st ++ evs /\ requests evs <= n.

(** Whatever the world answers, a value [m] returns satisfies [Q] and an
    error it throws satisfies [P]. *)
Definition ensures {A} (Q : A -> Prop) (P : JsError -> Prop) (m : M A) : Prop :=
  forall w st,
    match fst (m w st) with
    | Ok a => Q a
    | Throw e => P e
    end.

(** A settled promise that fulfils with [Q] or rejects with [P]. *)
Definition settled_with {A} (Q : A -> Prop) (P : JsError -> Prop)
  (r : Result A) : Prop :=
  match r with
  | Ok a => Q a
  | Throw e => P e
  end.

(** The errors that reach the [catch] of the handler. *)
Definition escapes (v : Variant) (e : JsError) : Prop :=
  e = TypeError \/ e = URIError \/ e = Error (synthesis_failure v).

(** The replies of the handler. *)
Inductive handler_reply (v : Variant) : Reply -> Prop :=
| reply_preflight :
    handler_reply v {| status := 204; headers := cors_headers; payload := NoBody |}
| reply_method :
    handler_reply v {| status := 405; headers := cors_headers;
                       payload := ErrorBody (lit "Method Not Allowed") None |}
| reply_bad_request : handler_reply v bad_request
| reply_configuration : handler_reply v configuration_error
| reply_internal : forall e, escapes v e -> handler_reply v (internal_error e)
| reply_success : forall answer, handler_reply v (success answer).

(** The cache as the code leaves it: still the initial one, or holding a
    truthy token. *)
Definition cache_ok (c : TokenCache) : Prop :=
  c = redditToken_initial \/ truthy (value c) = true.

(** [m] keeps a property of the token cache. *)
Definition keeps (I : TokenCache -> Prop) {A} (m : M A) : Prop :=
  forall w st, I (redditToken st) -> I (redditToken (snd (m w st))).

(** The request was not answered with a JSON body. *)
Definition unanswered (o : Outcome) : Prop :=
  o = NetworkError \/ exists resp, o = Responds resp /\ json resp = None.

(** The body of the handler's [try] passes the validation of lines 112 and
    313. *)
Definition passes_validation (b : JVal) : bool :=
  truthy (field b (lit "audience")) && truthy (field b (lit "goal"))
  && Array_isArray (field b (lit "competitorYouTubeChannels"))
  && Array_isArray (field b (lit "relevantSubreddits")).

End Vocabulary.

(* ------------------------------------------------------------------ *)
(** ** A concrete runtime for the examples: integers for numbers, and a
    codec that knows a handful of JSON texts *)

Definition Z_to_js (z : Z) : jsstring :=
  lit (NilZero.string_of_int (Z.to_int z)).

Definition integer_numbers : JsNumbers :=
  {| number := Z;
     number_truthy := fun z => negb (Z.eqb z 0);
     number_is_zero := fun z => Z.eqb z 0;
     number_to_string := Z_to_js |}.

(** Agrees with [JSON.parse] on the texts it accepts; every other text used
    in the examples is not JSON. *)
Definition sample_parse (text : jsstring) : option (@JVal integer_numbers) :=
  if str_eqb text (lit "{}") then Some (JObj [])
  else if str_eqb text (lit "[]") then Some (JArr [])
  else if str_eqb text (lit "null") then Some JNull
  else if str_eqb text (lit "true") then Some (JBool true)
  else if str_eqb text (lit "false") then Some (JBool false)
  else if str_eqb text (lit "0") then Some (@JNum integer_numbers 0%Z)
  else None.

Definition quote_unit (u : N) : jsstring :=
  if N.eqb u 34 then lit "\" ++ [34%N]
  else if N.eqb u 92 then lit "\\"
  else if N.eqb u 10 then lit "\n"
  else if N.eqb u 13 then lit "\r"
  else if N.eqb u 9 then lit "\t"
  else if N.eqb u 8 then lit "\b"
  else if N.eqb u 12 then lit "\f"
  else if N.ltb u 32 then lit "\u00" ++ [hex_digit (u / 16); hex_digit (u mod 16)]
  else [u].

(** [JSON.stringify] on the values the program serialises: objects, arrays
    and strings without lone surrogates. *)
Fixpoint sample_stringify (v : @JVal integer_numbers) : jsstring :=
  match v with
  | JUndefined | JNull => lit "null"
  | JBool true => lit "true"
  | JBool false => lit "false"
  | JNum z => Z_to_js z
  | JStr s => [34%N] ++ flat_map quote_unit s ++ [34%N]
  | JArr elems =>
      lit "[" ++ join (lit ",") (map sample_stringify elems) ++ lit "]"
  | JObj props =>
      lit "{"
      ++ join (lit ",")
           ((fix each (l : list (jsstring * @JVal integer_numbers))
               : list jsstring :=
               match l with
               | [] => []
               | (k, x) :: t =>
                   ([34%N] ++ flat_map quote_unit k ++ [34%N] ++ lit ":"
                    ++ sample_stringify x) :: each t
               end) props)
      ++ lit "}"
  end.

Definition sample_codec : @JsonCodec integer_numbers :=
  {| JSON_parse_text := sample_parse; JSON_stringify := sample_stringify |}.

(* ------------------------------------------------------------------ *)
(** ** Sample requests and worlds for the examples *)

Section Samples.
#[local] Existing Instance integer_numbers.
#[local] Existing Instance sample_codec.

Definition sample_env : Env :=
  {| YOUTUBE_API_KEY := Some (lit "yt-key");
     REDDIT_CLIENT_ID := Some (lit "id");
     REDDIT_CLIENT_SECRET := Some (lit "secret");
     OPENAI_API_KEY := Some (lit "sk-test");
     GEMINI_API_KEY := Some (lit "g-key") |}.

(** The end-to-end request of the specification. *)
Definition spec_request : StrategyRequest :=
  {| sr_audience := lit "fitness beginners";
     sr_goal := lit "grow a YouTube channel";
     sr_channels := [lit "Athlean-X"];
     sr_subreddits := [lit "r/fitness"] |}.

(** Nothing answers. *)
Definition offline : World :=
  {| respond := fun _ _ => NetworkError; clock := fun _ => 0%Z |}.

Definition youtube_answer : JVal :=
  JObj [(lit "items",
         JArr [JObj [(lit "id", JObj [(lit "channelId", JStr (lit "UC-1"))]);
                     (lit "snippet",
                      JObj [(lit "title", JStr (lit "Full body workout"))])]])].

Definition token_answer : JVal :=
  JObj [(lit "access_token", JStr (lit "token-1"));
        (lit "token_type", JStr (lit "bearer"))].

Definition reddit_answer : JVal :=
  JObj [(lit "data",
         JObj [(lit "children",
                JArr [JObj [(lit "data",
                             JObj [(lit "title",
                                    JStr (lit "Daily simple questions"))])]])])].

Definition openai_answer (content : jsstring) : JVal :=
  JObj [(lit "choices",
         JArr [JObj [(lit "message", JObj [(lit "content", JStr content)])]])].

Definition gemini_answer (content : jsstring) : JVal :=
  JObj [(lit "candidates",
         JArr [JObj [(lit "content",
                      JObj [(lit "parts",
                             JArr [JObj [(lit "text", JStr content)]])])]])].

(** Every service answers in its documented shape, with status [success];
    the completion is the text [content]. *)
Definition answer_of (success : bool) (content : jsstring) (q : Request)
  : Outcome :=
  let reply b :=
    Responds {| ok := success;
                statusText := if success then lit "OK" else lit "Forbidden";
                json := Some b |} in
  if str_eqb (req_url q) reddit_token_url then reply token_answer
  else if str_eqb (req_url q) (lit "https://api.openai.com/v1/chat/completions")
  then reply (openai_answer content)
  else
    match strip_prefix (lit "https://oauth.reddit.com/r/") (req_url q) with
    | Some _ => reply reddit_answer
    | None =>
        match strip_prefix (lit "https://generativelanguage.googleapis.com/")
                (req_url q) with
        | Some _ => reply (gemini_answer content)
        | None => reply youtube_answer
        end
    end.

Definition healthy (content : jsstring) : World :=
  {| respond := fun _ q => answer_of true content q;
     clock := fun n => (1000 * Z.of_nat n)%Z |}.

(** The same bodies, sent with a non-OK status. *)
Definition refusing : World :=
  {| respond := fun _ q => answer_of false (lit "{}") q;
     clock := fun _ => 0%Z |}.

(** A state whose cached token is valid until time 5000. *)
Definition warm_state : State :=
  {| redditToken := {| value := JStr (lit "token-0"); expires := 5000 |};
     trace := [];
     ticks := 0 |}.

(** The search answers, and finds nothing. *)
Definition finds_nothing : World :=
  {| respond := fun _ _ =>
                  Responds {| ok := true; statusText := lit "OK";
                              json := Some (JObj [(lit "items", JArr [])]) |};
     clock := fun _ => 0%Z |}.



End Samples.

(* ================================================================== *)
(** * Properties *)

Unset Implicit Arguments.

(** ** Sanity checks of the string primitives *)

Example encodeURIComponent_ascii :
  encodeURIComponent (lit "fitness beginners grow a YouTube channel")
  = Ok (lit "fitness%20beginners%20grow%20a%20YouTube%20channel").
Proof. reflexivity. Qed.

Example encodeURIComponent_eacute :
  encodeURIComponent [233%N; 47%N] = Ok (lit "%C3%A9%2F").
Proof. reflexivity. Qed.

Example encodeURIComponent_lone : encodeURIComponent [55296%N] = Throw URIError.
Proof. reflexivity. Qed.

Example base64_id_secret : Buffer_base64 (lit "id:secret") = lit "aWQ6c2VjcmV0".
Proof. reflexivity. Qed.

Example base64_pad : Buffer_base64 (lit "ab") = lit "YWI=".
Proof. reflexivity. Qed.

Example replace_first_sub :
  replace_first (lit "r/") [] (lit "r/fitness") = lit "fitness"
  /\ replace_first (lit "r/") [] (lit "for/r/x") = lit "for/x".
Proof. split; reflexivity. Qed.

(* ------------------------------------------------------------------ *)
(** ** Validation of the request body *)

Section Validation.
Context {num : JsNumbers} {codec : JsonCodec}.

Lemma get_body_or_empty (b : JVal) (k : jsstring) :
  get (js_or b (JObj [])) k = Ok (field b k).
Proof.
  unfold field.
  destruct (get (js_or b (JObj [])) k) eqn:E; [reflexivity|].
  exfalso. unfold js_or in E.
  destruct b; simpl in E; try discriminate.
  - destruct b; discriminate.
  - destruct (number_truthy n); discriminate.
  - destruct (negb (str_eqb s [])); discriminate.
  - destruct (own_property k props); discriminate.
Qed.

Lemma method_post_not_options : str_eqb (lit "POST") (lit "OPTIONS") = false.
Proof. reflexivity. Qed.

Lemma method_post_is_post : str_eqb (lit "POST") (lit "POST") = true.
Proof. reflexivity. Qed.

(** The handler on a POST, with the four destructured fields named. *)
Lemma handler_post (v : Variant) (env : Env) (b : JVal) (w : World) (st : State) :
  handler v env (post b) w st =
  try_catch
    (if negb (truthy (field b (lit "audience")))
        || negb (truthy (field b (lit "goal")))
        || negb (Array_isArray (field b (lit "competitorYouTubeChannels")))
        || negb (Array_isArray (field b (lit "relevantSubreddits")))
     then ret bad_request
     else
       match configured (YOUTUBE_API_KEY env),
             configured (REDDIT_CLIENT_ID env),
             configured (REDDIT_CLIENT_SECRET env),
             configured (llm_api_key v env) with
       | Some youtubeKey, Some clientId, Some clientSecret, Some llmKey =>
           run_pipeline v (field b (lit "audience")) (field b (lit "goal"))
             (elements (field b (lit "competitorYouTubeChannels")))
             (elements (field b (lit "relevantSubreddits")))
             youtubeKey clientId clientSecret llmKey
       | _, _, _, _ => ret configuration_error
       end)
    (fun error => ret (internal_error error)) w st.
Proof.
  unfold handler, post; cbn [method body].
  rewrite method_post_not_options, method_post_is_post; cbn [negb].
  unfold try_catch, bind, liftR.
  rewrite !get_body_or_empty. reflexivity.
Qed.

Lemma handler_rejects (v : Variant) (env : Env) (b : JVal) (w : World) (st : State) :
  negb (truthy (field b (lit "audience")))
  || negb (truthy (field b (lit "goal")))
  || negb (Array_isArray (field b (lit "competitorYouTubeChannels")))
  || negb (Array_isArray (field b (lit "relevantSubreddits"))) = true ->
  handler v env (post b) w st = (Ok bad_request, st).
Proof.
  intros H. rewrite handler_post. unfold try_catch. rewrite H. reflexivity.
Qed.

(** An [OPTIONS] request is the preflight: 204, the three CORS headers, no
    body, whatever the request carries; any other method than [POST] is
    answered 405.  Neither touches the state. *)
Lemma preflight_and_other_methods (v : Variant) (env : Env) (req : IncomingRequest)
  (w : World) (st : State) :
  (str_eqb (method req) (lit "OPTIONS") = true ->
   handler v env req w st
   = (Ok {| status := 204; headers := cors_headers; payload := NoBody |}, st))
  /\ (str_eqb (method req) (lit "OPTIONS") = false ->
      str_eqb (method req) (lit "POST") = false ->
      handler v env req w st
      = (Ok {| status := 405; headers := cors_headers;
               payload := ErrorBody (lit "Method Not Allowed") None |}, st)).
Proof.
  unfold handler. split.
  - intros E. rewrite E. reflexivity.
  - intros E1 E2. rewrite E1, E2. reflexivity.
Qed.

(** C2.  A POST whose body lacks [audience] or [goal], or whose
    [competitorYouTubeChannels] or [relevantSubreddits] is not an array, is
    answered 400, and the state is the one before the call: the log has no
    new event, so no upstream request of any kind was issued. *)
Theorem invalid_body_is_rejected_without_upstream_calls
  (v : Variant) (env : Env) (b : JVal) (w : World) (st : State) :
  field b (lit "audience") = JUndefined
  \/ field b (lit "goal") = JUndefined
  \/ Array_isArray (field b (lit "competitorYouTubeChannels")) = false
  \/ Array_isArray (field b (lit "relevantSubreddits")) = false ->
  handler v env (post b) w st = (Ok bad_request, st)
  /\ status bad_request = 400%N.
Proof.
  intros H. split; [|reflexivity].
  apply handler_rejects.
  destruct H as [H | [H | [H | H]]]; rewrite H; cbn [truthy negb orb];
    rewrite ?orb_true_r; reflexivity.
Qed.

(** C10.  Validation tests truthiness: a POST whose [audience] or [goal] is
    present but falsy (the empty string, [0], [false], [null]), and a POST
    with no body at all, is answered 400; the handler returns normally and
    leaves the state as it was. *)
Theorem falsy_fields_and_missing_body_are_rejected
  (v : Variant) (env : Env) (b : JVal) (w : World) (st : State) :
  truthy (field b (lit "audience")) = false
  \/ truthy (field b (lit "goal")) = false
  \/ b = JUndefined ->
  handler v env (post b) w st = (Ok bad_request, st)
  /\ status bad_request = 400%N.
Proof.
  intros H. split; [|reflexivity].
  apply handler_rejects.
  destruct H as [H | [H | H]].
  - rewrite H. reflexivity.
  - rewrite H. cbn [negb]. rewrite orb_true_r. reflexivity.
  - subst b. reflexivity.
Qed.

End Validation.

(* ------------------------------------------------------------------ *)
(** ** The token cache *)

Section TokenCache.
Context {num : JsNumbers} {codec : JsonCodec}.

Lemma getRedditAccessToken_cached (v : Variant) (clientId clientSecret : jsstring)
  (w : World) (st : State) :
  cache_valid w st = true ->
  getRedditAccessToken v clientId clientSecret w st =
  (Ok (value (redditToken st)),
   {| redditToken := redditToken st;
      trace := trace st ++ [Invoke GetRedditAccessToken];
      ticks := S (ticks st) |}).
Proof.
  unfold cache_valid. intros H. apply andb_prop in H. destruct H as [Hv He].
  unfold getRedditAccessToken, bind, log, get_redditToken, cached_token_valid.
  cbn [redditToken trace ticks]. rewrite Hv.
  unfold bind, Date_now, ret. cbn [redditToken trace ticks].
  rewrite He. reflexivity.
Qed.

(** The exchange, once the cache test has failed: exactly one request, and
    the cache is written only when the answer carries a token. *)
Lemma getRedditAccessToken_exchange (v : Variant) (clientId clientSecret : jsstring)
  (w : World) (st : State) :
  cache_valid w st = false ->
  let q := token_request v clientId clientSecret in
  let o := respond w (trace st ++ [Invoke GetRedditAccessToken]) q in
  let n := ticks st + readings_of_cache_test st in
  let log' := trace st ++ [Invoke GetRedditAccessToken; Fetch GetRedditAccessToken q o] in
  getRedditAccessToken v clientId clientSecret w st =
  match granted_token o with
  | Some token =>
      (Ok token,
       {| redditToken := {| value := token;
                            expires := clock w n + token_validity |};
          trace := log';
          ticks := S n |})
  | None =>
      (Ok JNull,
       {| redditToken := redditToken st; trace := log'; ticks := n |})
  end.
Proof.
  unfold cache_valid, readings_of_cache_test. intros H. cbv zeta.
  unfold getRedditAccessToken, bind, log, get_redditToken, cached_token_valid.
  cbn [redditToken trace ticks].
  assert (E : (if truthy (value (redditToken st))
               then bind Date_now (fun now => ret (Z.gtb (expires (redditToken st)) now))
               else ret false) w
                {| redditToken := redditToken st;
                   trace := trace st ++ [Invoke GetRedditAccessToken];
                   ticks := ticks st |}
              = (Ok false,
                 {| redditToken := redditToken st;
                    trace := trace st ++ [Invoke GetRedditAccessToken];
                    ticks := ticks st
                             + (if truthy (value (redditToken st)) then 1 else 0) |})).
  { destruct (truthy (value (redditToken st))); cbn [andb] in H.
    - unfold bind, Date_now, ret. cbn [redditToken trace ticks]. rewrite H.
      rewrite Nat.add_1_r. reflexivity.
    - unfold ret. rewrite Nat.add_0_r. reflexivity. }
  rewrite E. clear E.
  unfold try_catch, bind, fetch. cbn [redditToken trace ticks].
  rewrite <- app_assoc. cbn [app].
  unfold granted_token.
  destruct (respond w (trace st ++ [Invoke GetRedditAccessToken])
              (token_request v clientId clientSecret)) as [|resp];
    [reflexivity|].
  unfold response_json. destruct (json resp) as [answer|]; [|reflexivity].
  unfold ret, liftR. cbn [redditToken trace ticks].
  destruct (get answer (lit "access_token")) as [t|e]; [|reflexivity].
  destruct (truthy t); cbn [negb]; [|reflexivity].
  unfold bind, Date_now, set_redditToken, get_redditToken, ret.
  cbn [redditToken trace ticks value]. reflexivity.
Qed.

End TokenCache.

(* ------------------------------------------------------------------ *)
(** ** Values that print *)

Section Printing.
Context {num : JsNumbers} {codec : JsonCodec}.

(** Induction on values, with the hypotheses for the elements of an array
    and the properties of an object. *)
Lemma JVal_induction (P : JVal -> Prop) :
  P JUndefined -> P JNull -> (forall b, P (JBool b)) -> (forall n, P (JNum n)) ->
  (forall s, P (JStr s)) ->
  (forall elems, Forall P elems -> P (JArr elems)) ->
  (forall props, Forall (fun kv => P (snd kv)) props -> P (JObj props)) ->
  forall v, P v.
Proof.
  intros Hu Hn Hb Hnum Hs Ha Ho.
  fix IH 1. intros v. destruct v as [| |b|n|s|elems|props].
  - exact Hu.
  - exact Hn.
  - apply Hb.
  - apply Hnum.
  - apply Hs.
  - apply Ha. induction elems as [|x t IHt]; constructor; [apply IH | exact IHt].
  - apply Ho. induction props as [|[k x] t IHt]; constructor;
      [apply IH | exact IHt].
Qed.

Lemma ToString_array (elems : list JVal) :
  ToString (JArr elems) = Array_join (lit ",") elems.
Proof.
  unfold Array_join. cbn [ToString]. f_equal.
  induction elems as [|x t IHt]; [reflexivity|].
  cbn [mapR]. rewrite IHt. reflexivity.
Qed.

Lemma plain_object (props : list (jsstring * JVal)) :
  plain (JObj props) = true ->
  has_own_property (lit "toString") props = false
  /\ Forall (fun kv => plain (snd kv) = true) props.
Proof.
  cbn [plain]. intros H. apply andb_prop in H. destruct H as [H1 H2].
  split; [destruct (has_own_property (lit "toString") props); [discriminate|reflexivity]|].
  clear H1. induction props as [|[k x] t IHt]; [constructor|].
  apply andb_prop in H2. destruct H2 as [Hx Ht].
  constructor; [exact Hx | exact (IHt Ht)].
Qed.

Lemma plain_array (elems : list JVal) :
  plain (JArr elems) = true -> Forall (fun x => plain x = true) elems.
Proof.
  cbn [plain]. intros H. apply Forall_forall. intros x Hx.
  rewrite forallb_forall in H. exact (H x Hx).
Qed.

Lemma own_property_plain (k : jsstring) (props : list (jsstring * JVal)) (x : JVal) :
  Forall (fun kv => plain (snd kv) = true) props ->
  own_property k props = Some x -> plain x = true.
Proof.
  induction 1 as [|[k' y] t Hy Ht IHt]; cbn [own_property]; [discriminate|].
  destruct (str_eqb k k'); [intros E; inversion E; subst; exact Hy | exact IHt].
Qed.

Lemma get_plain (v : JVal) (k : jsstring) (x : JVal) :
  plain v = true -> get v k = Ok x -> plain x = true.
Proof.
  destruct v as [| |b|n|s|elems|props]; cbn [get]; intros Hp E;
    try discriminate; try (inversion E; reflexivity).
  destruct (plain_object _ Hp) as [_ Hall].
  destruct (own_property k props) as [y|] eqn:Ey; inversion E; subst;
    [eapply own_property_plain; eassumption | reflexivity].
Qed.

Lemma get_first_plain (v x : JVal) :
  plain v = true -> get_first v = Ok x -> plain x = true.
Proof.
  destruct v as [| |b|n|s|elems|props]; cbn [get_first]; intros Hp E;
    try discriminate; try (inversion E; reflexivity).
  - destruct s; inversion E; reflexivity.
  - destruct elems as [|y t]; inversion E; subst; [reflexivity|].
    pose proof (plain_array _ Hp) as Hall. inversion Hall; assumption.
  - destruct (plain_object _ Hp) as [_ Hall].
    destruct (own_property (lit "0") props) as [y|] eqn:Ey; inversion E; subst;
      [eapply own_property_plain; eassumption | reflexivity].
Qed.

(** A plain value prints: ToString does not throw on it. *)
Lemma plain_ToString (v : JVal) :
  plain v = true -> exists s, ToString v = Ok s.
Proof.
  induction v as [| |b|n|s|elems IH|props IH] using JVal_induction; intros Hp.
  - eexists; reflexivity.
  - eexists; reflexivity.
  - destruct b; eexists; reflexivity.
  - eexists; reflexivity.
  - eexists; reflexivity.
  - rewrite ToString_array. unfold Array_join.
    pose proof (plain_array _ Hp) as Hall. clear Hp.
    assert (E : exists parts,
               mapR (fun x => if nullish x then Ok [] else ToString x) elems
               = Ok parts).
    { induction elems as [|x t IHt]; [eexists; reflexivity|].
      inversion IH as [|? ? Hx Ht]; subst. inversion Hall as [|? ? Px Pt]; subst.
      destruct (IHt Ht Pt) as [parts Eparts]. cbn [mapR]. rewrite Eparts.
      destruct (nullish x); [eexists; reflexivity|].
      destruct (Hx Px) as [s Es]. rewrite Es. eexists; reflexivity. }
    destruct E as [parts E]. rewrite E. eexists; reflexivity.
  - destruct (plain_object _ Hp) as [Hts _]. cbn [ToString]. rewrite Hts.
    eexists; reflexivity.
Qed.

Lemma Array_join_plain (sep : jsstring) (elems : list JVal) :
  Forall (fun x => plain x = true) elems ->
  exists s, Array_join sep elems = Ok s.
Proof.
  intros Hall. unfold Array_join.
  assert (E : exists parts,
             mapR (fun x => if nullish x then Ok [] else ToString x) elems
             = Ok parts).
  { induction Hall as [|x t Px Pt IHt]; [eexists; reflexivity|].
    destruct IHt as [parts Eparts]. cbn [mapR]. rewrite Eparts.
    destruct (nullish x); [eexists; reflexivity|].
    destruct (plain_ToString _ Px) as [s Es]. rewrite Es. eexists; reflexivity. }
  destruct E as [parts E]. rewrite E. eexists; reflexivity.
Qed.

End Printing.

(* ------------------------------------------------------------------ *)
(** ** What each client does to the log, and when it settles *)

Section ClientRuns.
Context {num : JsNumbers} {codec : JsonCodec}.

Lemma extend_extend (st : State) (a b : list Event) :
  extend (extend st a) b = extend st (a ++ b).
Proof. unfold extend. cbn [redditToken trace ticks]. rewrite app_assoc. reflexivity. Qed.

Lemma log_run (e : Event) (w : World) (st : State) :
  log e w st = (Ok tt, extend st [e]).
Proof. reflexivity. Qed.

Lemma fetch_run (r : Routine) (q : Request) (w : World) (st : State) :
  fetch r q w st =
  (match respond w (trace st) q with
   | NetworkError => Throw FetchFailed
   | Responds resp => Ok resp
   end,
   extend st [Fetch r q (respond w (trace st) q)]).
Proof. unfold fetch, extend. destruct (respond w (trace st) q); reflexivity. Qed.

Lemma mapR_Forall {A B} (P : A -> Prop) (Q : B -> Prop) (f : A -> Result B) :
  (forall x y, P x -> f x = Ok y -> Q y) ->
  forall l l', Forall P l -> mapR f l = Ok l' -> Forall Q l'.
Proof.
  intros Hf l. induction l as [|x t IHt]; intros l' Hall E; cbn [mapR] in E.
  - inversion E. constructor.
  - inversion Hall as [|? ? Px Pt]; subst.
    destruct (f x) as [y|] eqn:Ey; cbn [rbind] in E; [|discriminate].
    destruct (mapR f t) as [ys|] eqn:Eys; cbn [rbind] in E; [|discriminate].
    inversion E; subst. constructor; [exact (Hf _ _ Px Ey) | exact (IHt _ Pt eq_refl)].
Qed.

Lemma optional_map_plain (v : JVal) (f : JVal -> Result VideoResult)
  (l : option (list VideoResult)) :
  (forall x y, plain x = true -> f x = Ok y -> plain (title y) = true) ->
  plain v = true -> optional_map v f = Ok l ->
  Forall (fun y => plain (title y) = true) (or_empty l).
Proof.
  intros Hf Hp. unfold optional_map.
  destruct (nullish v); [intros E; inversion E; constructor|].
  destruct v as [| |b|n|s|elems|props]; cbn [call_map rbind]; try discriminate.
  destruct (mapR f elems) as [ys|] eqn:E; cbn [rbind]; [|discriminate].
  intros E'. inversion E'; subst. cbn [or_empty].
  apply mapR_Forall with (P := fun x => plain x = true) (f := f) (l := elems);
    [exact Hf | exact (plain_array _ Hp) | exact E].
Qed.

Lemma video_of_item_plain (item : JVal) (y : VideoResult) :
  plain item = true -> video_of_item item = Ok y -> plain (title y) = true.
Proof.
  intros Hp. unfold video_of_item.
  destruct (get item (lit "snippet")) as [snippet|] eqn:E1; cbn [rbind]; [|discriminate].
  destruct (get snippet (lit "title")) as [t|] eqn:E2; cbn [rbind]; [|discriminate].
  intros E. inversion E; subst. cbn [title].
  eapply get_plain; [eapply get_plain; eassumption | eassumption].
Qed.

Lemma post_of_child_plain (child : JVal) (y : VideoResult) :
  plain child = true -> post_of_child child = Ok y -> plain (title y) = true.
Proof.
  intros Hp. unfold post_of_child.
  destruct (get child (lit "data")) as [d|] eqn:E1; cbn [rbind]; [|discriminate].
  destruct (get d (lit "title")) as [t|] eqn:E2; cbn [rbind]; [|discriminate].
  intros E. inversion E; subst. cbn [title].
  eapply get_plain; [eapply get_plain; eassumption | eassumption].
Qed.

Lemma items_videos_plain (data : JVal) (l : list VideoResult) :
  plain data = true -> items_videos data = Ok l ->
  Forall (fun y => plain (title y) = true) l.
Proof.
  intros Hp. unfold items_videos.
  destruct (get data (lit "items")) as [items|] eqn:E1; cbn [rbind]; [|discriminate].
  destruct (optional_map items video_of_item) as [mapped|] eqn:E2; cbn [rbind];
    [|discriminate].
  intros E. inversion E; subst.
  eapply optional_map_plain;
    [exact video_of_item_plain | eapply get_plain; eassumption | exact E2].
Qed.

Lemma children_posts_plain (response : JVal) (l : list VideoResult) :
  plain response = true -> children_posts response = Ok l ->
  Forall (fun y => plain (title y) = true) l.
Proof.
  intros Hp. unfold children_posts.
  destruct (get response (lit "data")) as [data|] eqn:E1; cbn [rbind]; [|discriminate].
  destruct (nullish data); [intros E; inversion E; constructor|].
  destruct (get data (lit "children")) as [children|] eqn:E2; cbn [rbind];
    [|discriminate].
  destruct (optional_map children post_of_child) as [mapped|] eqn:E3; cbn [rbind];
    [|discriminate].
  intros E. inversion E; subst.
  eapply optional_map_plain; [exact post_of_child_plain | | exact E3].
  eapply get_plain; [eapply get_plain; eassumption | eassumption].
Qed.

Lemma plain_world_json (w : World) (history : list Event) (q : Request)
  (resp : Response) (data : JVal) :
  plain_world w -> respond w history q = Responds resp -> json resp = Some data ->
  plain data = true.
Proof.
  intros Hw Eo Ej. specialize (Hw history q). rewrite Eo in Hw.
  cbn [plain_outcome] in Hw. rewrite Ej in Hw. exact Hw.
Qed.

Lemma searchYouTubeVideos_run (query apiKey : jsstring) (n : N) (w : World)
  (st : State) :
  exists result,
    client_run SearchYouTubeVideos (searchYouTubeVideos query apiKey n) w st result
    /\ (well_formed query = true -> exists l, result = Ok l)
    /\ (plain_world w -> forall l, result = Ok l ->
        Forall (fun y => plain (title y) = true) l).
Proof.
  unfold client_run, searchYouTubeVideos, bind. rewrite log_run.
  unfold liftR, well_formed, encodeURIComponent.
  destruct (code_points query) as [cps|].
  2:{ eexists. split; [exists []; split; [reflexivity|constructor]|].
      split; [discriminate|]. intros _ l E; discriminate. }
  unfold try_catch, bind. rewrite fetch_run, extend_extend. cbn [app].
  cbn [trace extend].
  set (q := http_get _ _).
  destruct (respond w (trace st ++ [Invoke SearchYouTubeVideos]) q) as [|resp] eqn:Eo.
  { eexists. split; [eexists; split; [reflexivity|repeat constructor]|].
    split; [eexists; reflexivity|]. intros _ l E. inversion E. constructor. }
  destruct (ok resp); cbn [negb].
  2:{ eexists. split; [eexists; split; [reflexivity|repeat constructor]|].
      split; [eexists; reflexivity|]. intros _ l E. inversion E. constructor. }
  unfold response_json. destruct (json resp) as [data|] eqn:Ej.
  2:{ eexists. split; [eexists; split; [reflexivity|repeat constructor]|].
      split; [eexists; reflexivity|]. intros _ l E. inversion E. constructor. }
  unfold ret, liftR.
  destruct (items_videos data) as [l0|] eqn:El.
  2:{ eexists. split; [eexists; split; [reflexivity|repeat constructor]|].
      split; [eexists; reflexivity|]. intros _ l E. inversion E. constructor. }
  eexists. split; [eexists; split; [reflexivity|repeat constructor]|].
  split; [eexists; reflexivity|]. intros Hw l E. inversion E; subst.
  eapply items_videos_plain; [eapply plain_world_json; eassumption | exact El].
Qed.

(** One more case of the scrutinee the goal is stuck on. *)
Ltac next_case :=
  match goal with
  | |- context [match ?x with _ => _ end] =>
      lazymatch x with
      | context [match _ with _ => _ end] => fail
      | _ => destruct x eqn:?
      end
  end.

Ltac run_ops :=
  unfold try_catch, bind, liftR, ret, throw, response_json, fetch, log, extend;
  cbv zeta; cbn [trace redditToken ticks negb rbind].

Ltac close_run :=
  eexists; split;
  [ eexists; split;
    [ unfold extend; cbn [trace redditToken ticks];
      rewrite <- ?app_assoc; cbn [app]; reflexivity
    | repeat constructor ]
  | ].

Ltac solve_plain_titles :=
  match goal with
  | |- Forall _ [] => constructor
  | _ => eapply items_videos_plain;
         [eapply plain_world_json; eassumption | eassumption]
  | _ => eapply children_posts_plain;
         [eapply plain_world_json; eassumption | eassumption]
  end.

Lemma getChannelVideos_run (c : JVal) (apiKey : jsstring) (n : N) (w : World)
  (st : State) :
  exists result,
    client_run GetChannelVideos (getChannelVideos c apiKey n) w st result
    /\ (forall name, ToString c = Ok name -> exists l, result = Ok l)
    /\ (plain_world w -> forall l, result = Ok l ->
        Forall (fun y => plain (title y) = true) l).
Proof.
  unfold client_run, getChannelVideos. run_ops.
  destruct (ToString c) as [name|e] eqn:Ename.
  2:{ close_run. split; [intros ? E; discriminate | intros _ l E; discriminate]. }
  repeat (next_case; run_ops; rewrite ?Ename);
    (close_run; split;
     [ intros; eexists; reflexivity
     | intros Hw l E; inversion E; subst; solve_plain_titles ]).
Qed.
Lemma getSubredditPosts_run (v : Variant) (name : jsstring) (token : JVal)
  (n : N) (w : World) (st : State) :
  exists result,
    client_run GetSubredditPosts (getSubredditPosts v name token n) w st result
    /\ (forall bearer, ToString token = Ok bearer -> exists l, result = Ok l)
    /\ (plain_world w -> forall l, result = Ok l ->
        Forall (fun y => plain (title y) = true) l).
Proof.
  unfold client_run, getSubredditPosts. run_ops.
  destruct (ToString token) as [bearer|e] eqn:Ebearer.
  2:{ close_run. split; [intros ? E; discriminate | intros _ l E; discriminate]. }
  repeat (next_case; run_ops);
    (close_run; split;
     [ intros; eexists; reflexivity
     | intros Hw l E; inversion E; subst; solve_plain_titles ]).
Qed.

(** A channel name that matches nothing: one request, an empty list. *)
Lemma getChannelVideos_no_match (c : JVal) (apiKey : jsstring) (n : N)
  (w : World) (st : State) (name q : jsstring) (resp : Response)
  (data items : JVal) :
  ToString c = Ok name -> encodeURIComponent name = Ok q ->
  let search := http_get (youtube_search_url ++ lit "&q=" ++ q
                          ++ lit "&type=channel&maxResults=1&key=" ++ apiKey) [] in
  respond w (trace st ++ [Invoke GetChannelVideos]) search = Responds resp ->
  json resp = Some data -> get data (lit "items") = Ok items ->
  no_channel_match items = true ->
  getChannelVideos c apiKey n w st =
  (Ok [], extend st [Invoke GetChannelVideos;
                     Fetch GetChannelVideos search (Responds resp)]).
Proof.
  intros Ename Eq search Eo Ej Ei Em. subst search.
  unfold getChannelVideos. run_ops.
  rewrite Ename, Eq, Eo. run_ops. rewrite Ej. run_ops. rewrite Ei, Em. run_ops.
  rewrite <- app_assoc. reflexivity.
Qed.

(** The synthesis call: always exactly one request; it returns the parsed
    completion or throws the one normalized error. *)
Lemma synthesize_run (v : Variant) (prompt apiKey : jsstring) (w : World)
  (st : State) :
  let q := llm_request v prompt apiKey in
  let o := respond w (trace st ++ [Invoke CallLLM]) q in
  exists result,
    synthesize v prompt apiKey w st
    = (result, extend st [Invoke CallLLM; Fetch CallLLM q o])
    /\ (completion_fails v o -> result = Throw (Error (synthesis_failure v)))
    /\ (forall answer, completion_is v o answer -> result = Ok answer)
    /\ (forall e, result = Throw e -> e = Error (synthesis_failure v)).
Proof.
  cbv zeta.
  destruct v; cbn [synthesize llm_request synthesis_failure];
    unfold callOpenAI_API, callGeminiAPI; run_ops; unfold rbind;
    repeat (next_case; run_ops);
    repeat match goal with
           | H : negb _ = true |- _ => apply negb_true_iff in H
           | H : negb _ = false |- _ => apply negb_false_iff in H
           end;
    (eexists; split;
     [ unfold extend; cbn [trace redditToken ticks];
       rewrite <- ?app_assoc; cbn [app]; reflexivity
     | split; [|split];
       [ intros Hf; try reflexivity; inversion Hf; subst;
         cbn [llm_content] in *; congruence
       | intros answer (resp' & data' & content' & E1 & E2 & E3 & E4 & E5);
         cbn [llm_content] in *; congruence
       | intros e' E'; congruence ] ]).
Qed.
End ClientRuns.

(* ------------------------------------------------------------------ *)
(** ** Counting the events of a log *)

Section Counting.
Context {num : JsNumbers} {codec : JsonCodec}.

Lemma extend_nil (st : State) : extend st [] = st.
Proof. destruct st. unfold extend. cbn [redditToken trace ticks]. rewrite app_nil_r. reflexivity. Qed.

Lemma invocations_app (r : Routine) (a b : list Event) :
  invocations r (a ++ b) = invocations r a + invocations r b.
Proof. unfold invocations. rewrite filter_app, length_app. reflexivity. Qed.

Lemma fetches_app (r : Routine) (a b : list Event) :
  fetches r (a ++ b) = fetches r a + fetches r b.
Proof. unfold fetches. rewrite filter_app, length_app. reflexivity. Qed.

Lemma Routine_eqb_eq (a b : Routine) : Routine_eqb a b = true <-> a = b.
Proof. destruct a, b; cbn; split; intros H; try reflexivity; discriminate. Qed.

Lemma Routine_eqb_refl (a : Routine) : Routine_eqb a a = true.
Proof. destruct a; reflexivity. Qed.

Lemma only_app (r : Routine) (a b : list Event) :
  only r a -> only r b -> only r (a ++ b).
Proof. unfold only. intros Ha Hb. apply Forall_app. split; assumption. Qed.

Lemma only_other_invocations (r r' : Routine) (evs : list Event) :
  only r evs -> r' <> r -> invocations r' evs = 0.
Proof.
  unfold only, invocations. intros H Hne.
  induction H as [|e t He Ht IHt]; [reflexivity|].
  cbn [filter]. destruct e as [r0|r0 q o]; cbn [routine_of is_invoke] in *.
  - subst r0. destruct (Routine_eqb r' r) eqn:E; [|exact IHt].
    apply Routine_eqb_eq in E. contradiction.
  - exact IHt.
Qed.

Lemma only_other_fetches (r r' : Routine) (evs : list Event) :
  only r evs -> r' <> r -> fetches r' evs = 0.
Proof.
  unfold only, fetches. intros H Hne.
  induction H as [|e t He Ht IHt]; [reflexivity|].
  cbn [filter]. destruct e as [r0|r0 q o]; cbn [routine_of is_fetch] in *.
  - exact IHt.
  - subst r0. destruct (Routine_eqb r' r) eqn:E; [|exact IHt].
    apply Routine_eqb_eq in E. contradiction.
Qed.

Lemma only_other_token_granted (r : Routine) (evs : list Event) :
  only r evs -> r <> GetRedditAccessToken -> token_granted_in evs = false.
Proof.
  unfold only, token_granted_in. intros H Hne.
  induction H as [|e t He Ht IHt]; [reflexivity|].
  cbn [existsb]. rewrite IHt. rewrite orb_false_r.
  destruct e as [r0|r0 q o]; [reflexivity|]. cbn [routine_of] in He. subst r0.
  destruct r; try reflexivity. contradiction.
Qed.

Lemma token_granted_in_app (a b : list Event) :
  token_granted_in (a ++ b) = token_granted_in a || token_granted_in b.
Proof. unfold token_granted_in. apply existsb_app. Qed.

(** The events of one run of a client. *)
Lemma client_events (r : Routine) (fs : list Event) :
  Forall (fun e => is_fetch r e = true) fs ->
  only r (Invoke r :: fs) /\ invocations r (Invoke r :: fs) = 1.
Proof.
  intros H. split.
  - constructor; [reflexivity|].
    apply Forall_forall. intros e He. rewrite Forall_forall in H.
    specialize (H e He). destruct e as [r0|r0 q o]; [discriminate|].
    cbn [is_fetch] in H. apply Routine_eqb_eq in H. subst. reflexivity.
  - unfold invocations. cbn [filter is_invoke]. rewrite Routine_eqb_refl.
    cbn [List.length]. f_equal.
    induction H as [|e t He Ht IHt]; [reflexivity|].
    cbn [filter]. destruct e as [r0|r0 q o]; [discriminate|exact IHt].
Qed.

End Counting.

(* ------------------------------------------------------------------ *)
(** ** The three groups of the data collection *)

Section Collection.
Context {num : JsNumbers} {codec : JsonCodec}.

Lemma settle_run {A} (m : M A) (w : World) (st : State) (r : Result A) (st' : State) :
  m w st = (r, st') -> settle m w st = (Ok r, st').
Proof. unfold settle. intros E. rewrite E. reflexivity. Qed.

Lemma bind_run {A B} (m : M A) (k : A -> M B) (w : World) (st : State)
  (r : Result A) (st' : State) :
  m w st = (r, st') ->
  bind m k w st = match r with
                  | Ok a => k a w st'
                  | Throw e => (Throw e, st')
                  end.
Proof. unfold bind. intros E. rewrite E. reflexivity. Qed.

Lemma Promise_all_cons {A} (r : Result A) (rs : list (Result A)) :
  Promise_all (r :: rs) =
  match r with
  | Ok a => match Promise_all rs with
            | Ok l => Ok (a :: l)
            | Throw e => Throw e
            end
  | Throw e => Throw e
  end.
Proof. unfold Promise_all. cbn [mapR]. destruct r; reflexivity. Qed.

Lemma settled_channel_run (apiKey : jsstring) (c : JVal) (w : World) (st : State) :
  exists r fs,
    settle (bind (getChannelVideos c apiKey 3)
              (fun vs => ret {| channel := c; videos := vs |})) w st
    = (Ok r, extend st (Invoke GetChannelVideos :: fs))
    /\ Forall (fun e => is_fetch GetChannelVideos e = true) fs
    /\ channel_promise w c r.
Proof.
  destruct (getChannelVideos_run c apiKey 3 w st)
    as (r & (fs & Erun & Hfs) & Hok & Hplain).
  unfold settle, bind. rewrite Erun.
  destruct r as [vs|e]; eexists; exists fs; (split; [reflexivity|]);
    (split; [exact Hfs|]); split.
  - intros; eexists; reflexivity.
  - intros cv Ecv. inversion Ecv; subst. cbn [channel videos].
    split; [reflexivity|]. intros Hw. exact (Hplain Hw vs eq_refl).
  - intros name Ename. destruct (Hok name Ename) as [l El]. discriminate.
  - intros cv Ecv. discriminate.
Qed.

Lemma settle_channels_run (apiKey : jsstring) (channels : list JVal) (w : World) :
  forall st, exists settled evs,
    mapM (fun c => settle (bind (getChannelVideos c apiKey 3)
                             (fun vs => ret {| channel := c; videos := vs |})))
         channels w st
    = (Ok settled, extend st evs)
    /\ only GetChannelVideos evs
    /\ invocations GetChannelVideos evs = List.length channels
    /\ Forall2 (channel_promise w) channels settled.
Proof.
  induction channels as [|c t IHt]; intros st.
  - exists [], []. cbn [mapM]. unfold ret. rewrite extend_nil.
    repeat split; constructor.
  - destruct (settled_channel_run apiKey c w st) as (r & fs & Erun & Hfs & Hr).
    destruct (client_events _ _ Hfs) as [Honly Hcount].
    destruct (IHt (extend st (Invoke GetChannelVideos :: fs)))
      as (settled & evs & Erest & Honly' & Hcount' & Hall).
    exists (r :: settled), ((Invoke GetChannelVideos :: fs) ++ evs).
    split; [|split; [|split]].
    + cbn [mapM]. unfold bind at 1. rewrite Erun. cbn iota beta.
      unfold bind at 1. rewrite Erest. cbn iota beta.
      unfold ret. rewrite extend_extend. reflexivity.
    + apply only_app; assumption.
    + rewrite invocations_app, Hcount, Hcount'. reflexivity.
    + constructor; assumption.
Qed.

Lemma Promise_all_channels (w : World) (channels : list JVal)
  (settled : list (Result ChannelVideos)) :
  Forall2 (channel_promise w) channels settled ->
  (Forall printable channels -> exists data, Promise_all settled = Ok data)
  /\ (forall data, Promise_all settled = Ok data ->
      map channel data = channels
      /\ (plain_world w ->
          Forall (fun cv => Forall (fun y => plain (title y) = true) (videos cv))
                 data)).
Proof.
  induction 1 as [|c r cs rs [Hok Hcv] Hall [IHok IHdata]].
  - split; [intros _; exists []; reflexivity|].
    intros data E. inversion E; subst. split; [reflexivity|constructor].
  - rewrite Promise_all_cons. split.
    + intros Hp. inversion Hp as [|? ? [name Ename] Hps]; subst.
      destruct (Hok name Ename) as [vs Er]. subst r.
      destruct (IHok Hps) as [data Edata]. rewrite Edata. eexists; reflexivity.
    + intros data E. destruct r as [cv|e]; [|discriminate].
      destruct (Promise_all rs) as [l|e]; [|discriminate].
      inversion E; subst. destruct (Hcv cv eq_refl) as [Hc Hplain].
      destruct (IHdata l eq_refl) as [Hmap Hrest].
      split; [cbn [map]; rewrite Hc, Hmap; reflexivity|].
      intros Hw. constructor; [exact (Hplain Hw) | exact (Hrest Hw)].
Qed.

Lemma collect_channels_run (apiKey : jsstring) (channels : list JVal)
  (w : World) (st : State) :
  exists result evs,
    collect_channels apiKey channels w st = (result, extend st evs)
    /\ only GetChannelVideos evs
    /\ invocations GetChannelVideos evs = List.length channels
    /\ (Forall printable channels -> exists data, result = Ok data)
    /\ (forall data, result = Ok data ->
        map channel data = channels
        /\ (plain_world w ->
            Forall (fun cv => Forall (fun y => plain (title y) = true) (videos cv))
                   data)).
Proof.
  destruct (settle_channels_run apiKey channels w st)
    as (settled & evs & Erun & Honly & Hcount & Hall).
  destruct (Promise_all_channels _ _ _ Hall) as [Hok Hdata].
  exists (Promise_all settled), evs.
  split; [|split; [exact Honly | split; [exact Hcount | split; [exact Hok | exact Hdata]]]].
  unfold collect_channels. unfold bind at 1. rewrite Erun. reflexivity.
Qed.

Lemma settled_subreddit_run (v : Variant) (token : JVal) (name : jsstring)
  (w : World) (st : State) :
  exists r fs,
    bind (liftR (call_replace (JStr name) (lit "r/") []))
      (fun n => settle (bind (getSubredditPosts v n token 3)
                          (fun ps => ret {| subreddit := JStr name; posts := ps |})))
      w st
    = (Ok r, extend st (Invoke GetSubredditPosts :: fs))
    /\ Forall (fun e => is_fetch GetSubredditPosts e = true) fs
    /\ subreddit_promise w token (JStr name) r.
Proof.
  destruct (getSubredditPosts_run v (replace_first (lit "r/") [] name) token 3 w st)
    as (r & (fs & Erun & Hfs) & Hok & Hplain).
  unfold bind at 1. unfold liftR. cbn [call_replace].
  unfold settle, bind. rewrite Erun.
  destruct r as [ps|e]; eexists; exists fs; (split; [reflexivity|]);
    (split; [exact Hfs|]); split.
  - intros; eexists; reflexivity.
  - intros sp Esp. inversion Esp; subst. cbn [subreddit posts].
    split; [reflexivity|]. intros Hw. exact (Hplain Hw ps eq_refl).
  - intros bearer Eb. destruct (Hok bearer Eb) as [l El]. discriminate.
  - intros sp Esp. discriminate.
Qed.

Lemma settle_subreddits_run (v : Variant) (token : JVal) (names : list jsstring)
  (w : World) :
  forall st, exists settled evs,
    mapM (fun sub =>
            bind (liftR (call_replace sub (lit "r/") []))
              (fun n => settle (bind (getSubredditPosts v n token 3)
                                  (fun ps => ret {| subreddit := sub; posts := ps |}))))
         (map JStr names) w st
    = (Ok settled, extend st evs)
    /\ only GetSubredditPosts evs
    /\ invocations GetSubredditPosts evs = List.length names
    /\ Forall2 (subreddit_promise w token) (map JStr names) settled.
Proof.
  induction names as [|name t IHt]; intros st.
  - exists [], []. cbn [map mapM]. unfold ret. rewrite extend_nil.
    repeat split; constructor.
  - destruct (settled_subreddit_run v token name w st) as (r & fs & Erun & Hfs & Hr).
    destruct (client_events _ _ Hfs) as [Honly Hcount].
    destruct (IHt (extend st (Invoke GetSubredditPosts :: fs)))
      as (settled & evs & Erest & Honly' & Hcount' & Hall).
    exists (r :: settled), ((Invoke GetSubredditPosts :: fs) ++ evs).
    split; [|split; [|split]].
    + cbn [map mapM]. unfold bind at 1. rewrite Erun. cbn iota beta.
      unfold bind at 1. rewrite Erest. cbn iota beta.
      unfold ret. rewrite extend_extend. reflexivity.
    + apply only_app; assumption.
    + rewrite invocations_app, Hcount, Hcount'. reflexivity.
    + constructor; assumption.
Qed.

Lemma Promise_all_subreddits (w : World) (token : JVal) (subs : list JVal)
  (settled : list (Result SubredditPosts)) :
  Forall2 (subreddit_promise w token) subs settled ->
  (printable token -> exists data, Promise_all settled = Ok data)
  /\ (forall data, Promise_all settled = Ok data ->
      map subreddit data = subs
      /\ (plain_world w ->
          Forall (fun sp => Forall (fun y => plain (title y) = true) (posts sp))
                 data)).
Proof.
  induction 1 as [|s r ss rs [Hok Hsp] Hall [IHok IHdata]].
  - split; [intros _; exists []; reflexivity|].
    intros data E. inversion E; subst. split; [reflexivity|constructor].
  - rewrite Promise_all_cons. split.
    + intros [bearer Eb].
      destruct (Hok bearer Eb) as [ps Er]. subst r.
      destruct (IHok (ex_intro _ bearer Eb)) as [data Edata]. rewrite Edata.
      eexists; reflexivity.
    + intros data E. destruct r as [sp|e]; [|discriminate].
      destruct (Promise_all rs) as [l|e]; [|discriminate].
      inversion E; subst. destruct (Hsp sp eq_refl) as [Hs Hplain].
      destruct (IHdata l eq_refl) as [Hmap Hrest].
      split; [cbn [map]; rewrite Hs, Hmap; reflexivity|].
      intros Hw. constructor; [exact (Hplain Hw) | exact (Hrest Hw)].
Qed.

Lemma collect_subreddits_run (v : Variant) (token : JVal) (names : list jsstring)
  (w : World) (st : State) :
  exists result evs,
    collect_subreddits v token (map JStr names) w st = (result, extend st evs)
    /\ only GetSubredditPosts evs
    /\ invocations GetSubredditPosts evs = List.length names
    /\ (printable token -> exists data, result = Ok data)
    /\ (forall data, result = Ok data ->
        map subreddit data = map JStr names
        /\ (plain_world w ->
            Forall (fun sp => Forall (fun y => plain (title y) = true) (posts sp))
                   data)).
Proof.
  destruct (settle_subreddits_run v token names w st)
    as (settled & evs & Erun & Honly & Hcount & Hall).
  destruct (Promise_all_subreddits _ _ _ _ Hall) as [Hok Hdata].
  exists (Promise_all settled), evs.
  split; [|split; [exact Honly | split; [exact Hcount | split; [exact Hok | exact Hdata]]]].
  unfold collect_subreddits. unfold bind at 1. rewrite Erun. reflexivity.
Qed.

Lemma granted_token_truthy (o : Outcome) (token : JVal) :
  granted_token o = Some token -> truthy token = true.
Proof.
  unfold granted_token. destruct o as [|resp]; [discriminate|].
  destruct (json resp) as [answer|]; [|discriminate].
  destruct (get answer (lit "access_token")) as [t|e]; [|discriminate].
  destruct (truthy t) eqn:E; [|discriminate].
  intros H. inversion H; subst. exact E.
Qed.

Lemma granted_token_plain (w : World) (history : list Event) (q : Request)
  (token : JVal) :
  plain_world w -> granted_token (respond w history q) = Some token ->
  plain token = true.
Proof.
  intros Hw. unfold granted_token.
  destruct (respond w history q) as [|resp] eqn:Eo; [discriminate|].
  destruct (json resp) as [answer|] eqn:Ej; [|discriminate].
  destruct (get answer (lit "access_token")) as [t|e] eqn:Eg; [|discriminate].
  destruct (truthy t); [|discriminate].
  intros H. inversion H; subst.
  eapply get_plain; [eapply plain_world_json; eassumption | exact Eg].
Qed.

Lemma cache_valid_extend (w : World) (st : State) (evs : list Event) :
  cache_valid w (extend st evs) = cache_valid w st.
Proof. reflexivity. Qed.

(** The Reddit group: the token routine once, at most one exchange, and the
    subreddits only when a token came back. *)
Lemma collect_reddit_run (v : Variant) (clientId clientSecret : jsstring)
  (names : list jsstring) (w : World) (st : State) :
  exists result st' exchange posts_events,
    collect_reddit v clientId clientSecret (map JStr names) w st = (result, st')
    /\ trace st' = trace st ++ Invoke GetRedditAccessToken :: exchange ++ posts_events
    /\ (exchange = []
        \/ exchange = [Fetch GetRedditAccessToken
                         (token_request v clientId clientSecret)
                         (respond w (trace st ++ [Invoke GetRedditAccessToken])
                            (token_request v clientId clientSecret))])
    /\ (cache_valid w st = true -> exchange = [])
    /\ (cache_valid w st = false -> exchange <> [])
    /\ only GetSubredditPosts posts_events
    /\ invocations GetSubredditPosts posts_events
       = (if cache_valid w st || token_granted_in exchange
          then List.length names else 0)
    /\ (cache_valid w st = false -> token_granted_in exchange = false ->
        result = Ok [] /\ posts_events = [])
    /\ (plain_world w -> plain (value (redditToken st)) = true ->
        exists data, result = Ok data)
    /\ (forall data, result = Ok data ->
        Forall (fun sp => is_string (subreddit sp) = true) data
        /\ (plain_world w ->
            Forall (fun sp => Forall (fun y => plain (title y) = true) (posts sp))
                   data)).
Proof.
  assert (Hstrings : forall data : list SubredditPosts,
             map subreddit data = map JStr names ->
             Forall (fun sp => is_string (subreddit sp) = true) data).
  { intros data. revert names. induction data as [|sp t IHt]; intros [|n ns] E;
      try discriminate; [constructor|].
    cbn [map] in E. inversion E as [[E1 E2]]. constructor; [rewrite E1; reflexivity|].
    exact (IHt ns E2). }
  unfold collect_reddit.
  destruct (cache_valid w st) eqn:Ecache.
  - (* the cached token is served *)
    unfold bind at 1. rewrite (getRedditAccessToken_cached _ _ _ _ _ Ecache).
    cbn iota beta.
    pose proof Ecache as Hv. unfold cache_valid in Hv. apply andb_prop in Hv.
    destruct Hv as [Hv _]. rewrite Hv.
    set (st1 := {| redditToken := redditToken st;
                   trace := trace st ++ [Invoke GetRedditAccessToken];
                   ticks := S (ticks st) |}).
    destruct (collect_subreddits_run v (value (redditToken st)) names w st1)
      as (result & evs & Erun & Honly & Hcount & Hok & Hdata).
    exists result, (extend st1 evs), [], evs. rewrite Erun.
    split; [reflexivity|].
    split; [unfold extend, st1; cbn [trace app]; rewrite <- app_assoc; reflexivity|].
    split; [left; reflexivity|]. split; [reflexivity|]. split; [discriminate|].
    split; [exact Honly|]. split; [exact Hcount|]. split; [discriminate|].
    split.
    + intros Hw Hp. apply Hok. apply plain_ToString. exact Hp.
    + intros data E. destruct (Hdata data E) as [Hmap Hplain].
      split; [exact (Hstrings _ Hmap) | exact Hplain].
  - (* the exchange *)
    unfold bind at 1.
    rewrite (getRedditAccessToken_exchange v clientId clientSecret w st Ecache).
    cbv zeta.
    set (q := token_request v clientId clientSecret).
    set (o := respond w (trace st ++ [Invoke GetRedditAccessToken]) q).
    destruct (granted_token o) as [token|] eqn:Egrant.
    + cbn iota beta. rewrite (granted_token_truthy _ _ Egrant).
      match goal with
      | |- context [collect_subreddits v token (map JStr names) w ?s] =>
          set (st1 := s)
      end.
      destruct (collect_subreddits_run v token names w st1)
        as (result & evs & Erun & Honly & Hcount & Hok & Hdata).
      exists result, (extend st1 evs), [Fetch GetRedditAccessToken q o], evs.
      rewrite Erun. split; [reflexivity|].
      split; [unfold extend, st1; cbn [trace app]; rewrite <- app_assoc; reflexivity|].
      split; [right; reflexivity|]. split; [discriminate|].
      split; [intros _; discriminate|].
      split; [exact Honly|].
      split; [cbn [token_granted_in existsb orb]; rewrite Egrant; exact Hcount|].
      split; [intros _; cbn [token_granted_in existsb]; rewrite Egrant; discriminate|].
      split.
      * intros Hw _. apply Hok. apply plain_ToString.
        exact (granted_token_plain _ _ _ _ Hw Egrant).
      * intros data E. destruct (Hdata data E) as [Hmap Hplain].
        split; [exact (Hstrings _ Hmap) | exact Hplain].
    + cbn iota beta. cbn [truthy]. unfold ret.
      eexists; eexists; exists [Fetch GetRedditAccessToken q o], [].
      split; [reflexivity|].
      split; [cbn [trace app]; reflexivity|].
      split; [right; reflexivity|]. split; [discriminate|].
      split; [intros _; discriminate|].
      split; [constructor|].
      split; [cbn [token_granted_in existsb orb]; rewrite Egrant; reflexivity|].
      split; [intros _ _; split; reflexivity|].
      split; [intros _ _; eexists; reflexivity|].
      intros data E. inversion E; subst. split; [constructor|intros _; constructor].
Qed.

Lemma strings_printable (names : list jsstring) : Forall printable (map JStr names).
Proof.
  induction names as [|n t IHt]; constructor; [eexists; reflexivity | exact IHt].
Qed.

Lemma collect_run (v : Variant) (query youtubeKey clientId clientSecret : jsstring)
  (channels subreddits : list jsstring) (w : World) (st : State) :
  exists top competitors reddit st',
    collect v query youtubeKey clientId clientSecret
      (map JStr channels) (map JStr subreddits) w st
    = (Promise_all3 top competitors reddit, st')
    /\ Collected v clientId clientSecret w st query channels subreddits
         top competitors reddit st'.
Proof.
  destruct (searchYouTubeVideos_run query youtubeKey 3 w st)
    as (top & (fs & E1 & Hfs) & Htop & Htop_plain).
  destruct (client_events _ _ Hfs) as [Honly1 Hcount1].
  set (e1 := Invoke SearchYouTubeVideos :: fs) in *.
  destruct (collect_channels_run youtubeKey (map JStr channels) w (extend st e1))
    as (competitors & e2 & E2 & Honly2 & Hcount2 & Hcomp & Hcomp_kept).
  rewrite extend_extend in E2.
  destruct (collect_reddit_run v clientId clientSecret subreddits w
              (extend st (e1 ++ e2)))
    as (reddit & st' & ex & e3 & E3 & Htrace & Hshape & Hskip & Hmade & Honly3
        & Hcount3 & Hunavailable & Hreddit & Hreddit_kept).
  rewrite cache_valid_extend in *.
  exists top, competitors, reddit, st'. split.
  - unfold collect. unfold bind at 1. rewrite (settle_run _ _ _ _ _ E1).
    cbn iota beta. unfold bind at 1. rewrite (settle_run _ _ _ _ _ E2).
    cbn iota beta. unfold bind at 1. rewrite (settle_run _ _ _ _ _ E3).
    cbn iota beta. reflexivity.
  - apply collected with (search_events := e1) (channel_events := e2)
                         (exchange_events := ex) (posts_events := e3).
    + rewrite Htrace. cbn [extend trace]. rewrite <- !app_assoc. reflexivity.
    + exact Honly1.
    + exact Hcount1.
    + exact Htop.
    + exact Htop_plain.
    + exact Honly2.
    + rewrite Hcount2. apply length_map.
    + apply Hcomp. apply strings_printable.
    + exact Hcomp_kept.
    + destruct Hshape as [H|H]; [left; exact H|right; eexists; exact H].
    + exact Hskip.
    + exact Hmade.
    + exact Honly3.
    + exact Hcount3.
    + exact Hunavailable.
    + exact Hreddit.
    + exact Hreddit_kept.
Qed.

End Collection.

(* ------------------------------------------------------------------ *)
(** ** The prompt *)

Section Prompt.
Context {num : JsNumbers} {codec : JsonCodec}.

Lemma titles_joined_settles (vs : list VideoResult) :
  plain_titles vs -> exists s, titles_joined vs = Ok s.
Proof.
  intros H. unfold titles_joined. apply Array_join_plain.
  induction H as [|y t Hy Ht IHt]; constructor; assumption.
Qed.

Lemma join_nonempty (sep : jsstring) (p : jsstring) (rest : list jsstring) :
  p <> [] -> join sep (p :: rest) <> [].
Proof.
  intros Hp. cbn [join]. destruct rest as [|p' rest']; [exact Hp|].
  destruct p as [|c p0]; [contradiction|]. cbn [app]. discriminate.
Qed.

Lemma competitor_line_settles (cv : ChannelVideos) :
  printable_channel cv -> exists s, competitor_line cv = Ok s /\ s <> [].
Proof.
  intros [[name Ename] Htitles]. unfold competitor_line. rewrite Ename.
  destruct (titles_joined_settles _ Htitles) as [ts Ets]. rewrite Ets.
  cbn [rbind]. eexists. split; [reflexivity|].
  intros E. apply app_eq_nil in E. destruct E as [_ E]. discriminate.
Qed.

Lemma subreddit_line_settles (sp : SubredditPosts) :
  printable_subreddit sp -> exists s, subreddit_line sp = Ok s /\ s <> [].
Proof.
  intros [[name Ename] Htitles]. unfold subreddit_line. rewrite Ename.
  destruct (titles_joined_settles _ Htitles) as [ts Ets]. rewrite Ets.
  cbn [rbind]. eexists. split; [reflexivity|].
  intros E. apply app_eq_nil in E. destruct E as [_ E]. discriminate.
Qed.

Lemma lines_settle {A} (line : A -> Result jsstring) (P : A -> Prop)
  (data : list A) :
  (forall x, P x -> exists s, line x = Ok s /\ s <> []) ->
  Forall P data ->
  exists lines, mapR line data = Ok lines
                /\ Forall (fun s => s <> []) lines
                /\ List.length lines = List.length data.
Proof.
  intros Hline H. induction H as [|x t Hx Ht IHt].
  - exists []. repeat split; constructor.
  - destruct (Hline x Hx) as (s & Es & Hs). destruct IHt as (lines & El & Hl & Hlen).
    exists (s :: lines). cbn [mapR]. rewrite Es, El. cbn [rbind].
    split; [reflexivity|]. split; [constructor; assumption|].
    cbn [List.length]. rewrite Hlen. reflexivity.
Qed.

(** The joined lines of a section: empty exactly when there is no entry. *)
Lemma section_settles {A} (line : A -> Result jsstring) (P : A -> Prop)
  (data : list A) :
  (forall x, P x -> exists s, line x = Ok s /\ s <> []) ->
  Forall P data ->
  exists s, rbind (mapR line data) (fun lines => Ok (join (lit " | ") lines)) = Ok s
            /\ (data = [] -> s = [])
            /\ (data <> [] -> s <> []).
Proof.
  intros Hline H. destruct (lines_settle line P data Hline H) as (lines & El & Hl & Hlen).
  rewrite El. cbn [rbind]. eexists. split; [reflexivity|]. split.
  - intros E. subst data. destruct lines; [reflexivity|discriminate].
  - intros Hne. destruct data as [|x t]; [contradiction|].
    destruct lines as [|p rest]; [discriminate|].
    inversion Hl; subst. apply join_nonempty. assumption.
Qed.

Lemma placeholder_nonempty (v : Variant) : placeholder v <> [].
Proof. destruct v; discriminate. Qed.

Lemma or_placeholder_empty (v : Variant) : or_placeholder v [] = placeholder v.
Proof. reflexivity. Qed.

Lemma or_placeholder_keeps (v : Variant) (s : jsstring) :
  s <> [] -> or_placeholder v s = s.
Proof. destruct s; [contradiction|reflexivity]. Qed.

Lemma or_placeholder_nonempty (v : Variant) (s : jsstring) :
  or_placeholder v s <> [].
Proof.
  destruct s as [|c s]; [apply placeholder_nonempty|].
  rewrite or_placeholder_keeps; discriminate.
Qed.

Lemma masterPrompt_settles (v : Variant) (audience goal : JVal)
  (topVideos : list VideoResult) (competitorVideosData : list ChannelVideos)
  (redditPostsData : list SubredditPosts) :
  printable audience -> printable goal -> plain_titles topVideos ->
  Forall printable_channel competitorVideosData ->
  Forall printable_subreddit redditPostsData ->
  exists a g top competitors reddit,
    ToString audience = Ok a /\ ToString goal = Ok g
    /\ topVideoTitles topVideos = Ok top
    /\ competitorVideoTitles competitorVideosData = Ok competitors
    /\ redditPostTitles redditPostsData = Ok reddit
    /\ masterPrompt v audience goal topVideos competitorVideosData redditPostsData
       = Ok (fill_template v a g top competitors reddit)
    /\ (competitorVideosData = [] -> competitors = [])
    /\ (competitorVideosData <> [] -> competitors <> [])
    /\ (redditPostsData = [] -> reddit = [])
    /\ (redditPostsData <> [] -> reddit <> []).
Proof.
  intros [a Ea] [g Eg] Htop Hcomp Hreddit.
  destruct (titles_joined_settles _ Htop) as [top Etop].
  destruct (section_settles competitor_line printable_channel _
              competitor_line_settles Hcomp) as (competitors & Ec & Hc0 & Hc1).
  destruct (section_settles subreddit_line printable_subreddit _
              subreddit_line_settles Hreddit) as (reddit & Er & Hr0 & Hr1).
  exists a, g, top, competitors, reddit.
  unfold masterPrompt, topVideoTitles, competitorVideoTitles, redditPostTitles.
  rewrite Ea, Eg, Etop, Ec, Er. cbn [rbind].
  repeat (split; [reflexivity|]). repeat split; assumption.
Qed.

End Prompt.

(* ------------------------------------------------------------------ *)
(** ** The handler on a valid request *)

Section Pipeline.
Context {num : JsNumbers} {codec : JsonCodec}.

(** The pipeline, unfolded along the run of the data collection. *)
Lemma run_pipeline_run (v : Variant) (a g : jsstring)
  (channels subreddits : list jsstring)
  (youtubeKey clientId clientSecret llmKey : jsstring) (w : World) (st : State) :
  exists top competitors reddit st1,
    Collected v clientId clientSecret w st (a ++ lit " " ++ g) channels subreddits
      top competitors reddit st1
    /\ run_pipeline v (JStr a) (JStr g) (map JStr channels) (map JStr subreddits)
         youtubeKey clientId clientSecret llmKey w st
       = match Promise_all3 top competitors reddit with
         | Throw e => (Throw e, st1)
         | Ok (t, c, r) =>
             match masterPrompt v (JStr a) (JStr g) t c r with
             | Throw e => (Throw e, st1)
             | Ok prompt =>
                 let (result, st2) := synthesize v prompt llmKey w st1 in
                 (rbind result (fun answer => Ok (success answer)), st2)
             end
         end.
Proof.
  destruct (collect_run v (a ++ lit " " ++ g) youtubeKey clientId clientSecret
              channels subreddits w st)
    as (top & competitors & reddit & st1 & Erun & Hcollected).
  exists top, competitors, reddit, st1. split; [exact Hcollected|].
  unfold run_pipeline. cbn [ToString]. unfold bind at 1. unfold liftR at 1.
  cbn iota beta. unfold bind at 1. unfold liftR at 1. cbn iota beta.
  unfold bind at 1. rewrite Erun.
  destruct (Promise_all3 top competitors reddit) as [[[t c] r]|e]; [|reflexivity].
  cbn iota beta. unfold bind at 1. unfold liftR at 1.
  destruct (masterPrompt v (JStr a) (JStr g) t c r) as [prompt|e]; [|reflexivity].
  unfold bind. destruct (synthesize v prompt llmKey w st1) as [[answer|e] st2];
    reflexivity.
Qed.

Lemma secrets_configured (v : Variant) (env : Env) :
  secrets_present v env = true ->
  exists youtubeKey clientId clientSecret llmKey,
    configured (YOUTUBE_API_KEY env) = Some youtubeKey
    /\ configured (REDDIT_CLIENT_ID env) = Some clientId
    /\ configured (REDDIT_CLIENT_SECRET env) = Some clientSecret
    /\ configured (llm_api_key v env) = Some llmKey.
Proof.
  unfold secrets_present.
  destruct (configured (YOUTUBE_API_KEY env)) as [yk|]; [|discriminate].
  destruct (configured (REDDIT_CLIENT_ID env)) as [id|]; [|discriminate].
  destruct (configured (REDDIT_CLIENT_SECRET env)) as [sec|]; [|discriminate].
  destruct (configured (llm_api_key v env)) as [lk|]; [|discriminate].
  intros _. exists yk, id, sec, lk. repeat split; reflexivity.
Qed.

Lemma request_body_fields (r : StrategyRequest) :
  field (request_body r) (lit "audience") = JStr (sr_audience r)
  /\ field (request_body r) (lit "goal") = JStr (sr_goal r)
  /\ field (request_body r) (lit "competitorYouTubeChannels")
     = JArr (map JStr (sr_channels r))
  /\ field (request_body r) (lit "relevantSubreddits")
     = JArr (map JStr (sr_subreddits r)).
Proof. repeat split; reflexivity. Qed.

(** The handler on a valid request with its secrets, along the run of the
    data collection. *)
Lemma handler_valid_run (v : Variant) (env : Env) (r : StrategyRequest)
  (youtubeKey clientId clientSecret llmKey : jsstring) (w : World) (st : State) :
  valid_request r = true ->
  configured (YOUTUBE_API_KEY env) = Some youtubeKey ->
  configured (REDDIT_CLIENT_ID env) = Some clientId ->
  configured (REDDIT_CLIENT_SECRET env) = Some clientSecret ->
  configured (llm_api_key v env) = Some llmKey ->
  exists top competitors reddit st1,
    Collected v clientId clientSecret w st
      (sr_audience r ++ lit " " ++ sr_goal r) (sr_channels r) (sr_subreddits r)
      top competitors reddit st1
    /\ handler v env (post (request_body r)) w st
       = match Promise_all3 top competitors reddit with
         | Throw e => (Ok (internal_error e), st1)
         | Ok (t, c, rd) =>
             match masterPrompt v (JStr (sr_audience r)) (JStr (sr_goal r)) t c rd with
             | Throw e => (Ok (internal_error e), st1)
             | Ok prompt =>
                 let (result, st2) := synthesize v prompt llmKey w st1 in
                 (Ok match result with
                     | Ok answer => success answer
                     | Throw e => internal_error e
                     end, st2)
             end
         end.
Proof.
  intros Hvalid Eyk Eid Esec Elk.
  unfold valid_request in Hvalid. apply andb_prop in Hvalid.
  destruct Hvalid as [Ha Hg].
  destruct (run_pipeline_run v (sr_audience r) (sr_goal r) (sr_channels r)
              (sr_subreddits r) youtubeKey clientId clientSecret llmKey w st)
    as (top & competitors & reddit & st1 & Hcollected & Erun).
  exists top, competitors, reddit, st1. split; [exact Hcollected|].
  rewrite handler_post.
  destruct (request_body_fields r) as (Fa & Fg & Fc & Fs).
  rewrite Fa, Fg, Fc, Fs. cbn [truthy Array_isArray elements negb orb].
  rewrite Ha, Hg. cbn [negb orb]. rewrite Eyk, Eid, Esec, Elk.
  unfold try_catch. rewrite Erun.
  destruct (Promise_all3 top competitors reddit) as [[[t c] rd]|e]; [|reflexivity].
  destruct (masterPrompt v (JStr (sr_audience r)) (JStr (sr_goal r)) t c rd)
    as [prompt|e]; [|reflexivity].
  destruct (synthesize v prompt llmKey w st1) as [[answer|e] st2]; reflexivity.
Qed.

Lemma exchange_counts (v : Variant) (clientId clientSecret : jsstring) (w : World)
  (ex : list Event) :
  ex = []
  \/ (exists history,
        ex = [Fetch GetRedditAccessToken (token_request v clientId clientSecret)
                (respond w history (token_request v clientId clientSecret))]) ->
  only GetRedditAccessToken ex
  /\ invocations GetRedditAccessToken ex = 0
  /\ fetches GetRedditAccessToken ex = List.length ex
  /\ List.length ex <= 1.
Proof.
  intros [E | [history E]]; subst ex.
  - repeat split; [constructor | cbn; lia].
  - repeat split; [repeat constructor | cbn; lia].
Qed.

Lemma not_search_channel : GetChannelVideos <> SearchYouTubeVideos.
Proof. discriminate. Qed.

(** The counts of the data collection. *)
Lemma collected_fan_out (v : Variant) (clientId clientSecret : jsstring)
  (w : World) (st : State) (query : jsstring) (channels subreddits : list jsstring)
  (top : Result (list VideoResult)) (competitors : Result (list ChannelVideos))
  (reddit : Result (list SubredditPosts)) (st1 : State) :
  Collected v clientId clientSecret w st query channels subreddits
    top competitors reddit st1 ->
  exists evs,
    trace st1 = trace st ++ evs
    /\ fan_out (cache_valid w st) (List.length channels) (List.length subreddits) evs
    /\ Forall (fun e => routine_of e <> CallLLM) evs.
Proof.
  intros [e1 e2 ex e3 Htrace H1 C1 _ _ H2 C2 _ _ Hshape Hskip Hmade H3 C3 _ _ _].
  destruct (exchange_counts v clientId clientSecret w ex Hshape)
    as (Hx & Cx & Fx & Lx).
  exists (e1 ++ e2 ++ Invoke GetRedditAccessToken :: ex ++ e3).
  split; [exact Htrace|].
  assert (G : token_granted_in (e1 ++ e2 ++ Invoke GetRedditAccessToken :: ex ++ e3)
              = token_granted_in ex).
  { rewrite !token_granted_in_app.
    rewrite (only_other_token_granted _ _ H1) by discriminate.
    rewrite (only_other_token_granted _ _ H2) by discriminate.
    change (Invoke GetRedditAccessToken :: ex ++ e3)
      with ([Invoke GetRedditAccessToken] ++ ex ++ e3).
    rewrite !token_granted_in_app.
    rewrite (only_other_token_granted _ _ H3) by discriminate.
    cbn [token_granted_in existsb orb]. rewrite orb_false_r. reflexivity. }
  change (Invoke GetRedditAccessToken :: ex ++ e3)
    with ([Invoke GetRedditAccessToken] ++ ex ++ e3) in *.
  split; [constructor|].
  - rewrite !invocations_app, C1.
    rewrite (only_other_invocations _ _ _ H2) by discriminate.
    rewrite (only_other_invocations _ _ _ Hx) by discriminate.
    rewrite (only_other_invocations _ _ _ H3) by discriminate.
    reflexivity.
  - rewrite !invocations_app, C2.
    rewrite (only_other_invocations _ _ _ H1) by discriminate.
    rewrite (only_other_invocations _ _ _ Hx) by discriminate.
    rewrite (only_other_invocations _ _ _ H3) by discriminate.
    cbn. lia.
  - rewrite !invocations_app, Cx.
    rewrite (only_other_invocations _ _ _ H1) by discriminate.
    rewrite (only_other_invocations _ _ _ H2) by discriminate.
    rewrite (only_other_invocations _ _ _ H3) by discriminate.
    reflexivity.
  - rewrite !fetches_app, Fx.
    rewrite (only_other_fetches _ _ _ H1) by discriminate.
    rewrite (only_other_fetches _ _ _ H2) by discriminate.
    rewrite (only_other_fetches _ _ _ H3) by discriminate.
    cbn. lia.
  - intros Hc. rewrite !fetches_app, Fx, (Hskip Hc).
    rewrite (only_other_fetches _ _ _ H1) by discriminate.
    rewrite (only_other_fetches _ _ _ H2) by discriminate.
    rewrite (only_other_fetches _ _ _ H3) by discriminate.
    reflexivity.
  - intros Hc. rewrite !fetches_app, Fx.
    rewrite (only_other_fetches _ _ _ H1) by discriminate.
    rewrite (only_other_fetches _ _ _ H2) by discriminate.
    rewrite (only_other_fetches _ _ _ H3) by discriminate.
    specialize (Hmade Hc). destruct ex as [|x [|y t]]; [contradiction|reflexivity|].
    cbn in Lx. lia.
  - rewrite G. rewrite !invocations_app, C3.
    rewrite (only_other_invocations _ _ _ H1) by discriminate.
    rewrite (only_other_invocations _ _ _ H2) by discriminate.
    rewrite (only_other_invocations _ _ _ Hx) by discriminate.
    reflexivity.
  - unfold only in *. repeat (apply Forall_app; split);
      try (eapply Forall_impl; [|eassumption]; cbn beta; intros e He; rewrite He;
           discriminate).
    repeat constructor. discriminate.
Qed.

Lemma emits_ret (P : Event -> Prop) {A} (a : A) : emits P (ret a).
Proof. intros w st. exists []. cbn. rewrite app_nil_r. split; constructor. Qed.

Lemma emits_throw (P : Event -> Prop) {A} (e : JsError) : emits P (throw e : M A).
Proof. intros w st. exists []. cbn. rewrite app_nil_r. split; constructor. Qed.

Lemma emits_liftR (P : Event -> Prop) {A} (r : Result A) : emits P (liftR r).
Proof. intros w st. exists []. cbn. rewrite app_nil_r. split; constructor. Qed.

Lemma emits_bind (P : Event -> Prop) {A B} (m : M A) (k : A -> M B) :
  emits P m -> (forall a, emits P (k a)) -> emits P (bind m k).
Proof.
  intros Hm Hk w st. destruct (Hm w st) as (e1 & T1 & F1). unfold bind.
  destruct (m w st) as [[a|e] st1]; cbn [snd] in T1.
  - destruct (Hk a w st1) as (e2 & T2 & F2). exists (e1 ++ e2).
    rewrite T2, T1, app_assoc. split; [reflexivity | apply Forall_app; split; assumption].
  - exists e1. split; assumption.
Qed.

Lemma emits_try_catch (P : Event -> Prop) {A} (m : M A) (h : JsError -> M A) :
  emits P m -> (forall e, emits P (h e)) -> emits P (try_catch m h).
Proof.
  intros Hm Hh w st. destruct (Hm w st) as (e1 & T1 & F1). unfold try_catch.
  destruct (m w st) as [[a|e] st1]; cbn [snd] in T1.
  - exists e1. split; assumption.
  - destruct (Hh e w st1) as (e2 & T2 & F2). exists (e1 ++ e2).
    rewrite T2, T1, app_assoc. split; [reflexivity | apply Forall_app; split; assumption].
Qed.

Lemma emits_settle (P : Event -> Prop) {A} (m : M A) :
  emits P m -> emits P (settle m).
Proof.
  intros Hm w st. destruct (Hm w st) as (e1 & T1 & F1). unfold settle.
  destruct (m w st) as [r st1]. exists e1. split; assumption.
Qed.

Lemma emits_mapM (P : Event -> Prop) {A B} (f : A -> M B) (l : list A) :
  (forall x, emits P (f x)) -> emits P (mapM f l).
Proof.
  intros Hf. induction l as [|x t IHt]; cbn [mapM]; [apply emits_ret|].
  apply emits_bind; [apply Hf|]. intros y.
  apply emits_bind; [exact IHt|]. intros ys. apply emits_ret.
Qed.

Lemma emits_log (P : Event -> Prop) (e : Event) : P e -> emits P (log e).
Proof. intros He w st. exists [e]. split; [reflexivity | constructor; [exact He | constructor]]. Qed.

Lemma emits_fetch (P : Event -> Prop) (r : Routine) (q : Request) :
  (forall o, P (Fetch r q o)) -> emits P (fetch r q).
Proof.
  intros Hq w st. exists [Fetch r q (respond w (trace st) q)].
  rewrite fetch_run. split; [reflexivity | constructor; [apply Hq | constructor]].
Qed.

Lemma emits_Date_now (P : Event -> Prop) : emits P Date_now.
Proof. intros w st. exists []. cbn. rewrite app_nil_r. split; constructor. Qed.

Lemma emits_get_redditToken (P : Event -> Prop) : emits P get_redditToken.
Proof. intros w st. exists []. cbn. rewrite app_nil_r. split; constructor. Qed.

Lemma emits_set_redditToken (P : Event -> Prop) (t : TokenCache) :
  emits P (set_redditToken t).
Proof. intros w st. exists []. cbn. rewrite app_nil_r. split; constructor. Qed.

Lemma emits_response_json (P : Event -> Prop) (resp : Response) :
  emits P (response_json resp).
Proof. unfold response_json. destruct (json resp); [apply emits_ret | apply emits_throw]. Qed.

(** Structural proof that a program only emits events of a kind. *)
Ltac emits_step :=
  first
    [ apply emits_ret | apply emits_throw | apply emits_liftR
    | apply emits_Date_now | apply emits_get_redditToken
    | apply emits_set_redditToken | apply emits_response_json
    | apply emits_log | apply emits_fetch; intros ?
    | apply emits_settle | apply emits_mapM; intros ?
    | apply emits_bind; [|intros ?] | apply emits_try_catch; [|intros ?]
    | match goal with
      | |- emits _ (if ?b then _ else _) => destruct b
      | |- emits _ (match ?x with _ => _ end) => destruct x
      end ].

Lemma searchYouTubeVideos_before_synthesis (query apiKey : jsstring) (n : N) :
  emits before_synthesis (searchYouTubeVideos query apiKey n).
Proof. unfold searchYouTubeVideos. repeat emits_step; discriminate. Qed.

Lemma getChannelVideos_before_synthesis (c : JVal) (apiKey : jsstring) (n : N) :
  emits before_synthesis (getChannelVideos c apiKey n).
Proof. unfold getChannelVideos. repeat emits_step; discriminate. Qed.

Lemma getRedditAccessToken_before_synthesis (v : Variant)
  (clientId clientSecret : jsstring) :
  emits before_synthesis (getRedditAccessToken v clientId clientSecret).
Proof.
  unfold getRedditAccessToken, cached_token_valid. repeat emits_step; discriminate.
Qed.

Lemma getSubredditPosts_before_synthesis (v : Variant) (name : jsstring)
  (token : JVal) (n : N) :
  emits before_synthesis (getSubredditPosts v name token n).
Proof. unfold getSubredditPosts. repeat emits_step; discriminate. Qed.

Lemma collect_before_synthesis (v : Variant)
  (query youtubeKey clientId clientSecret : jsstring)
  (channels subreddits : list JVal) :
  emits before_synthesis
    (collect v query youtubeKey clientId clientSecret channels subreddits).
Proof.
  unfold collect, collect_channels, collect_reddit, collect_subreddits.
  repeat first
    [ apply searchYouTubeVideos_before_synthesis
    | apply getChannelVideos_before_synthesis
    | apply getRedditAccessToken_before_synthesis
    | apply getSubredditPosts_before_synthesis
    | emits_step ].
Qed.

(** Any request: either the handler answers without calling the
    synthesizer, or its answer is the outcome of one synthesis call made
    after everything else. *)
Lemma handler_synthesis (v : Variant) (env : Env) (req : IncomingRequest)
  (w : World) (st : State) :
  exists st1 evs,
    trace st1 = trace st ++ evs
    /\ Forall before_synthesis evs
    /\ ((exists reply, handler v env req w st = (Ok reply, st1))
        \/ (exists prompt llmKey,
              handler v env req w st
              = let (result, st2) := synthesize v prompt llmKey w st1 in
                (Ok match result with
                    | Ok answer => success answer
                    | Throw e => internal_error e
                    end, st2))).
Proof.
  set (G := fun run : Result Reply * State =>
              exists st1 evs,
                trace st1 = trace st ++ evs
                /\ Forall before_synthesis evs
                /\ ((exists reply, run = (Ok reply, st1))
                    \/ (exists prompt llmKey,
                          run
                          = let (result, st2) := synthesize v prompt llmKey w st1 in
                            (Ok match result with
                                | Ok answer => success answer
                                | Throw e => internal_error e
                                end, st2)))).
  assert (Hstay : forall reply, G (Ok reply, st)).
  { intros reply. exists st, []. rewrite app_nil_r.
    split; [reflexivity|]. split; [constructor|]. left. exists reply. reflexivity. }
  change (G (handler v env req w st)).
  unfold handler.
  destruct (str_eqb (method req) (lit "OPTIONS")); [apply Hstay|].
  destruct (negb (str_eqb (method req) (lit "POST"))); [apply Hstay|].
  unfold try_catch.
  do 4 (unfold bind at 1; unfold liftR at 1; rewrite get_body_or_empty;
        cbn iota beta).
  destruct (negb (truthy (field (body req) (lit "audience")))
            || negb (truthy (field (body req) (lit "goal")))
            || negb (Array_isArray (field (body req) (lit "competitorYouTubeChannels")))
            || negb (Array_isArray (field (body req) (lit "relevantSubreddits"))));
    [apply Hstay|].
  destruct (configured (YOUTUBE_API_KEY env)) as [youtubeKey|]; [|apply Hstay].
  destruct (configured (REDDIT_CLIENT_ID env)) as [clientId|]; [|apply Hstay].
  destruct (configured (REDDIT_CLIENT_SECRET env)) as [clientSecret|]; [|apply Hstay].
  destruct (configured (llm_api_key v env)) as [llmKey|]; [|apply Hstay].
  unfold run_pipeline.
  unfold bind at 1; unfold liftR at 1.
  destruct (ToString (field (body req) (lit "audience"))) as [a|e]; [|apply Hstay].
  unfold bind at 1; unfold liftR at 1.
  destruct (ToString (field (body req) (lit "goal"))) as [g|e]; [|apply Hstay].
  clear Hstay. unfold bind at 1.
  destruct (collect_before_synthesis v (a ++ lit " " ++ g) youtubeKey clientId
              clientSecret
              (elements (field (body req) (lit "competitorYouTubeChannels")))
              (elements (field (body req) (lit "relevantSubreddits"))) w st)
    as (evs & Htrace & Hevs).
  destruct (collect v (a ++ lit " " ++ g) youtubeKey clientId clientSecret
              (elements (field (body req) (lit "competitorYouTubeChannels")))
              (elements (field (body req) (lit "relevantSubreddits"))) w st)
    as [[[[t c] r]|e] st1]; cbn [snd] in Htrace;
    exists st1, evs; (split; [exact Htrace|]); (split; [exact Hevs|]).
  2:{ left. eexists; reflexivity. }
  unfold bind at 1. unfold liftR at 1.
  destruct (masterPrompt v (field (body req) (lit "audience"))
              (field (body req) (lit "goal")) t c r) as [prompt|e].
  2:{ left. eexists; reflexivity. }
  right. exists prompt, llmKey. unfold bind, liftR, ret.
  destruct (synthesize v prompt llmKey w st1) as [[answer|e] st2]; reflexivity.
Qed.

End Pipeline.

(* ------------------------------------------------------------------ *)
(** ** The fan-out of a valid request *)

Section FanOut.
Context {num : JsNumbers} {codec : JsonCodec}.

Lemma fan_out_then_synthesis (cached : bool) (n m : nat) (evs more : list Event) :
  fan_out cached n m evs -> only CallLLM more -> fan_out cached n m (evs ++ more).
Proof.
  intros [F1 F2 F3 F4 F5 F6 F7] Hmore.
  assert (G : token_granted_in (evs ++ more) = token_granted_in evs).
  { rewrite token_granted_in_app.
    rewrite (only_other_token_granted _ _ Hmore) by discriminate.
    apply orb_false_r. }
  constructor; rewrite ?G; rewrite ?invocations_app, ?fetches_app;
    rewrite ?(only_other_invocations _ SearchYouTubeVideos _ Hmore) by discriminate;
    rewrite ?(only_other_invocations _ GetChannelVideos _ Hmore) by discriminate;
    rewrite ?(only_other_invocations _ GetRedditAccessToken _ Hmore) by discriminate;
    rewrite ?(only_other_invocations _ GetSubredditPosts _ Hmore) by discriminate;
    rewrite ?(only_other_fetches _ GetRedditAccessToken _ Hmore) by discriminate;
    rewrite ?Nat.add_0_r; try assumption.
Qed.

Lemma synthesis_events (q : Request) (o : Outcome) :
  only CallLLM [Invoke CallLLM; Fetch CallLLM q o].
Proof. repeat constructor. Qed.

Lemma handler_fan_out (v : Variant) (env : Env) (r : StrategyRequest)
  (w : World) (st : State) :
  valid_request r = true -> secrets_present v env = true ->
  exists reply st' evs,
    handler v env (post (request_body r)) w st = (Ok reply, st')
    /\ trace st' = trace st ++ evs
    /\ fan_out (cache_valid w st) (List.length (sr_channels r))
         (List.length (sr_subreddits r)) evs.
Proof.
  intros Hvalid Hsecrets.
  destruct (secrets_configured v env Hsecrets)
    as (yk & id & sec & lk & Eyk & Eid & Esec & Elk).
  destruct (handler_valid_run v env r yk id sec lk w st Hvalid Eyk Eid Esec Elk)
    as (top & competitors & reddit & st1 & Hcollected & Erun).
  destruct (collected_fan_out _ _ _ _ _ _ _ _ _ _ _ _ Hcollected)
    as (evs & Htrace & Hfan & _).
  rewrite Erun.
  destruct (Promise_all3 top competitors reddit) as [[[t c] rd]|e].
  2:{ eexists; exists st1, evs.
      split; [reflexivity | split; [exact Htrace | exact Hfan]]. }
  destruct (masterPrompt v (JStr (sr_audience r)) (JStr (sr_goal r)) t c rd)
    as [prompt|e].
  2:{ eexists; exists st1, evs.
      split; [reflexivity | split; [exact Htrace | exact Hfan]]. }
  destruct (synthesize_run v prompt lk w st1) as (result & Esyn & _).
  cbv zeta in Esyn. rewrite Esyn.
  eexists; eexists; eexists. split; [reflexivity|]. split.
  - cbn [extend trace]. rewrite Htrace, <- app_assoc. reflexivity.
  - apply fan_out_then_synthesis; [exact Hfan | apply synthesis_events].
Qed.

(** C3 (as the code has it).  A valid request with the four secrets: the
    keyword search is entered once, the channel routine once per channel,
    the token routine once with at most one exchange and none while the
    cached token is valid, and the subreddit routine once per subreddit
    when a token is at hand (cached, or granted by the exchange) and not at
    all otherwise. *)
Theorem valid_request_fans_out (v : Variant) (env : Env) (r : StrategyRequest)
  (w : World) (st : State) :
  valid_request r = true -> secrets_present v env = true ->
  exists reply st' evs,
    handler v env (post (request_body r)) w st = (Ok reply, st')
    /\ trace st' = trace st ++ evs
    /\ fan_out (cache_valid w st) (List.length (sr_channels r))
         (List.length (sr_subreddits r)) evs.
Proof. exact (handler_fan_out v env r w st). Qed.

End FanOut.

(* ------------------------------------------------------------------ *)
(** ** The contract of the token cache *)

Section TokenContract.
Context {num : JsNumbers} {codec : JsonCodec}.

(** C6.  While the cached token is present and its expiry is later than
    the clock, the token routine returns it, leaves the cache alone and
    issues no request, so a valid request handled in that state triggers
    no exchange; otherwise it performs exactly one exchange, and when the
    answer carries a token it returns that token and caches it until 50
    minutes after the clock reading made then. *)
Theorem token_cache_serves_or_refreshes (v : Variant)
  (clientId clientSecret : jsstring) (w : World) (st : State) :
  let q := token_request v clientId clientSecret in
  let o := respond w (trace st ++ [Invoke GetRedditAccessToken]) q in
  let run := getRedditAccessToken v clientId clientSecret w st in
  (cache_valid w st = true ->
   fst run = Ok (value (redditToken st))
   /\ redditToken (snd run) = redditToken st
   /\ trace (snd run) = trace st ++ [Invoke GetRedditAccessToken])
  /\ (cache_valid w st = false ->
      trace (snd run)
      = trace st ++ [Invoke GetRedditAccessToken; Fetch GetRedditAccessToken q o]
      /\ forall token, granted_token o = Some token ->
         fst run = Ok token
         /\ redditToken (snd run)
            = {| value := token;
                 expires := clock w (ticks st + readings_of_cache_test st)
                            + 50 * 60 * 1000 |})
  /\ (forall env r evs,
        valid_request r = true -> secrets_present v env = true ->
        cache_valid w st = true ->
        trace (snd (handler v env (post (request_body r)) w st)) = trace st ++ evs ->
        fetches GetRedditAccessToken evs = 0).
Proof.
  cbv zeta. split; [|split].
  - intros Hc. rewrite (getRedditAccessToken_cached _ _ _ _ _ Hc).
    repeat split; reflexivity.
  - intros Hc. rewrite (getRedditAccessToken_exchange _ _ _ _ _ Hc). cbv zeta.
    destruct (granted_token
                (respond w (trace st ++ [Invoke GetRedditAccessToken])
                   (token_request v clientId clientSecret))) as [t|].
    + split; [reflexivity|]. intros token E. inversion E; subst.
      split; reflexivity.
    + split; [reflexivity|]. intros token E. discriminate.
  - intros env r evs Hvalid Hsecrets Hc Htrace.
    destruct (handler_fan_out v env r w st Hvalid Hsecrets)
      as (reply & st' & evs' & Erun & Htrace' & Hfan).
    rewrite Erun in Htrace. cbn [snd] in Htrace. rewrite Htrace' in Htrace.
    apply app_inv_head in Htrace. subst evs'.
    exact (no_exchange_when_cached Hfan Hc).
Qed.

Lemma exchange_failures (o : Outcome) :
  o = NetworkError
  \/ (exists resp, o = Responds resp /\ json resp = None)
  \/ (exists resp answer,
        o = Responds resp /\ json resp = Some answer
        /\ forall t, get answer (lit "access_token") = Ok t -> truthy t = false) ->
  granted_token o = None.
Proof.
  intros [E | [(resp & E & Ej) | (resp & answer & E & Ej & Ht)]]; subst o;
    cbn [granted_token]; [reflexivity | rewrite Ej; reflexivity | rewrite Ej].
  destruct (get answer (lit "access_token")) as [t|e]; [|reflexivity].
  rewrite (Ht t eq_refl). reflexivity.
Qed.

(** C9.  When the credential exchange fails (the request is not answered,
    the answer is not JSON, or it carries no truthy [access_token]), the
    token cache is exactly what it was, and the routine returns [null]
    unless it served a cached token; the cache differs after a call only
    when the exchange was answered with a token. *)
Theorem failed_exchange_leaves_the_cache (v : Variant)
  (clientId clientSecret : jsstring) (w : World) (st : State) :
  let o := respond w (trace st ++ [Invoke GetRedditAccessToken])
             (token_request v clientId clientSecret) in
  let run := getRedditAccessToken v clientId clientSecret w st in
  (o = NetworkError
   \/ (exists resp, o = Responds resp /\ json resp = None)
   \/ (exists resp answer,
         o = Responds resp /\ json resp = Some answer
         /\ forall t, get answer (lit "access_token") = Ok t -> truthy t = false) ->
   redditToken (snd run) = redditToken st
   /\ (cache_valid w st = false -> fst run = Ok JNull))
  /\ (redditToken (snd run) <> redditToken st ->
      cache_valid w st = false
      /\ exists token, granted_token o = Some token
                       /\ value (redditToken (snd run)) = token).
Proof.
  cbv zeta. split.
  - intros Hfail. apply exchange_failures in Hfail.
    destruct (cache_valid w st) eqn:Hc.
    + rewrite (getRedditAccessToken_cached _ _ _ _ _ Hc).
      split; [reflexivity | discriminate].
    + rewrite (getRedditAccessToken_exchange _ _ _ _ _ Hc). cbv zeta.
      rewrite Hfail. split; [reflexivity | reflexivity].
  - destruct (cache_valid w st) eqn:Hc.
    + rewrite (getRedditAccessToken_cached _ _ _ _ _ Hc). cbn [snd redditToken].
      intros H. contradiction H. reflexivity.
    + rewrite (getRedditAccessToken_exchange _ _ _ _ _ Hc). cbv zeta.
      destruct (granted_token
                  (respond w (trace st ++ [Invoke GetRedditAccessToken])
                     (token_request v clientId clientSecret))) as [t|].
      * intros _. split; [reflexivity|]. exists t. split; reflexivity.
      * cbn [snd redditToken]. intros H. contradiction H. reflexivity.
Qed.

End TokenContract.

(* ------------------------------------------------------------------ *)
(** ** Synthesis *)

Section Synthesis.
Context {num : JsNumbers} {codec : JsonCodec}.

Lemma synthesis_failure_text (v : Variant) :
  exists rest,
    synthesis_failure v = lit "Failed to get a valid response" ++ rest.
Proof.
  destruct v; [exists (lit " from the OpenAI API.") | exists (lit " from the Gemini API.")];
    reflexivity.
Qed.

Lemma before_synthesis_no_completion (evs : list Event) (q : Request) (o : Outcome) :
  Forall before_synthesis evs -> ~ In (Fetch CallLLM q o) evs.
Proof.
  intros H Hin. rewrite Forall_forall in H. apply (H _ Hin). reflexivity.
Qed.

Lemma before_synthesis_fetches (evs : list Event) :
  Forall before_synthesis evs -> fetches CallLLM evs = 0.
Proof.
  unfold fetches. induction 1 as [|e t He Ht IHt]; [reflexivity|].
  cbn [filter]. destruct e as [r|r q o]; [exact IHt|].
  cbn [is_fetch]. destruct r; try exact IHt. contradiction He. reflexivity.
Qed.

(** C5.  When the completion call is not answered, is answered with a
    non-success status, with a body that is not JSON, of another shape, or
    whose content does not parse, the synthesizer throws the one error
    "Failed to get a valid response ..." after that single request; and a
    handler run whose log shows such a completion call answers 500 with the
    fixed error text and that message as details: nothing that was fetched
    is in the body. *)
Theorem failed_synthesis_is_one_normalized_error (v : Variant) :
  (forall prompt apiKey w st,
     let q := llm_request v prompt apiKey in
     let o := respond w (trace st ++ [Invoke CallLLM]) q in
     completion_fails v o ->
     synthesize v prompt apiKey w st
     = (Throw (Error (synthesis_failure v)),
        extend st [Invoke CallLLM; Fetch CallLLM q o]))
  /\ (exists rest,
        synthesis_failure v = lit "Failed to get a valid response" ++ rest)
  /\ (forall env req w st evs q o,
        trace (snd (handler v env req w st)) = trace st ++ evs ->
        In (Fetch CallLLM q o) evs -> completion_fails v o ->
        fst (handler v env req w st)
        = Ok {| status := 500;
                headers := cors_headers;
                payload := ErrorBody (lit "An internal server error occurred.")
                             (Some (Error (synthesis_failure v))) |}
        /\ fetches CallLLM evs = 1).
Proof.
  split; [|split].
  - intros prompt apiKey w st q o Hfail.
    destruct (synthesize_run v prompt apiKey w st) as (result & Erun & Hf & _).
    cbv zeta in Erun, Hf. fold q o in Erun, Hf. rewrite Erun, (Hf Hfail).
    reflexivity.
  - apply synthesis_failure_text.
  - intros env req w st evs q o Htrace Hin Hfail.
    destruct (handler_synthesis v env req w st)
      as (st1 & before & Hbefore & Hquiet & [[reply Erun] | (prompt & lk & Erun)]).
    + rewrite Erun in Htrace. cbn [snd] in Htrace. rewrite Hbefore in Htrace.
      apply app_inv_head in Htrace. subst evs.
      destruct (before_synthesis_no_completion _ q o Hquiet Hin).
    + destruct (synthesize_run v prompt lk w st1) as (result & Esyn & Hf & _).
      cbv zeta in Esyn, Hf. rewrite Esyn in Erun. rewrite Erun in Htrace |- *.
      cbn [snd fst extend trace] in Htrace |- *.
      rewrite Hbefore, <- app_assoc in Htrace. apply app_inv_head in Htrace.
      subst evs. apply in_app_or in Hin. destruct Hin as [Hin | Hin].
      { destruct (before_synthesis_no_completion _ q o Hquiet Hin). }
      destruct Hin as [Hin | [Hin | []]]; [discriminate|].
      inversion Hin; subst. rewrite <- Hbefore in Hfail.
      rewrite (Hf Hfail). split; [reflexivity|].
      rewrite fetches_app, (before_synthesis_fetches _ Hquiet). reflexivity.
Qed.

End Synthesis.

(* ------------------------------------------------------------------ *)
(** ** The sections of the prompt *)

Section PromptSections.
Context {num : JsNumbers} {codec : JsonCodec}.

(** C8 (as the code has it).  With values that print, the prompt is the
    fixed template around the audience, the goal and three sections, and no
    section is empty: a section is the placeholder exactly when its joined
    text is empty, which is the case without any top video, without any
    competitor entry and without any subreddit entry; an entry of a channel
    or a subreddit always contributes its own line, so a section with
    entries is the joined lines and not the placeholder. *)
Theorem prompt_sections_are_never_empty (v : Variant) (audience goal : JVal)
  (topVideos : list VideoResult) (competitorVideosData : list ChannelVideos)
  (redditPostsData : list SubredditPosts) :
  printable audience -> printable goal -> plain_titles topVideos ->
  Forall printable_channel competitorVideosData ->
  Forall printable_subreddit redditPostsData ->
  exists a g top competitors reddit,
    topVideoTitles topVideos = Ok top
    /\ competitorVideoTitles competitorVideosData = Ok competitors
    /\ redditPostTitles redditPostsData = Ok reddit
    /\ masterPrompt v audience goal topVideos competitorVideosData redditPostsData
       = Ok (prompt_head v ++ a
             ++ prompt_after_audience v ++ g
             ++ prompt_after_goal v ++ or_placeholder v top
             ++ prompt_after_top_videos v ++ or_placeholder v competitors
             ++ prompt_after_competitors v ++ or_placeholder v reddit
             ++ prompt_tail v)
    /\ (or_placeholder v top <> [] /\ or_placeholder v competitors <> []
        /\ or_placeholder v reddit <> [])
    /\ (forall s, or_placeholder v s = if str_eqb s [] then placeholder v else s)
    /\ (topVideos = [] -> or_placeholder v top = placeholder v)
    /\ (competitorVideosData = [] -> or_placeholder v competitors = placeholder v)
    /\ (redditPostsData = [] -> or_placeholder v reddit = placeholder v)
    /\ (competitorVideosData <> [] ->
        competitors <> [] /\ or_placeholder v competitors = competitors)
    /\ (redditPostsData <> [] ->
        reddit <> [] /\ or_placeholder v reddit = reddit).
Proof.
  intros Ha Hg Htop Hcomp Hreddit.
  destruct (masterPrompt_settles v audience goal topVideos competitorVideosData
              redditPostsData Ha Hg Htop Hcomp Hreddit)
    as (a & g & top & competitors & reddit & Ea & Eg & Etop & Ec & Er & Eprompt
        & Hc0 & Hc1 & Hr0 & Hr1).
  exists a, g, top, competitors, reddit.
  split; [exact Etop|]. split; [exact Ec|]. split; [exact Er|].
  split; [exact Eprompt|].
  split; [repeat split; apply or_placeholder_nonempty|].
  split; [intros s; unfold or_placeholder; cbn [truthy];
          destruct (str_eqb s []); reflexivity|].
  split.
  { intros E. subst topVideos. inversion Etop; subst. reflexivity. }
  split; [intros E; rewrite (Hc0 E); reflexivity|].
  split; [intros E; rewrite (Hr0 E); reflexivity|].
  split; intros E.
  - split; [exact (Hc1 E) | apply or_placeholder_keeps; exact (Hc1 E)].
  - split; [exact (Hr1 E) | apply or_placeholder_keeps; exact (Hr1 E)].
Qed.

End PromptSections.

(* ------------------------------------------------------------------ *)
(** ** Reaching the synthesis *)

Section EndToEnd.
Context {num : JsNumbers} {codec : JsonCodec}.

Lemma channels_printable (data : list ChannelVideos) (names : list jsstring) :
  map channel data = map JStr names ->
  Forall (fun cv => plain_titles (videos cv)) data ->
  Forall printable_channel data.
Proof.
  revert names. induction data as [|cv t IHt]; intros names E H; [constructor|].
  destruct names as [|n ns]; [discriminate|]. cbn [map] in E.
  inversion E as [[E1 E2]]. inversion H as [|? ? Hcv Ht]; subst.
  constructor; [|exact (IHt ns E2 Ht)].
  split; [exists n; rewrite E1; reflexivity | exact Hcv].
Qed.

Lemma subreddits_printable (data : list SubredditPosts) :
  Forall (fun sp => is_string (subreddit sp) = true) data ->
  Forall (fun sp => plain_titles (posts sp)) data ->
  Forall printable_subreddit data.
Proof.
  induction 1 as [|sp t Hs Ht IHt]; intros H; [constructor|].
  inversion H as [|? ? Hp Hps]; subst. constructor; [|exact (IHt Hps)].
  split; [|exact Hp]. destruct (subreddit sp); try discriminate.
  eexists; reflexivity.
Qed.


Lemma before_synthesis_invocations (evs : list Event) :
  Forall before_synthesis evs -> invocations CallLLM evs = 0.
Proof.
  unfold invocations. induction 1 as [|e t He Ht IHt]; [reflexivity|].
  cbn [filter]. destruct e as [r|r q o]; [|exact IHt].
  cbn [is_invoke]. destruct r; try exact IHt. contradiction He. reflexivity.
Qed.


(** C1 (as the code has it).  The end-to-end request of the specification,
    with the secrets, upstream answers that print and a completion that
    parses to [answer]: the handler answers 200 with [answer] itself as the
    JSON body, whatever its keys, so the body has the four keys and the
    30-entry calendar exactly when the completion has them. *)
Theorem end_to_end_returns_the_completion (v : Variant) (env : Env) (w : World)
  (st : State) (answer : JVal) :
  secrets_present v env = true ->
  plain_world w ->
  plain (value (redditToken st)) = true ->
  (forall history prompt apiKey,
     completion_is v (respond w history (llm_request v prompt apiKey)) answer) ->
  exists st',
    handler v env (post (request_body spec_request)) w st
    = (Ok (success answer), st')
    /\ status (success answer) = 200%N
    /\ payload (success answer) = JsonBody answer.
Proof.
  intros Hsecrets Hw Hcache Hllm.
  destruct (secrets_configured v env Hsecrets)
    as (yk & id & sec & lk & Eyk & Eid & Esec & Elk).
  destruct (handler_valid_run v env spec_request yk id sec lk w st eq_refl
              Eyk Eid Esec Elk)
    as (top & competitors & reddit & st1 & Hcollected & Erun).
  destruct Hcollected
    as [e1 e2 ex e3 _ _ _ Htop Htop_plain _ _ [data Ecomp] Hkept _ _ _ _ _ _
        Hreddit Hreddit_kept].
  destruct (Htop eq_refl) as [l El].
  destruct (Hreddit Hw Hcache) as [rdata Ereddit]. subst top competitors reddit.
  cbn [Promise_all3 rbind] in Erun.
  destruct (Hkept data eq_refl) as [Hmap Hplain].
  destruct (Hreddit_kept rdata eq_refl) as [Hstrings Hposts].
  destruct (masterPrompt_settles v (JStr (sr_audience spec_request))
              (JStr (sr_goal spec_request)) l data rdata)
    as (a & g & tp & cp & rd & _ & _ & _ & _ & _ & Eprompt & _).
  { eexists; reflexivity. }
  { eexists; reflexivity. }
  { exact (Htop_plain Hw l eq_refl). }
  { exact (channels_printable _ _ Hmap (Hplain Hw)). }
  { exact (subreddits_printable _ Hstrings (Hposts Hw)). }
  rewrite Eprompt in Erun.
  destruct (synthesize_run v (fill_template v a g tp cp rd) lk w st1)
    as (result & Esyn & _ & Hok & _).
  cbv zeta in Esyn, Hok. rewrite Esyn in Erun.
  rewrite (Hok answer (Hllm _ _ _)) in Erun.
  eexists. split; [exact Erun|]. split; reflexivity.
Qed.

End EndToEnd.

(* ------------------------------------------------------------------ *)
(** ** The properties on concrete runs *)

Section Examples.
#[local] Existing Instance integer_numbers.
#[local] Existing Instance sample_codec.


Lemma healthy_is_plain (content : jsstring) : plain_world (healthy content).
Proof.
  intros history q. cbn [respond healthy]. unfold answer_of.
  repeat match goal with
         | |- context [if ?b then _ else _] => destruct b
         | |- context [match strip_prefix ?p ?s with _ => _ end] =>
             destruct (strip_prefix p s)
         end; reflexivity.
Qed.

Lemma healthy_completes (history : list Event) (prompt apiKey : jsstring) :
  completion_is OpenAI
    (respond (healthy (lit "{}")) history (llm_request OpenAI prompt apiKey))
    (JObj []).
Proof.
  eexists; eexists; eexists. repeat split; reflexivity.
Qed.

(** The end-to-end request against services that all answer in their
    documented shape, the completion being the JSON text of an empty
    object. *)
Lemma end_to_end_returns_the_completion_witness :
  exists st',
    handler OpenAI sample_env (post (request_body spec_request))
      (healthy (lit "{}")) initial_state
    = (Ok (success (JObj [])), st')
    /\ status (success (JObj [])) = 200%N
    /\ payload (success (JObj [])) = JsonBody (JObj []).
Proof.
  apply (end_to_end_returns_the_completion OpenAI sample_env (healthy (lit "{}"))
           initial_state (JObj [])).
  - reflexivity.
  - apply healthy_is_plain.
  - reflexivity.
  - apply healthy_completes.
Defined.

(** C1 as stated fails: every upstream call succeeds, the reply is 200, and
    its body is the empty object the completion parsed to, without any of
    the four keys. *)
Lemma completion_schema_is_not_enforced :
  let run := handler OpenAI sample_env (post (request_body spec_request))
               (healthy (lit "{}")) initial_state in
  all_calls_succeeded (trace (snd run)) = true
  /\ fetches CallLLM (trace (snd run)) = 1
  /\ fst run = Ok (success (JObj []))
  /\ status (success (JObj [])) = 200%N
  /\ strategy_schema (JObj []) = false.
Proof. cbv zeta. repeat split; vm_compute; reflexivity. Qed.

(** A body without [audience]. *)
Lemma invalid_body_is_rejected_witness :
  handler OpenAI sample_env
    (post (JObj [(lit "goal", JStr (lit "grow a YouTube channel"));
                 (lit "competitorYouTubeChannels", JArr []);
                 (lit "relevantSubreddits", JArr [])]))
    (healthy (lit "{}")) initial_state
  = (Ok bad_request, initial_state)
  /\ status bad_request = 400%N.
Proof.
  apply (invalid_body_is_rejected_without_upstream_calls OpenAI sample_env).
  left. reflexivity.
Defined.

(** A body whose [audience] is the empty string. *)
Lemma falsy_fields_are_rejected_witness :
  handler Gemini sample_env
    (post (JObj [(lit "audience", JStr []);
                 (lit "goal", JStr (lit "grow a YouTube channel"));
                 (lit "competitorYouTubeChannels", JArr []);
                 (lit "relevantSubreddits", JArr [])]))
    (healthy (lit "{}")) initial_state
  = (Ok bad_request, initial_state)
  /\ status bad_request = 400%N.
Proof.
  apply (falsy_fields_and_missing_body_are_rejected Gemini sample_env).
  left. reflexivity.
Defined.

(** The end-to-end request when every service answers. *)
Lemma valid_request_fans_out_witness :
  exists reply st' evs,
    handler OpenAI sample_env (post (request_body spec_request))
      (healthy (lit "{}")) initial_state = (Ok reply, st')
    /\ trace st' = trace initial_state ++ evs
    /\ fan_out (cache_valid (healthy (lit "{}")) initial_state) 1 1 evs.
Proof.
  apply (valid_request_fans_out OpenAI sample_env spec_request
           (healthy (lit "{}")) initial_state); reflexivity.
Defined.

(** C3 as stated fails: a valid request, the four secrets, one subreddit in
    the request, and the subreddit routine is never entered, because the
    credential exchange was not answered. *)
Lemma subreddits_are_skipped_without_a_token :
  let run := handler OpenAI sample_env (post (request_body spec_request))
               offline initial_state in
  valid_request spec_request = true
  /\ secrets_present OpenAI sample_env = true
  /\ List.length (sr_subreddits spec_request) = 1
  /\ invocations GetSubredditPosts (trace (snd run)) = 0
  /\ fetches GetRedditAccessToken (trace (snd run)) = 1.
Proof. cbv zeta. repeat split; vm_compute; reflexivity. Qed.

(** The synthesizer and the handler when nothing answers. *)
Lemma failed_synthesis_witness :
  synthesize OpenAI (lit "prompt") (lit "sk-test") offline initial_state
  = (Throw (Error openai_failure),
     extend initial_state
       [Invoke CallLLM;
        Fetch CallLLM (openai_request (lit "prompt") (lit "sk-test"))
          NetworkError])
  /\ fst (handler OpenAI sample_env (post (request_body spec_request))
            offline initial_state)
     = Ok {| status := 500;
             headers := cors_headers;
             payload := ErrorBody (lit "An internal server error occurred.")
                          (Some (Error openai_failure)) |}.
Proof.
  destruct (failed_synthesis_is_one_normalized_error OpenAI)
    as (Hsynthesize & _ & Hhandler).
  split.
  - apply (Hsynthesize (lit "prompt") (lit "sk-test") offline initial_state).
    constructor.
  - refine (proj1 (Hhandler sample_env (post (request_body spec_request)) offline
                     initial_state
                     (trace (snd (handler OpenAI sample_env
                                    (post (request_body spec_request)) offline
                                    initial_state)))
                     _ NetworkError eq_refl _ _)).
    + vm_compute.
      exact (or_intror (or_intror (or_intror (or_intror (or_intror (or_intror
               (or_intror (or_introl eq_refl)))))))).
    + constructor.
Defined.

(** The token routine on a warm cache, and on a cold one when the exchange
    is answered. *)
Lemma token_cache_witness :
  (fst (getRedditAccessToken OpenAI (lit "id") (lit "secret")
          (healthy (lit "{}")) warm_state)
   = Ok (JStr (lit "token-0"))
   /\ redditToken (snd (getRedditAccessToken OpenAI (lit "id") (lit "secret")
                          (healthy (lit "{}")) warm_state))
      = redditToken warm_state
   /\ trace (snd (getRedditAccessToken OpenAI (lit "id") (lit "secret")
                    (healthy (lit "{}")) warm_state))
      = [Invoke GetRedditAccessToken])
  /\ (fst (getRedditAccessToken OpenAI (lit "id") (lit "secret")
             (healthy (lit "{}")) initial_state)
      = Ok (JStr (lit "token-1"))
      /\ redditToken (snd (getRedditAccessToken OpenAI (lit "id") (lit "secret")
                             (healthy (lit "{}")) initial_state))
         = {| value := JStr (lit "token-1"); expires := 3000000 |}).
Proof.
  split.
  - apply (proj1 (token_cache_serves_or_refreshes OpenAI (lit "id") (lit "secret")
                    (healthy (lit "{}")) warm_state)).
    reflexivity.
  - apply (proj2 (proj1 (proj2 (token_cache_serves_or_refreshes OpenAI (lit "id")
                                  (lit "secret") (healthy (lit "{}"))
                                  initial_state))
                   eq_refl)).
    reflexivity.
Defined.

(** The token routine on a cold cache when nothing answers. *)
Lemma failed_exchange_witness :
  redditToken (snd (getRedditAccessToken OpenAI (lit "id") (lit "secret")
                      offline initial_state))
  = redditToken initial_state
  /\ (cache_valid offline initial_state = false ->
      fst (getRedditAccessToken OpenAI (lit "id") (lit "secret")
             offline initial_state) = Ok JNull).
Proof.
  apply (proj1 (failed_exchange_leaves_the_cache OpenAI (lit "id") (lit "secret")
                  offline initial_state)).
  left. reflexivity.
Defined.



(** One top video, one channel with one video, no subreddit. *)
Lemma prompt_sections_witness :
  exists a g top competitors reddit,
    masterPrompt OpenAI (JStr (lit "fitness beginners"))
      (JStr (lit "grow a YouTube channel"))
      [{| title := JStr (lit "Full body workout") |}]
      [{| channel := JStr (lit "Athlean-X");
          videos := [{| title := JStr (lit "Full body workout") |}] |}]
      []
    = Ok (fill_template OpenAI a g top competitors reddit)
    /\ or_placeholder OpenAI top = lit "Full body workout"
    /\ or_placeholder OpenAI competitors = lit "Athlean-X: Full body workout"
    /\ or_placeholder OpenAI reddit = lit "No data collected.".
Proof.
  destruct (prompt_sections_are_never_empty OpenAI
              (JStr (lit "fitness beginners"))
              (JStr (lit "grow a YouTube channel"))
              [{| title := JStr (lit "Full body workout") |}]
              [{| channel := JStr (lit "Athlean-X");
                  videos := [{| title := JStr (lit "Full body workout") |}] |}]
              [])
    as (a & g & top & competitors & reddit & Etop & Ec & Er & Eprompt & _).
  - eexists; reflexivity.
  - eexists; reflexivity.
  - repeat constructor.
  - repeat constructor. eexists; reflexivity.
  - constructor.
  - exists a, g, top, competitors, reddit. split; [exact Eprompt|].
    inversion Etop; subst. inversion Ec; subst. inversion Er; subst.
    repeat split; reflexivity.
Defined.

(** C8 as stated fails: a channel that yielded no video still has its
    line, so the competitor section is ["Athlean-X: "] and not the
    placeholder; this is the prompt of the end-to-end request when nothing
    answers. *)
Lemma channel_without_videos_gets_no_placeholder :
  videos {| channel := JStr (lit "Athlean-X"); videos := [] |} = []
  /\ competitorVideoTitles [{| channel := JStr (lit "Athlean-X"); videos := [] |}]
     = Ok (lit "Athlean-X: ")
  /\ or_placeholder OpenAI (lit "Athlean-X: ") = lit "Athlean-X: "
  /\ lit "Athlean-X: " <> placeholder OpenAI
  /\ masterPrompt OpenAI (JStr (lit "fitness beginners"))
       (JStr (lit "grow a YouTube channel")) []
       [{| channel := JStr (lit "Athlean-X"); videos := [] |}] []
     = Ok (openai_prompt_head ++ lit "fitness beginners"
           ++ openai_prompt_after_audience ++ lit "grow a YouTube channel"
           ++ openai_prompt_after_goal ++ lit "No data collected."
           ++ openai_prompt_after_top_videos ++ lit "Athlean-X: "
           ++ openai_prompt_after_competitors ++ lit "No data collected."
           ++ openai_prompt_tail).
Proof. repeat split; try reflexivity. discriminate. Qed.

(** C4 on the code.  A query with a lone surrogate makes the keyword search
    throw, because its URL is built before the [try], and the handler then
    answers 500 although no upstream call failed; and the channel and
    subreddit clients, which do not test the status, return the titles of a
    body sent with a non-OK status, where the keyword search returns the
    empty list. *)
Theorem fetchers_do_not_always_degrade_to_empty :
  fst (searchYouTubeVideos [55357%N] (lit "yt-key") 3 (healthy (lit "{}"))
         initial_state)
  = Throw URIError
  /\ fst (handler OpenAI sample_env
            (post (request_body {| sr_audience := [55357%N];
                                   sr_goal := lit "grow";
                                   sr_channels := [];
                                   sr_subreddits := [] |}))
            (healthy (lit "{}")) initial_state)
     = Ok (internal_error URIError)
  /\ fst (searchYouTubeVideos (lit "fitness") (lit "yt-key") 3 refusing
            initial_state)
     = Ok []
  /\ fst (getChannelVideos (JStr (lit "Athlean-X")) (lit "yt-key") 3 refusing
            initial_state)
     = Ok [{| title := JStr (lit "Full body workout") |}]
  /\ fst (getSubredditPosts OpenAI (lit "fitness") (JStr (lit "token-1")) 3
            refusing initial_state)
     = Ok [{| title := JStr (lit "Daily simple questions") |}].
Proof. repeat split; vm_compute; reflexivity. Qed.

End Examples.

(* ================================================================== *)
(** * Further properties of the code *)

(* ------------------------------------------------------------------ *)
(** ** Configuration and the token routine *)

Section Configuration.
Context {num : JsNumbers} {codec : JsonCodec}.

(** X1.  A POST that passes validation while one of the four secrets the
    variant reads is unset or empty is answered 500 with the text "Server
    configuration error." and no details, and the state is the one before
    the call: the rejection precedes every upstream request and every
    reading of the clock (lines 116-120, 317-321). *)
Theorem missing_secret_is_a_configuration_error (v : Variant) (env : Env)
  (b : JVal) (w : World) (st : State) :
  passes_validation b = true -> secrets_present v env = false ->
  handler v env (post b) w st
  = (Ok {| status := 500; headers := cors_headers;
           payload := ErrorBody (lit "Server configuration error.") None |}, st).
Proof.
  unfold passes_validation, secrets_present. intros Hb Henv.
  apply andb_prop in Hb. destruct Hb as [Hb Hs].
  apply andb_prop in Hb. destruct Hb as [Hb Hc].
  apply andb_prop in Hb. destruct Hb as [Ha Hg].
  rewrite handler_post, Ha, Hg, Hc, Hs. cbn [negb orb]. unfold try_catch.
  destruct (configured (YOUTUBE_API_KEY env)); [|reflexivity].
  destruct (configured (REDDIT_CLIENT_ID env)); [|reflexivity].
  destruct (configured (REDDIT_CLIENT_SECRET env)); [|reflexivity].
  destruct (configured (llm_api_key v env)); [discriminate|reflexivity].
Qed.

(** X2.  The token routine never throws: it returns [null] or a truthy
    token, and a cache that is initial or holds a truthy token is still so
    afterwards (lines 38-56). *)
Theorem token_routine_returns_null_or_a_token (v : Variant)
  (clientId clientSecret : jsstring) (w : World) (st : State) :
  exists token,
    fst (getRedditAccessToken v clientId clientSecret w st) = Ok token
    /\ (token = JNull \/ truthy token = true)
    /\ (cache_ok (redditToken st) ->
        cache_ok (redditToken (snd (getRedditAccessToken v clientId clientSecret
                                      w st)))).
Proof.
  destruct (cache_valid w st) eqn:Hc.
  - rewrite (getRedditAccessToken_cached _ _ _ _ _ Hc).
    unfold cache_valid in Hc. apply andb_prop in Hc. destruct Hc as [Hv _].
    eexists. split; [reflexivity|]. split; [right; exact Hv|].
    intros H. exact H.
  - rewrite (getRedditAccessToken_exchange _ _ _ _ _ Hc). cbv zeta.
    destruct (granted_token
                (respond w (trace st ++ [Invoke GetRedditAccessToken])
                   (token_request v clientId clientSecret))) as [t|] eqn:E.
    + eexists. split; [reflexivity|].
      split; [right; exact (granted_token_truthy _ _ E)|].
      intros _. right. exact (granted_token_truthy _ _ E).
    + eexists. split; [reflexivity|]. split; [left; reflexivity|].
      intros H. exact H.
Qed.

(** X3.  Store, then look up, within one file.  After an exchange that was
    answered with a token, a further call of the same routine made before
    the stored expiry, with whatever credentials, returns that same token,
    issues no request and leaves the cache as it is: the cache is not keyed
    by the credentials (lines 36-51, 216-242). *)
Theorem granted_token_is_served_until_it_expires (v : Variant)
  (clientId clientSecret clientId' clientSecret' : jsstring) (w : World)
  (st : State) (token : JVal) :
  cache_valid w st = false ->
  granted_token (respond w (trace st ++ [Invoke GetRedditAccessToken])
                   (token_request v clientId clientSecret)) = Some token ->
  let st1 := snd (getRedditAccessToken v clientId clientSecret w st) in
  (clock w (ticks st1) < expires (redditToken st1))%Z ->
  getRedditAccessToken v clientId' clientSecret' w st1
  = (Ok token,
     {| redditToken := redditToken st1;
        trace := trace st1 ++ [Invoke GetRedditAccessToken];
        ticks := S (ticks st1) |}).
Proof.
  intros Hc Hgrant st1 Hfresh.
  assert (Hv : value (redditToken st1) = token).
  { unfold st1. rewrite (getRedditAccessToken_exchange _ _ _ _ _ Hc). cbv zeta.
    rewrite Hgrant. reflexivity. }
  assert (Hvalid : cache_valid w st1 = true).
  { unfold cache_valid. rewrite Hv, (granted_token_truthy _ _ Hgrant).
    cbn [andb]. apply Z.gtb_lt. exact Hfresh. }
  rewrite (getRedditAccessToken_cached _ _ _ _ _ Hvalid), Hv. reflexivity.
Qed.

End Configuration.

(* ------------------------------------------------------------------ *)
(** ** The text of the request in the URLs *)

(** One more case of the scrutinee the goal is stuck on. *)
Ltac split_case :=
  match goal with
  | |- context [match ?x with _ => _ end] =>
      lazymatch x with
      | context [match _ with _ => _ end] => fail
      | _ => destruct x eqn:?
      end
  end.

Ltac unfold_ops :=
  unfold try_catch, bind, liftR, ret, throw, response_json, fetch, log, extend;
  cbv zeta; cbn [trace redditToken ticks negb rbind].

Section Urls.
Context {num : JsNumbers} {codec : JsonCodec}.

Lemma delimiter_cases (c : N) :
  url_delimiter c = true ->
  (c = 38 \/ c = 61 \/ c = 63 \/ c = 35 \/ c = 47 \/ c = 32 \/ c = 43)%N.
Proof.
  unfold url_delimiter. intros H. apply existsb_exists in H.
  destruct H as (x & Hin & E). apply N.eqb_eq in E. subst x.
  cbn [In] in Hin. intuition.
Qed.

Lemma unreserved_is_no_delimiter (c : N) :
  uri_unreserved c = true -> url_delimiter c = false.
Proof.
  intros H. destruct (url_delimiter c) eqn:D; [|reflexivity].
  destruct (delimiter_cases c D) as [E|[E|[E|[E|[E|[E|E]]]]]]; subst c;
    discriminate H.
Qed.

Lemma hex_digit_is_no_delimiter (d : N) : url_delimiter (hex_digit d) = false.
Proof.
  destruct (url_delimiter (hex_digit d)) eqn:D; [|reflexivity].
  apply delimiter_cases in D. unfold hex_digit in D.
  destruct (N.ltb_spec d 10); lia.
Qed.

Lemma percent_is_no_delimiter (byte : N) :
  Forall (fun c => url_delimiter c = false) (percent byte).
Proof.
  unfold percent. repeat constructor; apply hex_digit_is_no_delimiter.
Qed.

Lemma flat_map_Forall {A B} (P : B -> Prop) (f : A -> list B) (l : list A) :
  (forall x, Forall P (f x)) -> Forall P (flat_map f l).
Proof.
  intros H. induction l as [|x t IHt]; cbn [flat_map]; [constructor|].
  apply Forall_app. split; [apply H | exact IHt].
Qed.

Lemma encoded_has_no_delimiter (s enc : jsstring) :
  encodeURIComponent s = Ok enc -> Forall (fun c => url_delimiter c = false) enc.
Proof.
  unfold encodeURIComponent. destruct (code_points s) as [cps|]; [|discriminate].
  intros E. inversion E; subst. apply flat_map_Forall. intros cp.
  unfold encode_code_point. destruct (uri_unreserved cp) eqn:U.
  - constructor; [apply unreserved_is_no_delimiter; exact U | constructor].
  - apply flat_map_Forall. apply percent_is_no_delimiter.
Qed.

Lemma no_surrogate_is_well_formed (s : jsstring) :
  Forall (fun u => is_high_surrogate u = false /\ is_low_surrogate u = false) s ->
  well_formed s = true.
Proof.
  unfold well_formed. induction 1 as [|u t [Hh Hl] Ht IHt]; [reflexivity|].
  cbn [code_points]. rewrite Hl, Hh.
  destruct (code_points t); [reflexivity|discriminate].
Qed.

(** X4.  The keyword search of a well-formed query issues exactly one
    request, whatever it is answered: a GET of the fixed search URL in which
    the query stands percent-encoded as the value of [q], free of [&], [=],
    [?], [#], [/], space and [+]; the text of the request cannot add or end
    a parameter (lines 5-8).  A query without surrogate code units is well
    formed. *)
Theorem keyword_search_sends_the_query_encoded (query apiKey : jsstring)
  (n : N) (w : World) (st : State) :
  well_formed query = true ->
  exists enc,
    encodeURIComponent query = Ok enc
    /\ Forall (fun c => url_delimiter c = false) enc
    /\ let q :=
         {| req_url :=
              lit "https://www.googleapis.com/youtube/v3/search?part=snippet"
              ++ lit "&q=" ++ enc
              ++ lit "&type=video&order=relevance&maxResults=" ++ N_to_js n
              ++ lit "&key=" ++ apiKey;
            req_method := lit "GET";
            req_headers := [];
            req_body := None |} in
       trace (snd (searchYouTubeVideos query apiKey n w st))
       = trace st
         ++ [Invoke SearchYouTubeVideos;
             Fetch SearchYouTubeVideos q
               (respond w (trace st ++ [Invoke SearchYouTubeVideos]) q)].
Proof.
  intros Hwf. unfold well_formed in Hwf.
  destruct (encodeURIComponent query) as [enc|e] eqn:E.
  2:{ unfold encodeURIComponent in E. destruct (code_points query); discriminate. }
  exists enc. split; [reflexivity|].
  split; [exact (encoded_has_no_delimiter _ _ E)|].
  cbv zeta. unfold searchYouTubeVideos. unfold_ops. rewrite E. unfold_ops.
  change (http_get ?u []) with
    {| req_url := u; req_method := lit "GET"; req_headers := []; req_body := None |}.
  change youtube_search_url
    with (lit "https://www.googleapis.com/youtube/v3/search?part=snippet").
  repeat (split_case; unfold_ops); rewrite <- app_assoc; reflexivity.
Qed.

End Urls.

(* ------------------------------------------------------------------ *)
(** ** The number of requests a call can issue *)

Section Budget.
Context {num : JsNumbers} {codec : JsonCodec}.

Lemma requests_app (a b : list Event) :
  requests (a ++ b) = requests a + requests b.
Proof. unfold requests. rewrite filter_app, length_app. reflexivity. Qed.

Lemma spends_silent {A} (m : M A) :
  (forall w st, trace (snd (m w st)) = trace st) -> spends 0 m.
Proof.
  intros H w st. exists []. rewrite H, app_nil_r. split; [reflexivity|].
  cbn. lia.
Qed.

Lemma spends_at_most {A} (n n' : nat) (m : M A) :
  spends n m -> n <= n' -> spends n' m.
Proof.
  intros H Hle w st. destruct (H w st) as (evs & E & L).
  exists evs. split; [exact E | lia].
Qed.

Lemma spends_log_invoke (r : Routine) : spends 0 (log (Invoke r)).
Proof. intros w st. exists [Invoke r]. split; [reflexivity | cbn; lia]. Qed.

Lemma spends_fetch (r : Routine) (q : Request) : spends 1 (fetch r q).
Proof.
  intros w st. exists [Fetch r q (respond w (trace st) q)]. unfold fetch.
  destruct (respond w (trace st) q); split; try reflexivity; cbn; lia.
Qed.

Lemma spends_response_json (resp : Response) : spends 0 (response_json resp).
Proof.
  apply spends_silent. intros w st. unfold response_json.
  destruct (json resp); reflexivity.
Qed.

Lemma spends_bind {A B} (a b : nat) (m : M A) (k : A -> M B) :
  spends a m -> (forall x, spends b (k x)) -> spends (a + b) (bind m k).
Proof.
  intros Hm Hk w st. unfold bind. destruct (Hm w st) as (e1 & E1 & L1).
  destruct (m w st) as [[x|e] st1]; cbn [snd] in *.
  - destruct (Hk x w st1) as (e2 & E2 & L2). exists (e1 ++ e2).
    rewrite E2, E1, app_assoc, requests_app. split; [reflexivity | lia].
  - exists e1. split; [exact E1 | lia].
Qed.

Lemma spends_bind_liftR {A B} (n : nat) (r : Result A) (k : A -> M B) :
  (forall x, r = Ok x -> spends n (k x)) -> spends n (bind (liftR r) k).
Proof.
  intros Hk w st. unfold bind, liftR. destruct r as [x|e].
  - exact (Hk x eq_refl w st).
  - exists []. cbn [snd]. rewrite app_nil_r. split; [reflexivity | cbn; lia].
Qed.

Lemma spends_try_catch {A} (a b : nat) (m : M A) (h : JsError -> M A) :
  spends a m -> (forall e, spends b (h e)) -> spends (a + b) (try_catch m h).
Proof.
  intros Hm Hh w st. unfold try_catch. destruct (Hm w st) as (e1 & E1 & L1).
  destruct (m w st) as [[x|e] st1]; cbn [snd] in *.
  - exists e1. split; [exact E1 | lia].
  - destruct (Hh e w st1) as (e2 & E2 & L2). exists (e1 ++ e2).
    rewrite E2, E1, app_assoc, requests_app. split; [reflexivity | lia].
Qed.

Lemma spends_settle {A} (n : nat) (m : M A) : spends n m -> spends n (settle m).
Proof.
  intros Hm w st. unfold settle. destruct (Hm w st) as (evs & E & L).
  destruct (m w st) as [r st1]. exists evs. split; [exact E | exact L].
Qed.

Lemma spends_if {A} (a b : nat) (c : bool) (m1 m2 : M A) :
  spends a m1 -> spends b m2 -> spends (a + b) (if c then m1 else m2).
Proof.
  intros H1 H2. destruct c;
    [apply (spends_at_most a) | apply (spends_at_most b)]; auto; lia.
Qed.

Lemma spends_mapM {A B} (b : nat) (f : A -> M B) (l : list A) :
  (forall x, spends b (f x)) -> spends (List.length l * b) (mapM f l).
Proof.
  intros Hf. induction l as [|x t IHt]; cbn [mapM List.length].
  - apply spends_silent. reflexivity.
  - apply (spends_at_most (b + (List.length t * b + 0))); [|lia].
    apply spends_bind; [apply Hf|]. intros y.
    apply spends_bind; [exact IHt|]. intros ys. apply spends_silent. reflexivity.
Qed.

Ltac spend_step :=
  lazymatch goal with
  | |- spends _ (bind _ _) => eapply spends_bind; [|intros ?]
  | |- spends _ (try_catch _ _) => eapply spends_try_catch; [|intros ?]
  | |- spends _ (settle _) => eapply spends_settle
  | |- spends _ (if _ then _ else _) => eapply spends_if
  | |- spends _ (fetch _ _) => apply spends_fetch
  | |- spends _ (log (Invoke _)) => apply spends_log_invoke
  | |- spends _ (response_json _) => apply spends_response_json
  | |- spends _ _ => apply spends_silent; intros; reflexivity
  end.

Lemma spends_searchYouTubeVideos (query apiKey : jsstring) (n : N) :
  spends 1 (searchYouTubeVideos query apiKey n).
Proof.
  eapply spends_at_most; [unfold searchYouTubeVideos; repeat spend_step|].
  cbn. lia.
Qed.

Lemma spends_getChannelVideos (c : JVal) (apiKey : jsstring) (n : N) :
  spends 2 (getChannelVideos c apiKey n).
Proof.
  eapply spends_at_most; [unfold getChannelVideos; repeat spend_step|].
  cbn. lia.
Qed.

Lemma spends_cached_token_valid (cached : TokenCache) :
  spends 0 (cached_token_valid cached).
Proof.
  apply spends_silent. intros w st. unfold cached_token_valid.
  destruct (truthy (value cached)); reflexivity.
Qed.

Lemma spends_getRedditAccessToken (v : Variant) (clientId clientSecret : jsstring) :
  spends 1 (getRedditAccessToken v clientId clientSecret).
Proof.
  eapply spends_at_most.
  - unfold getRedditAccessToken. spend_step; [spend_step|].
    spend_step; [spend_step|]. spend_step; [apply spends_cached_token_valid|].
    repeat spend_step.
  - cbn. lia.
Qed.

Lemma spends_getSubredditPosts (v : Variant) (name : jsstring) (token : JVal)
  (n : N) :
  spends 1 (getSubredditPosts v name token n).
Proof.
  eapply spends_at_most; [unfold getSubredditPosts; repeat spend_step|].
  cbn. lia.
Qed.

Lemma spends_synthesize (v : Variant) (prompt apiKey : jsstring) :
  spends 1 (synthesize v prompt apiKey).
Proof.
  destruct v; cbn [synthesize];
    (eapply spends_at_most;
     [unfold callOpenAI_API, callGeminiAPI; repeat spend_step | cbn; lia]).
Qed.

Lemma spends_collect_channels (apiKey : jsstring) (channels : list JVal) :
  spends (2 * List.length channels) (collect_channels apiKey channels).
Proof.
  eapply spends_at_most.
  - unfold collect_channels. eapply spends_bind; [|intros ?; spend_step].
    apply (spends_mapM (2 + 0)). intros c. apply spends_settle.
    apply spends_bind; [apply spends_getChannelVideos|]. intros vs. spend_step.
  - lia.
Qed.

Lemma spends_collect_subreddits (v : Variant) (token : JVal)
  (subreddits : list JVal) :
  spends (List.length subreddits) (collect_subreddits v token subreddits).
Proof.
  eapply spends_at_most.
  - unfold collect_subreddits. eapply spends_bind; [|intros ?; spend_step].
    apply (spends_mapM (0 + (1 + 0))). intros sub.
    apply spends_bind; [spend_step|]. intros name. apply spends_settle.
    apply spends_bind; [apply spends_getSubredditPosts|]. intros ps. spend_step.
  - lia.
Qed.

Lemma spends_collect_reddit (v : Variant) (clientId clientSecret : jsstring)
  (subreddits : list JVal) :
  spends (1 + List.length subreddits)
    (collect_reddit v clientId clientSecret subreddits).
Proof.
  eapply spends_at_most.
  - unfold collect_reddit.
    eapply spends_bind; [apply spends_getRedditAccessToken|]. intros token.
    eapply spends_if; [apply spends_collect_subreddits | spend_step].
  - lia.
Qed.

Lemma spends_collect (v : Variant) (query youtubeKey clientId clientSecret
  : jsstring) (channels subreddits : list JVal) :
  spends (2 + 2 * List.length channels + List.length subreddits)
    (collect v query youtubeKey clientId clientSecret channels subreddits).
Proof.
  eapply spends_at_most.
  - unfold collect.
    eapply spends_bind;
      [apply spends_settle; apply spends_searchYouTubeVideos|]. intros top.
    eapply spends_bind;
      [apply spends_settle; apply spends_collect_channels|]. intros competitors.
    eapply spends_bind;
      [apply spends_settle; apply spends_collect_reddit|]. intros reddit.
    spend_step.
  - lia.
Qed.

Lemma spends_run_pipeline (v : Variant) (audience goal : JVal)
  (channels subreddits : list JVal) (youtubeKey clientId clientSecret llmKey
  : jsstring) :
  spends (3 + 2 * List.length channels + List.length subreddits)
    (run_pipeline v audience goal channels subreddits youtubeKey clientId
       clientSecret llmKey).
Proof.
  eapply spends_at_most.
  - unfold run_pipeline. spend_step; [spend_step|]. spend_step; [spend_step|].
    eapply spends_bind; [apply spends_collect|]. intros [[top competitors] reddit].
    spend_step; [spend_step|].
    eapply spends_bind; [apply spends_synthesize|]. intros answer. spend_step.
  - lia.
Qed.

(** X5.  Whatever the request, the environment and the answers of the
    upstream services, one call of the handler issues at most three
    requests (keyword search, token exchange, synthesis), two more for each
    competitor channel and one more for each subreddit of the body
    (lines 124-130, 165). *)
Theorem handler_request_budget (v : Variant) (env : Env) (req : IncomingRequest) :
  spends
    (3
     + 2 * List.length (elements (field (body req) (lit "competitorYouTubeChannels")))
     + List.length (elements (field (body req) (lit "relevantSubreddits"))))
    (handler v env req).
Proof.
  unfold handler.
  destruct (str_eqb (method req) (lit "OPTIONS"));
    [eapply spends_at_most; [spend_step | lia]|].
  destruct (negb (str_eqb (method req) (lit "POST")));
    [eapply spends_at_most; [spend_step | lia]|].
  cbv zeta. unfold field.
  eapply spends_at_most; [eapply spends_try_catch; [|intros e; spend_step]|].
  2:{ rewrite Nat.add_0_r. apply Nat.le_refl. }
  apply spends_bind_liftR. intros audience _.
  apply spends_bind_liftR. intros goal _.
  apply spends_bind_liftR. intros channels Ec. rewrite Ec.
  apply spends_bind_liftR. intros subreddits Es. rewrite Es.
  match goal with
  | |- spends _ (if ?c then _ else _) => destruct c
  end; [eapply spends_at_most; [spend_step | lia]|].
  destruct (configured (YOUTUBE_API_KEY env));
    [|eapply spends_at_most; [spend_step | lia]].
  destruct (configured (REDDIT_CLIENT_ID env));
    [|eapply spends_at_most; [spend_step | lia]].
  destruct (configured (REDDIT_CLIENT_SECRET env));
    [|eapply spends_at_most; [spend_step | lia]].
  destruct (configured (llm_api_key v env));
    [|eapply spends_at_most; [spend_step | lia]].
  apply spends_run_pipeline.
Qed.

End Budget.

(* ------------------------------------------------------------------ *)
(** ** What a call returns and what it throws *)

Section Outcomes.
Context {num : JsNumbers} {codec : JsonCodec}.

Lemma settled_with_weaken {A} (Q Q' : A -> Prop) (P P' : JsError -> Prop)
  (r : Result A) :
  (forall a, Q a -> Q' a) -> (forall e, P e -> P' e) ->
  settled_with Q P r -> settled_with Q' P' r.
Proof. intros HQ HP. destruct r; cbn [settled_with]; auto. Qed.

Lemma settled_with_rbind {A B} (Q1 : A -> Prop) (Q : B -> Prop)
  (P : JsError -> Prop) (r : Result A) (k : A -> Result B) :
  settled_with Q1 P r -> (forall x, Q1 x -> settled_with Q P (k x)) ->
  settled_with Q P (rbind r k).
Proof. destruct r; cbn [settled_with rbind]; auto. Qed.

Lemma settled_with_mapR {A B} (Q : B -> Prop) (P : JsError -> Prop)
  (f : A -> Result B) (l : list A) :
  Forall (fun x => settled_with Q P (f x)) l ->
  settled_with (Forall Q) P (mapR f l).
Proof.
  induction 1 as [|x t Hx Ht IHt]; cbn [mapR]; [constructor|].
  eapply settled_with_rbind; [exact Hx|]. intros y Qy.
  eapply settled_with_rbind; [exact IHt|]. intros ys Qys.
  constructor; assumption.
Qed.

Lemma Promise_all_settled {A} (Q : A -> Prop) (P : JsError -> Prop)
  (settled : list (Result A)) :
  Forall (settled_with Q P) settled ->
  settled_with (Forall Q) P (Promise_all settled).
Proof. intros H. unfold Promise_all. apply settled_with_mapR. exact H. Qed.

Lemma Promise_all3_settled {A B C} (P : JsError -> Prop)
  (a : Result A) (b : Result B) (c : Result C) :
  settled_with (fun _ => True) P a -> settled_with (fun _ => True) P b ->
  settled_with (fun _ => True) P c ->
  settled_with (fun _ => True) P (Promise_all3 a b c).
Proof.
  intros Ha Hb Hc. unfold Promise_all3.
  destruct a, b, c; cbn [rbind settled_with] in *; auto.
Qed.

(** The conversions of the language throw one kind of error each. *)
Lemma Array_join_throws (sep : jsstring) (elems : list JVal) :
  Forall (fun x => settled_with (fun _ => True) (eq TypeError) (ToString x)) elems ->
  settled_with (fun _ => True) (eq TypeError) (Array_join sep elems).
Proof.
  intros Hall. unfold Array_join.
  eapply settled_with_rbind with (Q1 := Forall (fun _ => True)); [|intros; exact I].
  apply settled_with_mapR. eapply Forall_impl; [|exact Hall].
  intros x Hx. destruct (nullish x); [exact I | exact Hx].
Qed.

Lemma ToString_throws (v : JVal) :
  settled_with (fun _ => True) (eq TypeError) (ToString v).
Proof.
  induction v as [| |b|n|s|elems IH|props IH] using JVal_induction;
    try exact I.
  - destruct b; exact I.
  - rewrite ToString_array. apply Array_join_throws. exact IH.
  - cbn [ToString]. destruct (has_own_property (lit "toString") props);
      [reflexivity | exact I].
Qed.

Lemma get_throws (v : JVal) (k : jsstring) :
  settled_with (fun _ => True) (eq TypeError) (get v k).
Proof.
  destruct v; cbn [get]; try exact I; try reflexivity.
  destruct (own_property k props); exact I.
Qed.

Lemma call_replace_throws (v : JVal) (pat rep : jsstring) :
  settled_with (fun _ => True) (eq TypeError) (call_replace v pat rep).
Proof. destruct v; cbn [call_replace]; try exact I; reflexivity. Qed.

Lemma encodeURIComponent_throws (s : jsstring) :
  settled_with (fun _ => True) (eq URIError) (encodeURIComponent s).
Proof.
  unfold encodeURIComponent. destruct (code_points s); [exact I | reflexivity].
Qed.

Lemma titles_joined_throws (vs : list VideoResult) :
  settled_with (fun _ => True) (eq TypeError) (titles_joined vs).
Proof.
  unfold titles_joined. apply Array_join_throws.
  apply Forall_forall. intros x _. apply ToString_throws.
Qed.

Lemma masterPrompt_throws (v : Variant) (audience goal : JVal)
  (topVideos : list VideoResult) (competitorVideosData : list ChannelVideos)
  (redditPostsData : list SubredditPosts) :
  settled_with (fun _ => True) (eq TypeError)
    (masterPrompt v audience goal topVideos competitorVideosData redditPostsData).
Proof.
  unfold masterPrompt, topVideoTitles, competitorVideoTitles, redditPostTitles.
  eapply settled_with_rbind; [apply titles_joined_throws|]. intros top _.
  eapply settled_with_rbind with (Q1 := fun _ => True).
  { eapply settled_with_rbind with (Q1 := Forall (fun _ => True)); [|intros; exact I].
    apply settled_with_mapR. apply Forall_forall. intros c _.
    unfold competitor_line.
    eapply settled_with_rbind; [apply ToString_throws|]. intros name _.
    eapply settled_with_rbind; [apply titles_joined_throws|]. intros; exact I. }
  intros competitors _.
  eapply settled_with_rbind with (Q1 := fun _ => True).
  { eapply settled_with_rbind with (Q1 := Forall (fun _ => True)); [|intros; exact I].
    apply settled_with_mapR. apply Forall_forall. intros c _.
    unfold subreddit_line.
    eapply settled_with_rbind; [apply ToString_throws|]. intros name _.
    eapply settled_with_rbind; [apply titles_joined_throws|]. intros; exact I. }
  intros reddit _.
  eapply settled_with_rbind; [apply ToString_throws|]. intros a _.
  eapply settled_with_rbind; [apply ToString_throws|]. intros g _. exact I.
Qed.

Lemma ensures_weaken {A} (Q Q' : A -> Prop) (P P' : JsError -> Prop) (m : M A) :
  (forall a, Q a -> Q' a) -> (forall e, P e -> P' e) ->
  ensures Q P m -> ensures Q' P' m.
Proof.
  intros HQ HP H w st. specialize (H w st).
  destruct (fst (m w st)); auto.
Qed.

Lemma ensures_any {A} (m : M A) : ensures (fun _ => True) (fun _ => True) m.
Proof. intros w st. destruct (fst (m w st)); exact I. Qed.

Lemma ensures_ret {A} (Q : A -> Prop) (P : JsError -> Prop) (a : A) :
  Q a -> ensures Q P (ret a).
Proof. intros H w st. exact H. Qed.

Lemma ensures_liftR {A} (Q : A -> Prop) (P : JsError -> Prop) (r : Result A) :
  settled_with Q P r -> ensures Q P (liftR r).
Proof. intros H w st. exact H. Qed.

Lemma ensures_log (P : JsError -> Prop) (e : Event) :
  ensures (fun _ => True) P (log e).
Proof. intros w st. exact I. Qed.

Lemma ensures_bind {A B} (Q1 : A -> Prop) (Q : B -> Prop) (P : JsError -> Prop)
  (m : M A) (k : A -> M B) :
  ensures Q1 P m -> (forall x, Q1 x -> ensures Q P (k x)) ->
  ensures Q P (bind m k).
Proof.
  intros Hm Hk w st. specialize (Hm w st). unfold bind.
  destruct (m w st) as [[x|e] st1]; cbn [fst] in *; [exact (Hk x Hm w st1) | exact Hm].
Qed.

Lemma ensures_try_catch {A} (Q : A -> Prop) (P1 P : JsError -> Prop)
  (m : M A) (h : JsError -> M A) :
  ensures Q P1 m -> (forall e, P1 e -> ensures Q P (h e)) ->
  ensures Q P (try_catch m h).
Proof.
  intros Hm Hh w st. specialize (Hm w st). unfold try_catch.
  destruct (m w st) as [[x|e] st1]; cbn [fst] in *; [exact Hm | exact (Hh e Hm w st1)].
Qed.

Lemma ensures_settle {A} (Q : A -> Prop) (P1 P : JsError -> Prop) (m : M A) :
  ensures Q P1 m -> ensures (settled_with Q P1) P (settle m).
Proof.
  intros Hm w st. specialize (Hm w st). unfold settle.
  destruct (m w st) as [r st1]. exact Hm.
Qed.

Lemma ensures_mapM {A B} (Q : B -> Prop) (P : JsError -> Prop) (f : A -> M B)
  (l : list A) :
  (forall x, ensures Q P (f x)) -> ensures (Forall Q) P (mapM f l).
Proof.
  intros Hf. induction l as [|x t IHt]; cbn [mapM].
  - apply ensures_ret. constructor.
  - eapply ensures_bind; [apply Hf|]. intros y Qy.
    eapply ensures_bind; [exact IHt|]. intros ys Qys.
    apply ensures_ret. constructor; assumption.
Qed.

(** The keyword search rejects only with the URIError of its query. *)
Lemma searchYouTubeVideos_throws (query apiKey : jsstring) (n : N) :
  ensures (fun _ => True) (eq URIError) (searchYouTubeVideos query apiKey n).
Proof.
  unfold searchYouTubeVideos.
  eapply ensures_bind; [apply ensures_log|]. intros _ _.
  eapply ensures_bind;
    [apply ensures_liftR; apply encodeURIComponent_throws|]. intros q _.
  eapply ensures_try_catch; [apply ensures_any|]. intros e _.
  apply ensures_ret. exact I.
Qed.

(** The channel lookup rejects only when its [catch] cannot print the
    channel. *)
Lemma getChannelVideos_throws (c : JVal) (apiKey : jsstring) (n : N) :
  ensures (fun _ => True) (eq TypeError) (getChannelVideos c apiKey n).
Proof.
  unfold getChannelVideos.
  eapply ensures_bind; [apply ensures_log|]. intros _ _.
  eapply ensures_try_catch; [apply ensures_any|]. intros e _.
  eapply ensures_bind; [apply ensures_liftR; apply ToString_throws|].
  intros s _. apply ensures_ret. exact I.
Qed.

Lemma cached_token_valid_returns (P : JsError -> Prop) (cached : TokenCache) :
  ensures (fun _ => True) P (cached_token_valid cached).
Proof.
  intros w st. unfold cached_token_valid.
  destruct (truthy (value cached)); exact I.
Qed.

Lemma getRedditAccessToken_returns (P : JsError -> Prop) (v : Variant)
  (clientId clientSecret : jsstring) :
  ensures (fun _ => True) P (getRedditAccessToken v clientId clientSecret).
Proof.
  unfold getRedditAccessToken.
  eapply ensures_bind; [apply ensures_log|]. intros _ _.
  eapply ensures_bind with (Q1 := fun _ => True); [intros w st; exact I|].
  intros cached _.
  eapply ensures_bind; [apply cached_token_valid_returns|]. intros valid _.
  destruct valid; [apply ensures_ret; exact I|].
  eapply ensures_try_catch; [apply ensures_any|]. intros e _.
  apply ensures_ret. exact I.
Qed.

Lemma getSubredditPosts_throws (v : Variant) (name : jsstring) (token : JVal)
  (n : N) :
  ensures (fun _ => True) (eq TypeError) (getSubredditPosts v name token n).
Proof.
  unfold getSubredditPosts.
  eapply ensures_bind; [apply ensures_log|]. intros _ _. cbv zeta.
  eapply ensures_bind; [apply ensures_liftR; apply ToString_throws|].
  intros bearer _.
  eapply ensures_try_catch; [apply ensures_any|]. intros e _.
  apply ensures_ret. exact I.
Qed.

Lemma synthesize_throws (v : Variant) (prompt apiKey : jsstring) :
  ensures (fun _ => True) (eq (Error (synthesis_failure v)))
    (synthesize v prompt apiKey).
Proof.
  destruct v; cbn [synthesize synthesis_failure];
    unfold callOpenAI_API, callGeminiAPI;
    (eapply ensures_bind; [apply ensures_log|]; intros _ _;
     eapply ensures_try_catch; [apply ensures_any|]; intros e _;
     intros w st; reflexivity).
Qed.

Lemma collect_channels_throws (apiKey : jsstring) (channels : list JVal) :
  ensures (fun _ => True) (eq TypeError) (collect_channels apiKey channels).
Proof.
  unfold collect_channels.
  eapply ensures_bind.
  - apply ensures_mapM with (Q := settled_with (fun _ => True) (eq TypeError)).
    intros c. apply ensures_settle.
    eapply ensures_bind; [apply getChannelVideos_throws|]. intros vs _.
    apply ensures_ret. exact I.
  - intros settled Hall. apply ensures_liftR.
    eapply settled_with_weaken; [| |apply Promise_all_settled; exact Hall];
      auto.
Qed.

Lemma collect_subreddits_throws (v : Variant) (token : JVal)
  (subreddits : list JVal) :
  ensures (fun _ => True) (eq TypeError) (collect_subreddits v token subreddits).
Proof.
  unfold collect_subreddits.
  eapply ensures_bind.
  - apply ensures_mapM with (Q := settled_with (fun _ => True) (eq TypeError)).
    intros sub.
    eapply ensures_bind; [apply ensures_liftR; apply call_replace_throws|].
    intros name _. apply ensures_settle.
    eapply ensures_bind; [apply getSubredditPosts_throws|]. intros ps _.
    apply ensures_ret. exact I.
  - intros settled Hall. apply ensures_liftR.
    eapply settled_with_weaken; [| |apply Promise_all_settled; exact Hall];
      auto.
Qed.

Lemma collect_reddit_throws (v : Variant) (clientId clientSecret : jsstring)
  (subreddits : list JVal) :
  ensures (fun _ => True) (eq TypeError)
    (collect_reddit v clientId clientSecret subreddits).
Proof.
  unfold collect_reddit.
  eapply ensures_bind; [apply getRedditAccessToken_returns|]. intros token _.
  destruct (truthy token);
    [apply collect_subreddits_throws | apply ensures_ret; exact I].
Qed.

Lemma collect_throws (v : Variant) (query youtubeKey clientId clientSecret
  : jsstring) (channels subreddits : list JVal) :
  ensures (fun _ => True) (fun e => e = TypeError \/ e = URIError)
    (collect v query youtubeKey clientId clientSecret channels subreddits).
Proof.
  unfold collect.
  eapply ensures_bind;
    [apply ensures_settle; apply searchYouTubeVideos_throws|]. intros top Ht.
  eapply ensures_bind;
    [apply ensures_settle; apply collect_channels_throws|]. intros competitors Hc.
  eapply ensures_bind;
    [apply ensures_settle; apply collect_reddit_throws|]. intros reddit Hr.
  apply ensures_liftR. apply Promise_all3_settled.
  - eapply settled_with_weaken; [| |exact Ht]; [auto|]. intros e <-. right; reflexivity.
  - eapply settled_with_weaken; [| |exact Hc]; [auto|]. intros e <-. left; reflexivity.
  - eapply settled_with_weaken; [| |exact Hr]; [auto|]. intros e <-. left; reflexivity.
Qed.

Lemma run_pipeline_throws (v : Variant) (audience goal : JVal)
  (channels subreddits : list JVal) (youtubeKey clientId clientSecret llmKey
  : jsstring) :
  ensures (fun reply => exists answer, reply = success answer) (escapes v)
    (run_pipeline v audience goal channels subreddits youtubeKey clientId
       clientSecret llmKey).
Proof.
  unfold run_pipeline, escapes.
  eapply ensures_bind with (Q1 := fun _ => True).
  { apply ensures_liftR. eapply settled_with_weaken; [| |apply ToString_throws]; auto. }
  intros a _.
  eapply ensures_bind with (Q1 := fun _ => True).
  { apply ensures_liftR. eapply settled_with_weaken; [| |apply ToString_throws]; auto. }
  intros g _.
  eapply ensures_bind with (Q1 := fun _ => True).
  { eapply ensures_weaken; [| |apply collect_throws]; [auto|]. intros e [E|E]; auto. }
  intros [[top competitors] reddit] _.
  eapply ensures_bind with (Q1 := fun _ => True).
  { apply ensures_liftR. eapply settled_with_weaken; [| |apply masterPrompt_throws]; auto. }
  intros prompt _.
  eapply ensures_bind with (Q1 := fun _ => True).
  { eapply ensures_weaken; [| |apply synthesize_throws]; [auto|]. intros e <-. auto. }
  intros answer _. apply ensures_ret. exists answer. reflexivity.
Qed.

(** Every reply carries the header that opens the endpoint to any
    origin; the Content-Type of a success is added to the CORS headers. *)
Lemma handler_reply_cors (v : Variant) (reply : Reply) :
  handler_reply v reply ->
  In (lit "Access-Control-Allow-Origin", lit "*") (headers reply).
Proof. intros H. destruct H; vm_compute; auto. Qed.

Lemma handler_replies (v : Variant) (env : Env) (req : IncomingRequest) :
  ensures (handler_reply v) (fun _ => False) (handler v env req).
Proof.
  unfold handler.
  destruct (str_eqb (method req) (lit "OPTIONS"));
    [apply ensures_ret; constructor|].
  destruct (negb (str_eqb (method req) (lit "POST")));
    [apply ensures_ret; constructor|].
  eapply ensures_try_catch with (P1 := escapes v);
    [|intros e He; apply ensures_ret; constructor; exact He].
  cbv zeta.
  assert (Hget : forall b k,
             settled_with (fun _ : JVal => True) (escapes v) (get b k)).
  { intros b k. eapply settled_with_weaken; [| |apply get_throws]; [auto|].
    intros e <-. left. reflexivity. }
  eapply ensures_bind; [apply ensures_liftR; apply Hget|]. intros audience _.
  eapply ensures_bind; [apply ensures_liftR; apply Hget|]. intros goal _.
  eapply ensures_bind; [apply ensures_liftR; apply Hget|]. intros channels _.
  eapply ensures_bind; [apply ensures_liftR; apply Hget|]. intros subreddits _.
  match goal with
  | |- ensures _ _ (if ?c then _ else _) => destruct c
  end; [apply ensures_ret; constructor|].
  destruct (configured (YOUTUBE_API_KEY env));
    [|apply ensures_ret; constructor].
  destruct (configured (REDDIT_CLIENT_ID env));
    [|apply ensures_ret; constructor].
  destruct (configured (REDDIT_CLIENT_SECRET env));
    [|apply ensures_ret; constructor].
  destruct (configured (llm_api_key v env));
    [|apply ensures_ret; constructor].
  eapply ensures_weaken; [| |apply run_pipeline_throws]; [|auto].
  intros reply [answer ->]. constructor.
Qed.


(** X6.  The handler never rejects: whatever the request, the environment
    and the upstream answers, it returns one of six replies, all carrying
    [Access-Control-Allow-Origin: *]: 204 without a body, 405, the 400 of
    the validation, the 500 of the configuration, 200 with the parsed
    completion, or the 500 of the [catch], whose [details] come from a
    TypeError, from the URIError of the search query or from the one error
    of the synthesis call (lines 94-176). *)
Theorem handler_always_replies (v : Variant) (env : Env) (req : IncomingRequest) :
  ensures
    (fun reply =>
       handler_reply v reply
       /\ In (lit "Access-Control-Allow-Origin", lit "*") (headers reply))
    (fun _ => False) (handler v env req).
Proof.
  eapply ensures_weaken; [| |apply handler_replies]; [|auto].
  intros reply H. split; [exact H | exact (handler_reply_cors v reply H)].
Qed.

End Outcomes.

(* ------------------------------------------------------------------ *)
(** ** The token cache across a call *)

Section CacheInvariant.
Context {num : JsNumbers} {codec : JsonCodec}.
Variable I : TokenCache -> Prop.

Lemma keeps_frame {A} (m : M A) :
  (forall w st, redditToken (snd (m w st)) = redditToken st) -> keeps I m.
Proof. intros H w st Hst. rewrite H. exact Hst. Qed.

Lemma keeps_fetch (r : Routine) (q : Request) : keeps I (fetch r q).
Proof.
  apply keeps_frame. intros w st. unfold fetch.
  destruct (respond w (trace st) q); reflexivity.
Qed.

Lemma keeps_response_json (resp : Response) : keeps I (response_json resp).
Proof.
  apply keeps_frame. intros w st. unfold response_json.
  destruct (json resp); reflexivity.
Qed.

Lemma keeps_set_redditToken (t : TokenCache) : I t -> keeps I (set_redditToken t).
Proof. intros Ht w st _. exact Ht. Qed.

Lemma keeps_bind {A B} (m : M A) (k : A -> M B) :
  keeps I m -> (forall x, keeps I (k x)) -> keeps I (bind m k).
Proof.
  intros Hm Hk w st Hst. specialize (Hm w st Hst). unfold bind.
  destruct (m w st) as [[x|e] st1]; cbn [snd] in *; [exact (Hk x w st1 Hm) | exact Hm].
Qed.

Lemma keeps_try_catch {A} (m : M A) (h : JsError -> M A) :
  keeps I m -> (forall e, keeps I (h e)) -> keeps I (try_catch m h).
Proof.
  intros Hm Hh w st Hst. specialize (Hm w st Hst). unfold try_catch.
  destruct (m w st) as [[x|e] st1]; cbn [snd] in *; [exact Hm | exact (Hh e w st1 Hm)].
Qed.

Lemma keeps_settle {A} (m : M A) : keeps I m -> keeps I (settle m).
Proof.
  intros Hm w st Hst. specialize (Hm w st Hst). unfold settle.
  destruct (m w st) as [r st1]. exact Hm.
Qed.

Lemma keeps_mapM {A B} (f : A -> M B) (l : list A) :
  (forall x, keeps I (f x)) -> keeps I (mapM f l).
Proof.
  intros Hf. induction l as [|x t IHt]; cbn [mapM].
  - apply keeps_frame. reflexivity.
  - apply keeps_bind; [apply Hf|]. intros y.
    apply keeps_bind; [exact IHt|]. intros ys. apply keeps_frame. reflexivity.
Qed.

End CacheInvariant.

Ltac keep_step :=
  lazymatch goal with
  | |- keeps _ (bind _ _) => apply keeps_bind; [|intros ?]
  | |- keeps _ (try_catch _ _) => apply keeps_try_catch; [|intros ?]
  | |- keeps _ (settle _) => apply keeps_settle
  | |- keeps _ (mapM _ _) => apply keeps_mapM; intros ?
  | |- keeps _ (if ?c then _ else _) => destruct c eqn:?
  | |- keeps _ (fetch _ _) => apply keeps_fetch
  | |- keeps _ (response_json _) => apply keeps_response_json
  | |- keeps _ (match ?x with (_, _) => _ end) => destruct x
  | |- keeps _ _ => apply keeps_frame; intros; reflexivity
  end.

Section CacheAcrossCalls.
Context {num : JsNumbers} {codec : JsonCodec}.

(** The fetchers and the synthesis call do not touch the cache. *)
Lemma keeps_searchYouTubeVideos (I : TokenCache -> Prop) (query apiKey : jsstring)
  (n : N) :
  keeps I (searchYouTubeVideos query apiKey n).
Proof. unfold searchYouTubeVideos. repeat keep_step. Qed.

Lemma keeps_getChannelVideos (I : TokenCache -> Prop) (c : JVal)
  (apiKey : jsstring) (n : N) :
  keeps I (getChannelVideos c apiKey n).
Proof. unfold getChannelVideos. repeat keep_step. Qed.

Lemma keeps_getSubredditPosts (I : TokenCache -> Prop) (v : Variant)
  (name : jsstring) (token : JVal) (n : N) :
  keeps I (getSubredditPosts v name token n).
Proof. unfold getSubredditPosts. repeat keep_step. Qed.

Lemma keeps_synthesize (I : TokenCache -> Prop) (v : Variant)
  (prompt apiKey : jsstring) :
  keeps I (synthesize v prompt apiKey).
Proof.
  destruct v; cbn [synthesize]; unfold callOpenAI_API, callGeminiAPI;
    repeat keep_step.
Qed.

(** The token routine writes the cache only with a token that passed
    [!data.access_token]. *)
Lemma keeps_getRedditAccessToken (v : Variant) (clientId clientSecret : jsstring) :
  keeps cache_ok (getRedditAccessToken v clientId clientSecret).
Proof.
  unfold getRedditAccessToken.
  keep_step; [keep_step|]. keep_step; [keep_step|].
  keep_step.
  { unfold cached_token_valid. repeat keep_step. }
  keep_step; [keep_step|].
  keep_step; [|keep_step].
  keep_step; [keep_step|]. keep_step; [keep_step|]. keep_step; [keep_step|].
  keep_step; [keep_step|]. keep_step; [keep_step|].
  keep_step; [|repeat keep_step].
  apply keeps_set_redditToken. right. cbn [value].
  match goal with
  | H : negb _ = false |- _ => apply negb_false_iff in H; exact H
  end.
Qed.

(** X7.  The cache of the Reddit token is, after any call of the handler,
    what it was at module load ([{ value: null, expires: 0 }]) or holds a
    truthy token, provided it was so before: a failed exchange, a rejected
    request or a failure anywhere else in the call never leaves a falsy
    value with an expiry in the cache (lines 36, 45-51). *)
Theorem handler_keeps_the_cache_sound (v : Variant) (env : Env)
  (req : IncomingRequest) :
  keeps cache_ok (handler v env req).
Proof.
  unfold handler.
  keep_step; [keep_step|]. keep_step; [keep_step|].
  keep_step; [|keep_step]. cbv zeta.
  keep_step; [keep_step|]. keep_step; [keep_step|].
  keep_step; [keep_step|]. keep_step; [keep_step|].
  keep_step; [keep_step|].
  destruct (configured (YOUTUBE_API_KEY env)); [|keep_step].
  destruct (configured (REDDIT_CLIENT_ID env)); [|keep_step].
  destruct (configured (REDDIT_CLIENT_SECRET env)); [|keep_step].
  destruct (configured (llm_api_key v env)); [|keep_step].
  unfold run_pipeline.
  keep_step; [keep_step|]. keep_step; [keep_step|].
  keep_step.
  - unfold collect.
    keep_step; [keep_step; apply keeps_searchYouTubeVideos|].
    keep_step.
    { keep_step. unfold collect_channels. keep_step; [|keep_step].
      keep_step. keep_step. keep_step; [apply keeps_getChannelVideos|keep_step]. }
    keep_step; [|keep_step].
    keep_step. unfold collect_reddit.
    keep_step; [apply keeps_getRedditAccessToken|].
    keep_step; [|keep_step].
    unfold collect_subreddits. keep_step; [|keep_step].
    keep_step. keep_step; [keep_step|]. keep_step.
    keep_step; [apply keeps_getSubredditPosts|keep_step].
  - keep_step. keep_step. keep_step; [keep_step|].
    keep_step; [apply keeps_synthesize|keep_step].
Qed.

End CacheAcrossCalls.

(* ------------------------------------------------------------------ *)
(** ** Fetchers that come back empty *)

Section Degradation.
Context {num : JsNumbers} {codec : JsonCodec}.

Lemma replace_first_unfold (pat rep s : jsstring) :
  replace_first pat rep s =
  match strip_prefix pat s with
  | Some rest => rep ++ rest
  | None =>
      match s with
      | [] => []
      | c :: s' => c :: replace_first pat rep s'
      end
  end.
Proof. destruct s; reflexivity. Qed.

Lemma strip_prefix_app (p s : jsstring) : strip_prefix p (p ++ s) = Some s.
Proof.
  induction p as [|c p IHp]; cbn [strip_prefix app]; [destruct s; reflexivity|].
  rewrite N.eqb_refl. exact IHp.
Qed.

Lemma replace_first_prefix (pat s : jsstring) : replace_first pat [] (pat ++ s) = s.
Proof. rewrite replace_first_unfold, strip_prefix_app. reflexivity. Qed.

Lemma replace_first_without_slash (rep s : jsstring) :
  ~ In 47%N s -> replace_first (lit "r/") rep s = s.
Proof.
  induction s as [|c s IHs]; intros Hs; [reflexivity|].
  rewrite replace_first_unfold.
  assert (E : strip_prefix (lit "r/") (c :: s) = None).
  { change (lit "r/") with [114%N; 47%N]. cbn [strip_prefix].
    destruct (N.eqb 114 c); [|reflexivity].
    destruct s as [|d s']; [reflexivity|].
    destruct (N.eqb_spec 47 d) as [<-|]; [|reflexivity].
    exfalso. apply Hs. right. left. reflexivity. }
  rewrite E. f_equal. apply IHs. intros Hin. apply Hs. right. exact Hin.
Qed.

(** X8.  A subreddit given as [name] or as [r/name], [name] without a
    slash, is fetched from the same URL
    [https://oauth.reddit.com/r/name/hot?limit=3] with the bearer token
    and the User-Agent of the variant, in one request; the record returned
    is labelled with the subreddit as it was given (lines 58-60, 128). *)
Theorem subreddit_prefix_is_optional (v : Variant) (token : JVal)
  (bearer name sub : jsstring) (w : World) (st : State) :
  ToString token = Ok bearer ->
  ~ In 47%N name ->
  sub = name \/ sub = lit "r/" ++ name ->
  let q :=
    {| req_url := lit "https://oauth.reddit.com/r/" ++ name ++ lit "/hot?limit=3";
       req_method := lit "GET";
       req_headers := [(lit "Authorization", lit "Bearer " ++ bearer);
                       (lit "User-Agent", userAgent v)];
       req_body := None |} in
  exists ps,
    collect_subreddits v token [JStr sub] w st
    = (Ok [{| subreddit := JStr sub; posts := ps |}],
       extend st [Invoke GetSubredditPosts;
                  Fetch GetSubredditPosts q
                    (respond w (trace st ++ [Invoke GetSubredditPosts]) q)]).
Proof.
  intros Hbearer Hname Hsub q.
  assert (E : replace_first (lit "r/") [] sub = name).
  { destruct Hsub as [->| ->];
      [apply replace_first_without_slash; exact Hname | apply replace_first_prefix]. }
  assert (Eq : http_get (lit "https://oauth.reddit.com/r/" ++ name
                         ++ lit "/hot?limit=" ++ N_to_js 3)
                 [(lit "Authorization", lit "Bearer " ++ bearer);
                  (lit "User-Agent", userAgent v)] = q) by reflexivity.
  unfold collect_subreddits. cbn [mapM call_replace]. rewrite E.
  unfold getSubredditPosts, settle, Promise_all. unfold_ops.
  rewrite Hbearer. unfold_ops. rewrite Eq.
  destruct (respond w (trace st ++ [Invoke GetSubredditPosts]) q) as [|resp];
    repeat (split_case; unfold_ops);
    (eexists; cbn [mapR rbind]; rewrite <- app_assoc; reflexivity).
Qed.

(** X9.  The keyword search of a well-formed query comes back empty, after
    its one request, when the request is rejected, when the body of the
    answer is not JSON and when the status of the answer is not OK
    (lines 8-15). *)
Theorem keyword_search_comes_back_empty (query enc apiKey : jsstring) (n : N)
  (w : World) (st : State) :
  encodeURIComponent query = Ok enc ->
  let q := http_get (youtube_search_url ++ lit "&q=" ++ enc
                     ++ lit "&type=video&order=relevance&maxResults="
                     ++ N_to_js n ++ lit "&key=" ++ apiKey) [] in
  let o := respond w (trace st ++ [Invoke SearchYouTubeVideos]) q in
  unanswered o \/ (exists resp, o = Responds resp /\ ok resp = false) ->
  searchYouTubeVideos query apiKey n w st
  = (Ok [], extend st [Invoke SearchYouTubeVideos;
                       Fetch SearchYouTubeVideos q o]).
Proof.
  intros Eenc q o Ho. subst o.
  unfold searchYouTubeVideos. unfold_ops. rewrite Eenc. unfold_ops. fold q.
  destruct Ho as [[Ho|(resp & Ho & Hj)]|(resp & Ho & Hok)]; rewrite Ho.
  - rewrite <- app_assoc. reflexivity.
  - destruct (ok resp); unfold_ops; [rewrite Hj|]; rewrite <- app_assoc; reflexivity.
  - rewrite Hok. unfold_ops. rewrite <- app_assoc. reflexivity.
Qed.

(** X10.  The lookup of a channel whose name prints and encodes comes back
    empty after the channel search alone, without a second request, when
    that search is rejected, is not answered with JSON, or is answered
    with no [items] or an empty list of them (lines 20-26, 31-33). *)
Theorem channel_lookup_comes_back_empty (c : JVal) (name enc apiKey : jsstring)
  (n : N) (w : World) (st : State) :
  ToString c = Ok name ->
  encodeURIComponent name = Ok enc ->
  let q := http_get (youtube_search_url ++ lit "&q=" ++ enc
                     ++ lit "&type=channel&maxResults=1&key=" ++ apiKey) [] in
  let o := respond w (trace st ++ [Invoke GetChannelVideos]) q in
  unanswered o
  \/ (exists resp data items,
        o = Responds resp /\ json resp = Some data
        /\ get data (lit "items") = Ok items /\ no_channel_match items = true) ->
  getChannelVideos c apiKey n w st
  = (Ok [], extend st [Invoke GetChannelVideos; Fetch GetChannelVideos q o]).
Proof.
  intros Ename Eenc q o Ho. subst o.
  unfold getChannelVideos. unfold_ops. rewrite Ename, Eenc. unfold_ops. fold q.
  destruct Ho as [[Ho|(resp & Ho & Hj)]|(resp & data & items & Ho & Hj & Hi & Hm)];
    rewrite Ho; unfold_ops; rewrite ?Hj; unfold_ops; rewrite ?Hi, ?Hm; unfold_ops;
    rewrite ?Ename; unfold_ops; rewrite <- app_assoc; reflexivity.
Qed.

(** X11.  The posts of a subreddit, asked with a token that prints, come
    back empty after the one request when it is rejected, when the answer
    is not JSON, and when the answer has no [data] (lines 61-67). *)
Theorem subreddit_posts_come_back_empty (v : Variant) (name : jsstring)
  (token : JVal) (bearer : jsstring) (n : N) (w : World) (st : State) :
  ToString token = Ok bearer ->
  let q := http_get (lit "https://oauth.reddit.com/r/" ++ name
                     ++ lit "/hot?limit=" ++ N_to_js n)
             [(lit "Authorization", lit "Bearer " ++ bearer);
              (lit "User-Agent", userAgent v)] in
  let o := respond w (trace st ++ [Invoke GetSubredditPosts]) q in
  unanswered o
  \/ (exists resp data d,
        o = Responds resp /\ json resp = Some data
        /\ get data (lit "data") = Ok d /\ nullish d = true) ->
  getSubredditPosts v name token n w st
  = (Ok [], extend st [Invoke GetSubredditPosts; Fetch GetSubredditPosts q o]).
Proof.
  intros Ebearer q o Ho. subst o.
  unfold getSubredditPosts. unfold_ops. rewrite Ebearer. unfold_ops. fold q.
  destruct Ho as [[Ho|(resp & Ho & Hj)]|(resp & data & d & Ho & Hj & Hd & Hn)];
    rewrite Ho; unfold_ops; rewrite ?Hj; unfold_ops;
    unfold children_posts; rewrite ?Hd; cbn [rbind]; rewrite ?Hn;
    rewrite <- app_assoc; reflexivity.
Qed.

End Degradation.

(* ------------------------------------------------------------------ *)
(** ** Where a completion and a URIError come from *)

Section Provenance.
Context {num : JsNumbers} {codec : JsonCodec}.

(** An outcome of the completion request is a failure or a completion. *)
Lemma completion_fails_or_is (v : Variant) (o : Outcome) :
  completion_fails v o \/ exists answer, completion_is v o answer.
Proof.
  destruct o as [|resp]; [left; constructor|].
  destruct (ok resp) eqn:Eok; [|left; apply fails_status; exact Eok].
  destruct (json resp) as [data|] eqn:Ej; [|left; apply fails_body; exact Ej].
  destruct (llm_content v data) as [content|e] eqn:Ec;
    [|left; eapply fails_shape; eassumption].
  destruct (JSON_parse content) as [answer|e] eqn:Ep;
    [|left; eapply fails_parse; eassumption].
  right. exists answer, resp, data, content. repeat split; assumption.
Qed.

(** X12.  What the synthesis call returns is never anything but the
    [JSON.parse] of the text found, at the path of the variant, in the JSON
    body of an OK answer to its one request (lines 72-86, 270-285). *)
Theorem synthesis_returns_only_the_parsed_completion (v : Variant)
  (prompt apiKey : jsstring) (w : World) (st : State) (answer : JVal) :
  fst (synthesize v prompt apiKey w st) = Ok answer ->
  completion_is v
    (respond w (trace st ++ [Invoke CallLLM]) (llm_request v prompt apiKey))
    answer.
Proof.
  intros Hrun.
  destruct (synthesize_run v prompt apiKey w st) as (result & Erun & Hf & His & _).
  cbv zeta in Erun, Hf, His. rewrite Erun in Hrun. cbn [fst] in Hrun. subst result.
  destruct (completion_fails_or_is v
              (respond w (trace st ++ [Invoke CallLLM])
                 (llm_request v prompt apiKey))) as [Hfail|[answer' Hc]].
  - specialize (Hf Hfail). discriminate Hf.
  - specialize (His answer' Hc). inversion His; subst. exact Hc.
Qed.

Lemma searchYouTubeVideos_malformed (query apiKey : jsstring) (n : N)
  (w : World) (st : State) :
  well_formed query = false ->
  searchYouTubeVideos query apiKey n w st
  = (Throw URIError, extend st [Invoke SearchYouTubeVideos]).
Proof.
  unfold well_formed, searchYouTubeVideos, encodeURIComponent. intros Hq.
  unfold_ops. destruct (code_points query); [discriminate|]. reflexivity.
Qed.

Lemma collect_malformed (v : Variant) (query youtubeKey clientId clientSecret
  : jsstring) (channels subreddits : list JVal) (w : World) (st : State) :
  well_formed query = false ->
  fst (collect v query youtubeKey clientId clientSecret channels subreddits w st)
  = Throw URIError.
Proof.
  intros Hq. unfold collect, bind, settle.
  rewrite (searchYouTubeVideos_malformed _ _ _ _ _ Hq).
  destruct (collect_channels youtubeKey channels w _) as [competitors st2].
  destruct (collect_reddit v clientId clientSecret subreddits w st2)
    as [reddit st3].
  reflexivity.
Qed.

(** X13.  A POST that passes validation, with the secrets set, whose
    audience and goal print to a text that is not well-formed UTF-16 (a
    lone surrogate) is answered 500 with the URIError of the keyword
    search as details, whatever the other fetchers found, and the
    synthesizer is never entered: the URL of the search is built outside
    the [try] of the fetcher (lines 6, 125, 172-175). *)
Theorem malformed_text_is_an_internal_error (v : Variant) (env : Env) (b : JVal)
  (a g : jsstring) (w : World) (st : State) :
  passes_validation b = true -> secrets_present v env = true ->
  ToString (field b (lit "audience")) = Ok a ->
  ToString (field b (lit "goal")) = Ok g ->
  well_formed (a ++ lit " " ++ g) = false ->
  fst (handler v env (post b) w st) = Ok (internal_error URIError)
  /\ exists evs,
       trace (snd (handler v env (post b) w st)) = trace st ++ evs
       /\ invocations CallLLM evs = 0
       /\ fetches CallLLM evs = 0.
Proof.
  unfold passes_validation, secrets_present. intros Hb Henv Ea Eg Hq.
  apply andb_prop in Hb. destruct Hb as [Hb Hs].
  apply andb_prop in Hb. destruct Hb as [Hb Hc].
  apply andb_prop in Hb. destruct Hb as [Ha Hg].
  destruct (configured (YOUTUBE_API_KEY env)) as [youtubeKey|] eqn:Ey;
    [|discriminate].
  destruct (configured (REDDIT_CLIENT_ID env)) as [clientId|] eqn:Ei;
    [|discriminate].
  destruct (configured (REDDIT_CLIENT_SECRET env)) as [clientSecret|] eqn:Es;
    [|discriminate].
  destruct (configured (llm_api_key v env)) as [llmKey|] eqn:El; [|discriminate].
  pose proof (collect_malformed v (a ++ lit " " ++ g) youtubeKey clientId
                clientSecret
                (elements (field b (lit "competitorYouTubeChannels")))
                (elements (field b (lit "relevantSubreddits"))) w st Hq) as Hthrow.
  destruct (collect_before_synthesis v (a ++ lit " " ++ g) youtubeKey clientId
              clientSecret
              (elements (field b (lit "competitorYouTubeChannels")))
              (elements (field b (lit "relevantSubreddits"))) w st)
    as (evs & Etrace & Hquiet).
  assert (Hrun : handler v env (post b) w st
                 = (Ok (internal_error URIError),
                    snd (collect v (a ++ lit " " ++ g) youtubeKey clientId
                           clientSecret
                           (elements (field b (lit "competitorYouTubeChannels")))
                           (elements (field b (lit "relevantSubreddits"))) w st))).
  { rewrite handler_post, Ha, Hg, Hc, Hs, Ey, Ei, Es, El. cbn [negb orb].
    unfold try_catch, run_pipeline. unfold bind at 1. unfold liftR at 1.
    rewrite Ea. unfold bind at 1. unfold liftR at 1. rewrite Eg.
    unfold bind at 1.
    destruct (collect v (a ++ lit " " ++ g) youtubeKey clientId clientSecret
                (elements (field b (lit "competitorYouTubeChannels")))
                (elements (field b (lit "relevantSubreddits"))) w st)
      as [result st1].
    cbn [fst snd] in Hthrow |- *. subst result. reflexivity. }
  rewrite Hrun. cbn [fst snd].
  split; [reflexivity|]. exists evs.
  split; [exact Etrace|].
  split; [apply before_synthesis_invocations | apply before_synthesis_fetches];
    exact Hquiet.
Qed.

End Provenance.

(* ------------------------------------------------------------------ *)
(** ** The status of a reply *)

Section Status.
Context {num : JsNumbers} {codec : JsonCodec}.

Lemma validated_status (v : Variant) (env : Env) (b : JVal) :
  passes_validation b = true ->
  ensures (fun reply => status reply = 200%N \/ status reply = 500%N)
    (fun _ => False) (handler v env (post b)).
Proof.
  unfold passes_validation. intros Hb w st.
  apply andb_prop in Hb. destruct Hb as [Hb Hs].
  apply andb_prop in Hb. destruct Hb as [Hb Hc].
  apply andb_prop in Hb. destruct Hb as [Ha Hg].
  rewrite handler_post, Ha, Hg, Hc, Hs. cbn [negb orb].
  apply (ensures_try_catch (fun reply => status reply = 200%N \/ status reply = 500%N)
           (fun _ => True) (fun _ => False)).
  - destruct (configured (YOUTUBE_API_KEY env));
      [|apply ensures_ret; right; reflexivity].
    destruct (configured (REDDIT_CLIENT_ID env));
      [|apply ensures_ret; right; reflexivity].
    destruct (configured (REDDIT_CLIENT_SECRET env));
      [|apply ensures_ret; right; reflexivity].
    destruct (configured (llm_api_key v env));
      [|apply ensures_ret; right; reflexivity].
    eapply ensures_weaken; [| |apply run_pipeline_throws]; [|auto].
    intros reply [answer ->]. left. reflexivity.
  - intros e _. apply ensures_ret. right. reflexivity.
Qed.

(** X14.  A POST is answered with status 400 exactly when its body fails
    the validation: past the validation the handler answers 200 or 500
    only, so a failure of an upstream service is never reported as a fault
    of the request (lines 111-114, 118, 170, 174). *)
Theorem status_400_is_the_validation_alone (v : Variant) (env : Env) (b : JVal)
  (w : World) (st : State) :
  (exists reply,
     fst (handler v env (post b) w st) = Ok reply /\ status reply = 400%N)
  <-> passes_validation b = false.
Proof.
  split.
  - intros (reply & Hr & Hs).
    destruct (passes_validation b) eqn:Hb; [|reflexivity].
    pose proof (validated_status v env b Hb w st) as H. rewrite Hr in H.
    destruct H as [H|H]; rewrite H in Hs; discriminate Hs.
  - intros Hb. exists bad_request. split; [|reflexivity].
    rewrite handler_rejects; [reflexivity|].
    unfold passes_validation in Hb.
    destruct (truthy (field b (lit "audience"))); [|reflexivity].
    destruct (truthy (field b (lit "goal"))); [|reflexivity].
    destruct (Array_isArray (field b (lit "competitorYouTubeChannels")));
      [|reflexivity].
    destruct (Array_isArray (field b (lit "relevantSubreddits")));
      [discriminate Hb | reflexivity].
Qed.

End Status.

(* ------------------------------------------------------------------ *)
(** ** The further properties on concrete inputs *)

Section FurtherExamples.
#[local] Existing Instance integer_numbers.
#[local] Existing Instance sample_codec.

(** An empty secret counts as missing. *)
Lemma missing_secret_witness :
  handler OpenAI
    {| YOUTUBE_API_KEY := Some (lit "yt-key");
       REDDIT_CLIENT_ID := Some (lit "id");
       REDDIT_CLIENT_SECRET := Some [];
       OPENAI_API_KEY := Some (lit "sk-test");
       GEMINI_API_KEY := None |}
    (post (request_body spec_request)) offline initial_state
  = (Ok {| status := 500; headers := cors_headers;
           payload := ErrorBody (lit "Server configuration error.") None |},
     initial_state).
Proof.
  apply (missing_secret_is_a_configuration_error OpenAI
           {| YOUTUBE_API_KEY := Some (lit "yt-key");
              REDDIT_CLIENT_ID := Some (lit "id");
              REDDIT_CLIENT_SECRET := Some [];
              OPENAI_API_KEY := Some (lit "sk-test");
              GEMINI_API_KEY := None |}
           (request_body spec_request) offline initial_state);
    vm_compute; reflexivity.
Defined.

(** A token granted to one pair of credentials is served to another, by the
    same file. *)
Lemma granted_token_witness :
  getRedditAccessToken OpenAI (lit "other") (lit "other") (healthy (lit "{}"))
    (snd (getRedditAccessToken OpenAI (lit "id") (lit "secret")
            (healthy (lit "{}")) initial_state))
  = (Ok (JStr (lit "token-1")),
     {| redditToken :=
          redditToken (snd (getRedditAccessToken OpenAI (lit "id") (lit "secret")
                              (healthy (lit "{}")) initial_state));
        trace :=
          trace (snd (getRedditAccessToken OpenAI (lit "id") (lit "secret")
                        (healthy (lit "{}")) initial_state))
          ++ [Invoke GetRedditAccessToken];
        ticks :=
          S (ticks (snd (getRedditAccessToken OpenAI (lit "id") (lit "secret")
                           (healthy (lit "{}")) initial_state))) |}).
Proof.
  apply (granted_token_is_served_until_it_expires OpenAI
           (lit "id") (lit "secret") (lit "other") (lit "other")
           (healthy (lit "{}")) initial_state (JStr (lit "token-1")));
    vm_compute; reflexivity.
Defined.

(** The query [a&b=c d]: no delimiter survives the encoding. *)
Lemma keyword_search_url_witness :
  well_formed (lit "a&b=c d") = true
  /\ exists enc,
       encodeURIComponent (lit "a&b=c d") = Ok enc
       /\ Forall (fun c => url_delimiter c = false) enc.
Proof.
  split; [reflexivity|].
  destruct (keyword_search_sends_the_query_encoded (lit "a&b=c d") (lit "yt-key")
              3 offline initial_state eq_refl) as (enc & E & H & _).
  exists enc. split; [exact E | exact H].
Defined.

Lemma handler_keeps_the_cache_witness :
  cache_ok (redditToken
              (snd (handler OpenAI sample_env (post (request_body spec_request))
                      (healthy (lit "{}")) initial_state))).
Proof.
  apply (handler_keeps_the_cache_sound OpenAI sample_env
           (post (request_body spec_request)) (healthy (lit "{}")) initial_state).
  left. reflexivity.
Defined.

Lemma subreddit_prefix_witness :
  exists ps,
    collect_subreddits OpenAI (JStr (lit "token-1")) [JStr (lit "r/fitness")]
      (healthy (lit "{}")) initial_state
    = (Ok [{| subreddit := JStr (lit "r/fitness"); posts := ps |}],
       extend initial_state
         [Invoke GetSubredditPosts;
          Fetch GetSubredditPosts
            {| req_url := lit "https://oauth.reddit.com/r/" ++ lit "fitness"
                          ++ lit "/hot?limit=3";
               req_method := lit "GET";
               req_headers := [(lit "Authorization", lit "Bearer " ++ lit "token-1");
                               (lit "User-Agent", userAgent OpenAI)];
               req_body := None |}
            (respond (healthy (lit "{}"))
               (trace initial_state ++ [Invoke GetSubredditPosts])
               {| req_url := lit "https://oauth.reddit.com/r/" ++ lit "fitness"
                             ++ lit "/hot?limit=3";
                  req_method := lit "GET";
                  req_headers := [(lit "Authorization",
                                   lit "Bearer " ++ lit "token-1");
                                  (lit "User-Agent", userAgent OpenAI)];
                  req_body := None |})]).
Proof.
  apply (subreddit_prefix_is_optional OpenAI (JStr (lit "token-1"))
           (lit "token-1") (lit "fitness") (lit "r/fitness")
           (healthy (lit "{}")) initial_state).
  - reflexivity.
  - vm_compute. intros H. repeat (destruct H as [H|H]; [discriminate H|]). exact H.
  - right. reflexivity.
Defined.

(** A search refused with a non-OK status. *)
Lemma keyword_search_comes_back_empty_witness :
  fst (searchYouTubeVideos (lit "fitness beginners") (lit "yt-key") 3
         refusing initial_state) = Ok []
  /\ requests (trace (snd (searchYouTubeVideos (lit "fitness beginners")
                             (lit "yt-key") 3 refusing initial_state))) = 1.
Proof.
  rewrite (keyword_search_comes_back_empty (lit "fitness beginners")
             (lit "fitness%20beginners") (lit "yt-key") 3 refusing initial_state
             eq_refl).
  - split; reflexivity.
  - right. eexists. split; reflexivity.
Defined.

Lemma channel_lookup_comes_back_empty_witness :
  fst (getChannelVideos (JStr (lit "Athlean-X")) (lit "yt-key") 3
         finds_nothing initial_state) = Ok []
  /\ requests (trace (snd (getChannelVideos (JStr (lit "Athlean-X"))
                             (lit "yt-key") 3 finds_nothing initial_state))) = 1.
Proof.
  rewrite (channel_lookup_comes_back_empty (JStr (lit "Athlean-X"))
             (lit "Athlean-X") (lit "Athlean-X") (lit "yt-key") 3 finds_nothing
             initial_state eq_refl eq_refl).
  - split; reflexivity.
  - right. do 3 eexists. repeat split; reflexivity.
Defined.

Lemma subreddit_posts_come_back_empty_witness :
  fst (getSubredditPosts Gemini (lit "fitness") (JStr (lit "token-1")) 3
         offline initial_state) = Ok []
  /\ requests (trace (snd (getSubredditPosts Gemini (lit "fitness")
                             (JStr (lit "token-1")) 3 offline initial_state))) = 1.
Proof.
  rewrite (subreddit_posts_come_back_empty Gemini (lit "fitness")
             (JStr (lit "token-1")) (lit "token-1") 3 offline initial_state
             eq_refl).
  - split; reflexivity.
  - left. left. reflexivity.
Defined.

Lemma synthesis_returns_only_the_parsed_completion_witness :
  completion_is OpenAI
    (respond (healthy (lit "{}")) (trace initial_state ++ [Invoke CallLLM])
       (llm_request OpenAI (lit "prompt") (lit "sk-test")))
    (JObj []).
Proof.
  apply (synthesis_returns_only_the_parsed_completion OpenAI (lit "prompt")
           (lit "sk-test") (healthy (lit "{}")) initial_state (JObj [])).
  vm_compute. reflexivity.
Defined.

(** An audience that is one half of an emoji, while every service answers. *)
Lemma malformed_text_witness :
  fst (handler OpenAI sample_env
         (post (request_body {| sr_audience := [55357%N];
                                sr_goal := lit "grow";
                                sr_channels := [lit "Athlean-X"];
                                sr_subreddits := [lit "r/fitness"] |}))
         (healthy (lit "{}")) initial_state)
  = Ok (internal_error URIError)
  /\ exists evs,
       trace (snd (handler OpenAI sample_env
                     (post (request_body {| sr_audience := [55357%N];
                                            sr_goal := lit "grow";
                                            sr_channels := [lit "Athlean-X"];
                                            sr_subreddits := [lit "r/fitness"] |}))
                     (healthy (lit "{}")) initial_state))
       = trace initial_state ++ evs
       /\ invocations CallLLM evs = 0
       /\ fetches CallLLM evs = 0.
Proof.
  apply (malformed_text_is_an_internal_error OpenAI sample_env
           (request_body {| sr_audience := [55357%N];
                            sr_goal := lit "grow";
                            sr_channels := [lit "Athlean-X"];
                            sr_subreddits := [lit "r/fitness"] |})
           [55357%N] (lit "grow") (healthy (lit "{}")) initial_state);
    vm_compute; reflexivity.
Defined.

End FurtherExamples.
